(** * csv_importer: a shallow embedding of [CSV2Redis]

    The development follows [csv_importer.py]: the record codec
    ([json.dumps] + UTF-8 + [lzma.compress] and back), the [csv.DictReader]
    row source, the Redis commands the engine issues, and the three entry
    points [__init__], [store_csv] and [get_records].

    Python [str] values are lists of code points, [bytes] values are lists
    of 8-bit numbers, exceptions are an explicit error type and the Redis
    server together with the files and the log is an explicit state. *)

From Stdlib Require Import NArith ZArith List Lia String Ascii Bool.
From stdpp Require Import base option list gmap.
Import ListNotations.

Local Open Scope N_scope.

(** ** Python values *)

Definition codepoint := N.
Definition pystr := list codepoint.
Definition bytes := list N.

(** A Rocq string literal read as a Python [str] of the same characters. *)
Definition py (s : string) : pystr := map N_of_ascii (list_ascii_of_string s).

(** The exceptions the program can meet.  [SystemExit] is the only one
    that is not an [Exception] subclass. *)
Inductive exn :=
| ZeroDivisionError
| IndexError
| UnboundLocalError
| CsvError
| UnicodeEncodeError
| UnicodeDecodeError
| JSONDecodeError
| LZMAError
| RedisError
| OSError
| TypeError
| KeyError
| Unsupported
| SystemExit (code : Z).

Definition is_Exception (e : exn) : bool :=
  match e with SystemExit _ => false | _ => true end.

Definition is_RedisError (e : exn) : bool :=
  match e with RedisError => true | _ => false end.

Inductive result (A : Type) :=
| Ok (a : A)
| Raise (e : exn).
Arguments Ok {A} a.
Arguments Raise {A} e.

Definition rbind {A B} (r : result A) (k : A -> result B) : result B :=
  match r with Ok a => k a | Raise e => Raise e end.

Notation "'let+' x := r 'in' k" := (rbind r (fun x => k))
  (at level 10, x pattern, r at level 100, k at level 200).

(** Values found in a [DictReader] row: a field ([str]), [restval]
    ([None]) for a missing field, or the list of surplus fields stored under
    [restkey]. *)
Inductive pyval :=
| PStr (s : pystr)
| PNone
| PList (l : list pystr).

(** Keys of a row: a field name, or [restkey], which is [None]. *)
Inductive pykey :=
| KStr (s : pystr)
| KNone.

Global Instance pykey_eq_dec : EqDecision pykey.
Proof. solve_decision. Defined.
Global Instance pyval_eq_dec : EqDecision pyval.
Proof. solve_decision. Defined.
Global Instance exn_eq_dec : EqDecision exn.
Proof. solve_decision. Defined.
Global Instance result_eq_dec {A} `{EqDecision A} : EqDecision (result A).
Proof. solve_decision. Defined.

(** A Python [dict] keeps its keys in insertion order; assigning to a key
    that is present replaces the value where it stands. *)
Definition pydict := list (pykey * pyval).

Fixpoint dict_set (k : pykey) (v : pyval) (d : pydict) : pydict :=
  match d with
  | [] => [(k, v)]
  | (k', v') :: d' =>
      if decide (k' = k) then (k, v) :: d' else (k', v') :: dict_set k v d'
  end.

Fixpoint dict_get (k : pykey) (d : pydict) : option pyval :=
  match d with
  | [] => None
  | (k', v') :: d' => if decide (k' = k) then Some v' else dict_get k d'
  end.

(** [dict(pairs)] *)
Definition dict_of_pairs (ps : list (pykey * pyval)) : pydict :=
  fold_left (fun d kv => dict_set (fst kv) (snd kv) d) ps [].

(** ** [json.dumps] with its defaults ([ensure_ascii=True], separators
    [", "] and [": "]) on a row *)

Module Json.

Definition QUOTE : codepoint := 0x22.
Definition BACKSLASH : codepoint := 0x5c.
Definition SPACE : codepoint := 0x20.
Definition COMMA : codepoint := 0x2c.
Definition COLON : codepoint := 0x3a.
Definition LBRACE : codepoint := 0x7b.
Definition RBRACE : codepoint := 0x7d.
Definition LBRACKET : codepoint := 0x5b.
Definition RBRACKET : codepoint := 0x5d.
Definition LOWER_U : codepoint := 0x75.

(** [Py_hexdigits]: lower-case digits. *)
Definition hexdigit (d : N) : codepoint :=
  if d <? 10 then 0x30 + d else 0x57 + d.

Definition u_escape (c : N) : pystr :=
  [BACKSLASH; LOWER_U;
   hexdigit (N.land (N.shiftr c 12) 0xf);
   hexdigit (N.land (N.shiftr c 8) 0xf);
   hexdigit (N.land (N.shiftr c 4) 0xf);
   hexdigit (N.land c 0xf)].

Definition high_surrogate (c : codepoint) : N :=
  0xD800 - N.shiftr 0x10000 10 + N.shiftr c 10.
Definition low_surrogate (c : codepoint) : N :=
  0xDC00 + N.land c 0x3FF.

(** Characters copied as they are: printable ASCII but the quote and the
    backslash. *)
Definition S_CHAR (c : codepoint) : bool :=
  (0x20 <=? c) && (c <=? 0x7e) && negb (c =? BACKSLASH) && negb (c =? QUOTE).

Definition ascii_escape_unichar (c : codepoint) : pystr :=
  if c =? BACKSLASH then [BACKSLASH; BACKSLASH]
  else if c =? QUOTE then [BACKSLASH; QUOTE]
  else if c =? 0x08 then [BACKSLASH; 0x62]
  else if c =? 0x0c then [BACKSLASH; 0x66]
  else if c =? 0x0a then [BACKSLASH; 0x6e]
  else if c =? 0x0d then [BACKSLASH; 0x72]
  else if c =? 0x09 then [BACKSLASH; 0x74]
  else if 0x10000 <=? c
       then u_escape (high_surrogate c) ++ u_escape (low_surrogate c)
       else u_escape c.

Definition escape_char (c : codepoint) : pystr :=
  if S_CHAR c then [c] else ascii_escape_unichar c.

Fixpoint escape_chars (s : pystr) : pystr :=
  match s with
  | [] => []
  | c :: s' => escape_char c ++ escape_chars s'
  end.

(** [encode_basestring_ascii] *)
Definition encode_basestring_ascii (s : pystr) : pystr :=
  QUOTE :: escape_chars s ++ [QUOTE].

(** [", ".join] of items already encoded *)
Fixpoint join_items (items : list pystr) : pystr :=
  match items with
  | [] => []
  | [x] => x
  | x :: rest => x ++ [COMMA; SPACE] ++ join_items rest
  end.

Definition dumps_key (k : pykey) : pystr :=
  match k with
  | KStr s => encode_basestring_ascii s
  | KNone => encode_basestring_ascii (py "null")
  end.

Definition dumps_val (v : pyval) : pystr :=
  match v with
  | PStr s => encode_basestring_ascii s
  | PNone => py "null"
  | PList l => LBRACKET :: join_items (map encode_basestring_ascii l) ++ [RBRACKET]
  end.

Definition dumps_item (kv : pykey * pyval) : pystr :=
  dumps_key (fst kv) ++ [COLON; SPACE] ++ dumps_val (snd kv).

Definition dumps (d : pydict) : pystr :=
  LBRACE :: join_items (map dumps_item d) ++ [RBRACE].

(** ** [json.loads] on the documents [dumps] writes for rows

    The scanner follows the C accelerator ([scanstring_unicode],
    [_parse_object_unicode], [_parse_array_unicode]) in strict mode.  Only
    the values a row can hold are built: strings, [null] and arrays of
    strings.  Other well-formed JSON (numbers, booleans, nested objects) is
    reported as [Unsupported] and never as a decoding error. *)

Definition is_ws (c : codepoint) : bool :=
  (c =? 0x20) || (c =? 0x09) || (c =? 0x0a) || (c =? 0x0d).

Fixpoint skip_ws (s : pystr) : pystr :=
  match s with
  | c :: r => if is_ws c then skip_ws r else s
  | [] => []
  end.

Definition hexval (d : codepoint) : option N :=
  if (0x30 <=? d) && (d <=? 0x39) then Some (d - 0x30)
  else if (0x61 <=? d) && (d <=? 0x66) then Some (d - 0x61 + 10)
  else if (0x41 <=? d) && (d <=? 0x46) then Some (d - 0x41 + 10)
  else None.

(** Four hexadecimal digits, folded as [c = (c << 4) | digit]. *)
Definition decode_uXXXX (s : pystr) : option (N * pystr) :=
  match s with
  | d1 :: d2 :: d3 :: d4 :: rest =>
      match hexval d1, hexval d2, hexval d3, hexval d4 with
      | Some a, Some b, Some c, Some d =>
          Some (N.lor (N.shiftl (N.lor (N.shiftl (N.lor (N.shiftl a 4) b) 4) c) 4) d,
                rest)
      | _, _, _, _ => None
      end
  | _ => None
  end.

Definition is_high_surrogate (c : N) : bool := (0xD800 <=? c) && (c <=? 0xDBFF).
Definition is_low_surrogate (c : N) : bool := (0xDC00 <=? c) && (c <=? 0xDFFF).
Definition join_surrogates (hi lo : N) : codepoint :=
  0x10000 + N.lor (N.shiftl (N.land hi 0x3FF) 10) (N.land lo 0x3FF).

Definition unescape (c : codepoint) : option codepoint :=
  if c =? QUOTE then Some QUOTE
  else if c =? BACKSLASH then Some BACKSLASH
  else if c =? 0x2f then Some 0x2f
  else if c =? 0x62 then Some 0x08
  else if c =? 0x66 then Some 0x0c
  else if c =? 0x6e then Some 0x0a
  else if c =? 0x72 then Some 0x0d
  else if c =? 0x74 then Some 0x09
  else None.

(** [scanstring]: the text after an opening quote, up to and including the
    closing quote; [acc] holds the characters read so far, last first. *)
Fixpoint scanstring_from (fuel : nat) (s : pystr) (acc : pystr)
  : result (pystr * pystr) :=
  match fuel with
  | O => Raise JSONDecodeError
  | S fuel' =>
      match s with
      | [] => Raise JSONDecodeError
      | c :: rest =>
          if c =? QUOTE then Ok (rev acc, rest)
          else if c =? BACKSLASH then
            match rest with
            | [] => Raise JSONDecodeError
            | e :: rest1 =>
                if e =? LOWER_U then
                  match decode_uXXXX rest1 with
                  | None => Raise JSONDecodeError
                  | Some (u, rest2) =>
                      if is_high_surrogate u then
                        match rest2 with
                        | b :: l :: rest3 =>
                            if (b =? BACKSLASH) && (l =? LOWER_U) then
                              match decode_uXXXX rest3 with
                              | None => Raise JSONDecodeError
                              | Some (u2, rest4) =>
                                  if is_low_surrogate u2
                                  then scanstring_from fuel' rest4
                                         (join_surrogates u u2 :: acc)
                                  else scanstring_from fuel' rest2 (u :: acc)
                              end
                            else scanstring_from fuel' rest2 (u :: acc)
                        | _ => scanstring_from fuel' rest2 (u :: acc)
                        end
                      else scanstring_from fuel' rest2 (u :: acc)
                  end
                else
                  match unescape e with
                  | None => Raise JSONDecodeError
                  | Some c' => scanstring_from fuel' rest1 (c' :: acc)
                  end
            end
          else if c <=? 0x1f then Raise JSONDecodeError
          else scanstring_from fuel' rest (c :: acc)
      end
  end.

Definition scanstring (s : pystr) : result (pystr * pystr) :=
  scanstring_from (S (length s)) s [].

(** First characters of the JSON terms that are left out: objects, [true],
    [false], [NaN], [Infinity] and numbers. *)
Definition starts_unmodelled (c : codepoint) : bool :=
  (c =? LBRACE) || (c =? 0x74) || (c =? 0x66) || (c =? 0x4e) || (c =? 0x49)
  || (c =? 0x2d) || ((0x30 <=? c) && (c <=? 0x39)).

Definition expecting_value (s : pystr) : exn :=
  match s with
  | c :: _ => if starts_unmodelled c then Unsupported else JSONDecodeError
  | [] => JSONDecodeError
  end.

(** The elements of an array, from its first term on. *)
Fixpoint parse_array_items (fuel : nat) (s : pystr) (acc : list pystr)
  : result (list pystr * pystr) :=
  match fuel with
  | O => Raise JSONDecodeError
  | S fuel' =>
      match s with
      | c :: r =>
          if c =? QUOTE then
            let+ (v, r1) := scanstring r in
            match skip_ws r1 with
            | d :: r2 =>
                if d =? RBRACKET then Ok (rev (v :: acc), r2)
                else if d =? COMMA
                     then parse_array_items fuel' (skip_ws r2) (v :: acc)
                     else Raise JSONDecodeError
            | [] => Raise JSONDecodeError
            end
          else if (c =? LBRACKET) || (c =? 0x6e) then Raise Unsupported
          else Raise (expecting_value s)
      | [] => Raise JSONDecodeError
      end
  end.

(** [scan_once] *)
Definition parse_value (s : pystr) : result (pyval * pystr) :=
  match s with
  | c :: r =>
      if c =? QUOTE then
        let+ (v, r1) := scanstring r in Ok (PStr v, r1)
      else if c =? LBRACKET then
        match skip_ws r with
        | d :: r1 =>
            if d =? RBRACKET then Ok (PList [], r1)
            else let+ (l, r2) := parse_array_items (S (length r)) (skip_ws r) [] in
                 Ok (PList l, r2)
        | [] => Raise JSONDecodeError
        end
      else if c =? 0x6e then
        match r with
        | 0x75 :: 0x6c :: 0x6c :: r1 => Ok (PNone, r1)
        | _ => Raise JSONDecodeError
        end
      else Raise (expecting_value s)
  | [] => Raise JSONDecodeError
  end.

(** The members of an object, from its first key on. *)
Fixpoint parse_object_items (fuel : nat) (s : pystr) (acc : list (pykey * pyval))
  : result (list (pykey * pyval) * pystr) :=
  match fuel with
  | O => Raise JSONDecodeError
  | S fuel' =>
      match s with
      | c :: r =>
          if c =? QUOTE then
            let+ (k, r1) := scanstring r in
            match skip_ws r1 with
            | d :: r2 =>
                if d =? COLON then
                  let+ (v, r3) := parse_value (skip_ws r2) in
                  match skip_ws r3 with
                  | e :: r4 =>
                      if e =? RBRACE then Ok (rev ((KStr k, v) :: acc), r4)
                      else if e =? COMMA
                           then parse_object_items fuel' (skip_ws r4)
                                  ((KStr k, v) :: acc)
                           else Raise JSONDecodeError
                  | [] => Raise JSONDecodeError
                  end
                else Raise JSONDecodeError
            | [] => Raise JSONDecodeError
            end
          else Raise JSONDecodeError
      | [] => Raise JSONDecodeError
      end
  end.

(** [OrderedDict(json.loads(text))] for a text already decoded: one JSON
    object, white space around it, nothing after it. *)
Definition loads (text : pystr) : result pydict :=
  match skip_ws text with
  | c :: r =>
      if c =? LBRACE then
        let+ (pairs, rest) :=
          match skip_ws r with
          | d :: r1 =>
              if d =? RBRACE then Ok ([], r1)
              else parse_object_items (S (length r)) (skip_ws r) []
          | [] => Raise JSONDecodeError
          end in
        match skip_ws rest with
        | [] => Ok (dict_of_pairs pairs)
        | _ :: _ => Raise JSONDecodeError
        end
      else if (c =? QUOTE) || (c =? LBRACKET) || (c =? 0x6e) then Raise Unsupported
      else Raise (expecting_value (c :: r))
  | [] => Raise JSONDecodeError
  end.

End Json.

(** ** [str.encode("UTF-8")] and the decoding [json.loads] applies to bytes *)

Module Utf8.

Definition is_surrogate (c : codepoint) : bool := (0xD800 <=? c) && (c <=? 0xDFFF).

(** The bytes of one code point; lone surrogates are refused (the error
    handler is [strict]). *)
Definition encode_char (c : codepoint) : option bytes :=
  if c <? 0x80 then Some [c]
  else if c <? 0x800 then
    Some [N.lor 0xC0 (N.shiftr c 6); N.lor 0x80 (N.land c 0x3F)]
  else if c <? 0x10000 then
    if is_surrogate c then None
    else Some [N.lor 0xE0 (N.shiftr c 12);
               N.lor 0x80 (N.land (N.shiftr c 6) 0x3F);
               N.lor 0x80 (N.land c 0x3F)]
  else if c <? 0x110000 then
    Some [N.lor 0xF0 (N.shiftr c 18);
          N.lor 0x80 (N.land (N.shiftr c 12) 0x3F);
          N.lor 0x80 (N.land (N.shiftr c 6) 0x3F);
          N.lor 0x80 (N.land c 0x3F)]
  else None.

Fixpoint encode (s : pystr) : result bytes :=
  match s with
  | [] => Ok []
  | c :: s' =>
      match encode_char c with
      | None => Raise UnicodeEncodeError
      | Some bs => let+ rest := encode s' in Ok (bs ++ rest)
      end
  end.

Definition is_cont (b : N) : bool := (0x80 <=? b) && (b <=? 0xBF).
Definition cont (b : N) : N := N.land b 0x3F.

(** [bytes.decode("utf-8", "surrogatepass")]: shortest forms only, nothing
    above U+10FFFF, surrogates let through. *)
Fixpoint decode (b : bytes) : result pystr :=
  match b with
  | [] => Ok []
  | b0 :: r =>
      if b0 <? 0x80 then let+ s := decode r in Ok (b0 :: s)
      else if (0xC2 <=? b0) && (b0 <=? 0xDF) then
        match r with
        | b1 :: r1 =>
            if is_cont b1
            then let+ s := decode r1 in
                 Ok (N.lor (N.shiftl (N.land b0 0x1F) 6) (cont b1) :: s)
            else Raise UnicodeDecodeError
        | _ => Raise UnicodeDecodeError
        end
      else if (0xE0 <=? b0) && (b0 <=? 0xEF) then
        match r with
        | b1 :: b2 :: r2 =>
            let c := N.lor (N.shiftl (N.land b0 0x0F) 12)
                       (N.lor (N.shiftl (cont b1) 6) (cont b2)) in
            if is_cont b1 && is_cont b2 && (0x800 <=? c)
            then let+ s := decode r2 in Ok (c :: s)
            else Raise UnicodeDecodeError
        | _ => Raise UnicodeDecodeError
        end
      else if (0xF0 <=? b0) && (b0 <=? 0xF4) then
        match r with
        | b1 :: b2 :: b3 :: r3 =>
            let c := N.lor (N.shiftl (N.land b0 0x07) 18)
                       (N.lor (N.shiftl (cont b1) 12)
                          (N.lor (N.shiftl (cont b2) 6) (cont b3))) in
            if is_cont b1 && is_cont b2 && is_cont b3
               && (0x10000 <=? c) && (c <? 0x110000)
            then let+ s := decode r3 in Ok (c :: s)
            else Raise UnicodeDecodeError
        | _ => Raise UnicodeDecodeError
        end
      else Raise UnicodeDecodeError
  end.

End Utf8.

(** [json.detect_encoding]: a byte-order mark or the position of zero bytes
    among the first four selects UTF-16 or UTF-32; everything else is
    UTF-8. *)
Inductive encoding := UTF8 | UTF8_SIG | UTF16 | UTF32.

Definition detect_encoding (b : bytes) : encoding :=
  match b with
  | 0x00 :: 0x00 :: 0xFE :: 0xFF :: _ => UTF32
  | 0xFF :: 0xFE :: 0x00 :: 0x00 :: _ => UTF32
  | 0xFE :: 0xFF :: _ => UTF16
  | 0xFF :: 0xFE :: _ => UTF16
  | 0xEF :: 0xBB :: 0xBF :: _ => UTF8_SIG
  | b0 :: b1 :: b2 :: b3 :: _ =>
      if b0 =? 0 then (if b1 =? 0 then UTF32 else UTF16)
      else if b1 =? 0 then (if (b2 =? 0) && (b3 =? 0) then UTF32 else UTF16)
      else UTF8
  | [b0; b1] => if (b0 =? 0) || (b1 =? 0) then UTF16 else UTF8
  | _ => UTF8
  end.

(** [json.loads] on [bytes].  The UTF-16 and UTF-32 decoders are not
    modelled: [store_csv] writes ASCII only. *)
Definition json_loads_bytes (b : bytes) : result pydict :=
  match detect_encoding b with
  | UTF8 => let+ text := Utf8.decode b in Json.loads text
  | UTF8_SIG => let+ text := Utf8.decode (drop 3 b) in Json.loads text
  | UTF16 | UTF32 => Raise Unsupported
  end.

(** ** The [csv] module: [csv.reader] with the [excel] dialect

    The delimiter is the comma, the quote character the double quote
    (doubled inside a quoted field), there is no escape character, initial
    spaces are kept and the dialect is not strict.  The reader is the
    state machine of [_csv.c] (CPython 3.11, where NUL is an ordinary
    character), fed with the lines of a file opened with [newline='']. *)

Module Csv.

Definition LF : codepoint := 0x0a.
Definition CR : codepoint := 0x0d.
Definition DELIMITER : codepoint := 0x2c.
Definition QUOTECHAR : codepoint := 0x22.
Definition field_limit : N := 131072.

(** The lines a text file yields when iterated with [newline='']: they end
    at LF, CR or CR LF, and keep their ending.  [cur] is the line
    being read, last character first. *)
Fixpoint lines_from (s : pystr) (cur : pystr) : list pystr :=
  match s with
  | [] => match cur with [] => [] | _ => [rev cur] end
  | c :: r =>
      if c =? LF then rev (c :: cur) :: lines_from r []
      else if c =? CR then
        match r with
        | d :: r' =>
            if d =? LF then rev (d :: c :: cur) :: lines_from r' []
            else rev (c :: cur) :: lines_from r []
        | [] => [rev (c :: cur)]
        end
      else lines_from r (c :: cur)
  end.

Definition readlines (text : pystr) : list pystr := lines_from text [].

Inductive ParserState :=
| START_RECORD
| START_FIELD
| IN_FIELD
| IN_QUOTED_FIELD
| QUOTE_IN_QUOTED_FIELD
| EAT_CRNL.

(** The parser: its state, the fields saved so far (last first) and the
    field being read (last character first). *)
Record parser := {
  state : ParserState;
  fields : list pystr;
  field : pystr;
  field_len : N
}.

Definition parse_reset : parser :=
  {| state := START_RECORD; fields := []; field := []; field_len := 0 |}.

Definition set_state (s : ParserState) (p : parser) : parser :=
  {| state := s; fields := fields p; field := field p; field_len := field_len p |}.

Definition parse_save_field (p : parser) : parser :=
  {| state := state p; fields := rev (field p) :: fields p;
     field := []; field_len := 0 |}.

Definition parse_add_char (p : parser) (c : codepoint) : result parser :=
  if field_limit <=? field_len p then Raise CsvError
  else Ok {| state := state p; fields := fields p;
             field := c :: field p; field_len := field_len p + 1 |}.

Definition is_nl (c : codepoint) : bool := (c =? LF) || (c =? CR).

(** What follows a newline or the end of the line. *)
Definition after_eol (c : option codepoint) : ParserState :=
  match c with None => START_RECORD | Some _ => EAT_CRNL end.

Definition is_eol (c : option codepoint) : bool :=
  match c with None => true | Some ch => is_nl ch end.

(** [parse_process_char]; [None] is the end-of-line marker [EOL]. *)
Definition parse_process_char (p : parser) (c : option codepoint) : result parser :=
  let start_field (p : parser) :=
    if is_eol c then Ok (set_state (after_eol c) (parse_save_field p))
    else match c with
         | None => Ok p
         | Some ch =>
             if ch =? QUOTECHAR then Ok (set_state IN_QUOTED_FIELD p)
             else if ch =? DELIMITER then Ok (parse_save_field p)
             else let+ p' := parse_add_char p ch in Ok (set_state IN_FIELD p')
         end in
  match state p with
  | START_RECORD =>
      match c with
      | None => Ok p
      | Some ch =>
          if is_nl ch then Ok (set_state EAT_CRNL p)
          else start_field (set_state START_FIELD p)
      end
  | START_FIELD => start_field p
  | IN_FIELD =>
      if is_eol c then Ok (set_state (after_eol c) (parse_save_field p))
      else match c with
           | None => Ok p
           | Some ch =>
               if ch =? DELIMITER then Ok (set_state START_FIELD (parse_save_field p))
               else parse_add_char p ch
           end
  | IN_QUOTED_FIELD =>
      match c with
      | None => Ok p
      | Some ch =>
          if ch =? QUOTECHAR then Ok (set_state QUOTE_IN_QUOTED_FIELD p)
          else parse_add_char p ch
      end
  | QUOTE_IN_QUOTED_FIELD =>
      match c with
      | Some ch =>
          if ch =? QUOTECHAR then
            let+ p' := parse_add_char p ch in Ok (set_state IN_QUOTED_FIELD p')
          else if ch =? DELIMITER then Ok (set_state START_FIELD (parse_save_field p))
          else if is_nl ch then Ok (set_state EAT_CRNL (parse_save_field p))
          else let+ p' := parse_add_char p ch in Ok (set_state IN_FIELD p')
      | None => Ok (set_state START_RECORD (parse_save_field p))
      end
  | EAT_CRNL =>
      match c with
      | None => Ok (set_state START_RECORD p)
      | Some ch => if is_nl ch then Ok p else Raise CsvError
      end
  end.

(** One line: each of its characters, then [EOL]. *)
Fixpoint parse_line (p : parser) (line : pystr) : result parser :=
  match line with
  | [] => parse_process_char p None
  | c :: rest => let+ p' := parse_process_char p (Some c) in parse_line p' rest
  end.

(** What one call of [next(reader)] gives, with [reader.line_num] after
    it. *)
Inductive item :=
| Row (fields : list pystr) (line_num : N)
| Error (line_num : N).

(** Every [Reader_iternext] of a reader over [lines], in order: a record
    ends with the line that brings the parser back to [START_RECORD]; at the
    end of the input an open quoted field (or a field with characters) is
    saved and the record returned.  An error ends the sequence. *)
Fixpoint iter_lines (lines : list pystr) (line_num : N) (p : parser) : list item :=
  match lines with
  | [] =>
      if negb (field_len p =? 0)
         || match state p with IN_QUOTED_FIELD => true | _ => false end
      then [Row (rev (fields (parse_save_field p))) line_num]
      else []
  | line :: rest =>
      match parse_line p line with
      | Raise _ => [Error (line_num + 1)]
      | Ok p' =>
          match state p' with
          | START_RECORD =>
              Row (rev (fields p')) (line_num + 1)
              :: iter_lines rest (line_num + 1) parse_reset
          | _ => iter_lines rest (line_num + 1) p'
          end
      end
  end.

(** [csv.reader(f, dialect="excel")] over the text of [f]. *)
Definition reader (text : pystr) : list item :=
  iter_lines (readlines text) 0 parse_reset.

End Csv.

(** ** State and exceptions

    A computation reads and writes a state and either returns a value or
    raises. *)

Definition SE (S A : Type) : Type := S -> result A * S.

Definition ret {S A} (a : A) : SE S A := fun s => (Ok a, s).
Definition raise {S A} (e : exn) : SE S A := fun s => (Raise e, s).
Definition lift_result {S A} (r : result A) : SE S A := fun s => (r, s).
Definition gets {S A} (f : S -> A) : SE S A := fun s => (Ok (f s), s).
Definition modify {S} (f : S -> S) : SE S unit := fun s => (Ok tt, f s).

Definition bind {S A B} (m : SE S A) (k : A -> SE S B) : SE S B :=
  fun s =>
    match m s with
    | (Ok a, s') => k a s'
    | (Raise e, s') => (Raise e, s')
    end.

Notation "'let*' x := m 'in' k" := (bind m (fun x => k))
  (at level 10, x pattern, m at level 100, k at level 200).

(** [try: m except <classes>: handler] *)
Definition try_except {S A} (m : SE S A) (catches : exn -> bool)
    (handler : exn -> SE S A) : SE S A :=
  fun s =>
    match m s with
    | (Raise e, s') => if catches e then handler e s' else (Raise e, s')
    | r => r
    end.

(** ** [csv.DictReader] *)

Module DictReader.

(** The object: the underlying [csv.reader] (what it will still yield and
    its [line_num]), [_fieldnames] and [line_num]. *)
Record t := {
  reader : list Csv.item;
  reader_line_num : N;
  _fieldnames : option (list pystr);
  line_num : N
}.

Definition __init__ (text : pystr) : t :=
  {| reader := Csv.reader text; reader_line_num := 0;
     _fieldnames := None; line_num := 0 |}.

(** [next(self.reader)]; [None] stands for [StopIteration]. *)
Definition next_reader : SE t (option (list pystr)) :=
  fun r =>
    match reader r with
    | [] => (Ok None, r)
    | Csv.Row fs ln :: rest =>
        (Ok (Some fs),
         {| reader := rest; reader_line_num := ln;
            _fieldnames := _fieldnames r; line_num := line_num r |})
    | Csv.Error ln :: rest =>
        (Raise CsvError,
         {| reader := rest; reader_line_num := ln;
            _fieldnames := _fieldnames r; line_num := line_num r |})
    end.

Definition set_fieldnames (row : list pystr) : SE t unit :=
  modify (fun r => {| reader := reader r; reader_line_num := reader_line_num r;
                      _fieldnames := Some row; line_num := line_num r |}).

Definition sync_line_num : SE t unit :=
  modify (fun r => {| reader := reader r; reader_line_num := reader_line_num r;
                      _fieldnames := _fieldnames r;
                      line_num := reader_line_num r |}).

(** The [fieldnames] property: reads the header on first use and always
    refreshes [line_num]. *)
Definition fieldnames : SE t (option (list pystr)) :=
  let* fns := gets _fieldnames in
  let* _ := match fns with
            | Some _ => ret tt
            | None =>
                let* row := next_reader in
                match row with
                | Some header => set_fieldnames header
                | None => ret tt
                end
            end in
  let* _ := sync_line_num in
  gets _fieldnames.

(** [while row == []: row = next(self.reader)]; at most one turn for each
    item the reader still holds. *)
Fixpoint skip_blank (fuel : nat) (row : list pystr) : SE t (option (list pystr)) :=
  match row with
  | _ :: _ => ret (Some row)
  | [] =>
      match fuel with
      | O => ret None
      | S fuel' =>
          let* next := next_reader in
          match next with
          | None => ret None
          | Some row' => skip_blank fuel' row'
          end
      end
  end.

(** [dict(zip(fieldnames, row))] *)
Fixpoint zip_dict (fns : list pystr) (row : list pystr) (d : pydict) : pydict :=
  match fns, row with
  | f :: fns', v :: row' => zip_dict fns' row' (dict_set (KStr f) (PStr v) d)
  | _, _ => d
  end.

(** [for key in keys: d[key] = None] *)
Definition fill_restval (keys : list pystr) (d : pydict) : pydict :=
  fold_left (fun d k => dict_set (KStr k) PNone d) keys d.

Definition make_row (fns row : list pystr) : pydict :=
  let d := zip_dict fns row [] in
  let lf := length fns in
  let lr := length row in
  if (lf <? lr)%nat then dict_set KNone (PList (drop lf row)) d
  else if (lr <? lf)%nat then fill_restval (drop lr fns) d
  else d.

(** [__next__]; [None] stands for [StopIteration]. *)
Definition __next__ : SE t (option pydict) :=
  let* ln := gets line_num in
  let* _ := if ln =? 0 then (let* _ := fieldnames in ret tt) else ret tt in
  let* first := next_reader in
  match first with
  | None => ret None
  | Some row0 =>
      let* _ := sync_line_num in
      let* pending := gets reader in
      let* next := skip_blank (length pending) row0 in
      match next with
      | None => ret None
      | Some row =>
          let* fns := fieldnames in
          match fns with
          | None => raise TypeError
          | Some fns => ret (Some (make_row fns row))
          end
      end
  end.

End DictReader.

(** ** The Redis server and the rest of the outside world *)

(** The commands the program sends. *)
Inductive command :=
| INFO (section : pystr)
| FLUSHDB
| RPUSH (name : pystr) (value : bytes)
| LRANGE (name : pystr) (start stop : Z)
| BGSAVE.

Inductive reply :=
| ReplyOk
| ReplyInfo
| ReplyInt (n : nat)
| ReplyList (l : list bytes).

(** [LRANGE]: both ends are inclusive, negative indices count from the end
    of the list, and the range is clipped to the list. *)
Definition lrange (l : list bytes) (start stop : Z) : list bytes :=
  let len := Z.of_nat (length l) in
  let start := if (start <? 0)%Z then Z.max 0 (len + start) else start in
  let stop := if (stop <? 0)%Z then (len + stop)%Z else stop in
  let stop := Z.min stop (len - 1) in
  if (stop <? start)%Z then []
  else take (Z.to_nat (stop - start + 1)) (drop (Z.to_nat start) l).

(** Arguments of [str.format], log lines and printed lines. *)
Inductive arg :=
| AInt (n : N)
| AVal (v : pyval)
| AExn (e : exn)
| AProcessTime.

Inductive template :=
| ConnectError      (* "Error connecting to Redis: {}" *)
| ProcessingRecords (* "processing {} records" *)
| Progress          (* "On record {} Processed {} lines of {}. Elapsed process time {}" *)
| StoreError.       (* "Error storing csv row to Redis\n Row: {1}\nException:\n{2}" *)

(** The replacement fields of each template, as indices into the
    arguments. *)
Definition replacement_fields (t : template) : list nat :=
  match t with
  | ConnectError => [0]
  | ProcessingRecords => [0]
  | Progress => [0; 1; 2; 3]
  | StoreError => [1; 2]
  end%nat.

Fixpoint format_fields (indices : list nat) (args : list arg) : result (list arg) :=
  match indices with
  | [] => Ok []
  | i :: rest =>
      match nth_error args i with
      | None => Raise IndexError
      | Some a => let+ l := format_fields rest args in Ok (a :: l)
      end
  end.

Inductive message :=
| Formatted (t : template) (fields : list arg)
| ServerInfo
| Arguments_.

(** [template.format( *args )] *)
Definition str_format (t : template) (args : list arg) : result message :=
  let+ l := format_fields (replacement_fields t) args in Ok (Formatted t l).

Inductive level := DEBUG | ERROR.

Global Instance level_eq_dec : EqDecision level.
Proof. solve_decision. Defined.

Inductive printed :=
| PrintRecord (d : pydict)
| PrintCount (n : nat).

(** The selected database (lists only: [FLUSHDB] removes whatever else
    there was before [store_csv] writes), the number of background saves
    started, the commands sent so far, the files opened, and what went to
    the error stream and to the standard output. *)
Record world := {
  db : gmap pystr (list bytes);
  bgsaves : nat;
  history : list command;
  opened : list pystr;
  log : list (level * message);
  stdout : list printed
}.

(** What a run cannot choose: the files, the commands that fail (by their
    position in [history]), the [--verbose] flag, and the [lzma] module. *)
Record Env := {
  fs : pystr -> option pystr;
  faulty : nat -> bool;
  verbose : bool;
  lzma_compress : bytes -> bytes;
  lzma_decompress : bytes -> result bytes
}.

(** The server's side of a command. *)
Definition execute (c : command) (d : gmap pystr (list bytes)) (saves : nat)
  : reply * gmap pystr (list bytes) * nat :=
  match c with
  | INFO _ => (ReplyInfo, d, saves)
  | FLUSHDB => (ReplyOk, ∅, saves)
  | RPUSH name value =>
      let l := default [] (d !! name) ++ [value] in
      (ReplyInt (length l), <[name := l]> d, saves)
  | LRANGE name start stop =>
      (ReplyList (lrange (default [] (d !! name)) start stop), d, saves)
  | BGSAVE => (ReplyOk, d, S saves)
  end.

(** The row encoding of [store_csv] on its own: lines 72 to 77. *)
Definition encode_row (env : Env) (row : pydict) : result bytes :=
  let+ json_ordered_dict := Utf8.encode (Json.dumps row) in
  Ok (lzma_compress env json_ordered_dict).

Section Engine.

Variable env : Env.

(** A command sent over the connection: it reaches the server and is
    executed, or it fails with a [RedisError] and leaves the server as it
    was. *)
Definition send (c : command) : SE world reply :=
  fun w =>
    if faulty env (length (history w)) then
      (Raise RedisError,
       {| db := db w; bgsaves := bgsaves w; history := history w ++ [c];
          opened := opened w; log := log w; stdout := stdout w |})
    else
      let '(r, d, saves) := execute c (db w) (bgsaves w) in
      (Ok r,
       {| db := d; bgsaves := saves; history := history w ++ [c];
          opened := opened w; log := log w; stdout := stdout w |}).

(** redis-py encodes a [str] name as UTF-8 before sending; the database is
    keyed by the [str] itself, which its encoding determines. *)
Definition encode_name (name : pyval) : result pystr :=
  match name with
  | PStr s => let+ _ := Utf8.encode s in Ok s
  | _ => Raise RedisError
  end.

Definition redis_info (section : pystr) : SE world unit :=
  let* _ := send (INFO section) in ret tt.

Definition redis_flushdb : SE world unit :=
  let* _ := send FLUSHDB in ret tt.

Definition redis_bgsave : SE world unit :=
  let* _ := send BGSAVE in ret tt.

Definition redis_rpush (name : pyval) (value : bytes) : SE world unit :=
  let* k := lift_result (encode_name name) in
  let* _ := send (RPUSH k value) in ret tt.

Definition redis_lrange (name : pystr) (start stop : Z) : SE world (list bytes) :=
  let* k := lift_result (encode_name (PStr name)) in
  let* r := send (LRANGE k start stop) in
  match r with
  | ReplyList l => ret l
  | _ => ret []
  end.

(** [open(path, ...)] for reading: the text of the file. *)
Definition open (path : pystr) : SE world pystr :=
  fun w =>
    let w' := {| db := db w; bgsaves := bgsaves w; history := history w;
                 opened := opened w ++ [path]; log := log w;
                 stdout := stdout w |} in
    match fs env path with
    | Some text => (Ok text, w')
    | None => (Raise OSError, w')
    end.

Definition emit (l : level) (m : message) : SE world unit :=
  modify (fun w => {| db := db w; bgsaves := bgsaves w; history := history w;
                      opened := opened w; log := log w ++ [(l, m)];
                      stdout := stdout w |}).

(** [logger.debug]: dropped unless the level was lowered by [--verbose]. *)
Definition logger_debug (m : message) : SE world unit :=
  if verbose env then emit DEBUG m else ret tt.

Definition logger_error (m : message) : SE world unit := emit ERROR m.

Definition print (p : printed) : SE world unit :=
  modify (fun w => {| db := db w; bgsaves := bgsaves w; history := history w;
                      opened := opened w; log := log w;
                      stdout := stdout w ++ [p] |}).

(** *** [CSV2Redis.__init__] *)
Definition __init__ : SE world unit :=
  try_except
    (let* _ := redis_info (py "server") in
     logger_debug ServerInfo)
    is_RedisError
    (fun e =>
       let* m := lift_result (str_format ConnectError [AExn e]) in
       let* _ := logger_error m in
       raise (SystemExit 1)).

(** *** [CSV2Redis._get_record_count] *)

(** The text a file opened with the default [newline=None] gives to
    [read]: CR LF and CR become LF. *)
Fixpoint universal_newlines (s : pystr) : pystr :=
  match s with
  | [] => []
  | c :: r =>
      if c =? Csv.CR then
        Csv.LF :: match r with
                  | d :: r' =>
                      if d =? Csv.LF then universal_newlines r'
                      else universal_newlines r
                  | [] => []
                  end
      else c :: universal_newlines r
  end.

(** [iter(partial(f.read, buffer), '')]: the chunks [f.read(buffer)]
    returns until it returns the empty string. *)
Fixpoint read_chunks (fuel : nat) (buffer : nat) (s : pystr) : list pystr :=
  match fuel with
  | O => []
  | S fuel' =>
      match s with
      | [] => []
      | _ :: _ => take buffer s :: read_chunks fuel' buffer (drop buffer s)
      end
  end.

(** [x.count('\n')] *)
Definition count_newlines (x : pystr) : N :=
  N.of_nat (length (filter (fun c => c = Csv.LF) x)).

Definition buffer : nat := Nat.pow 2 16.

Definition _get_record_count (file_name : pystr) : SE world N :=
  let* raw := open file_name in
  let f := universal_newlines raw in
  ret (fold_right N.add 0 (map count_newlines (read_chunks (length f) buffer f))).

(** *** [CSV2Redis.store_csv] *)

(** [round(x, -2)] on a non-negative [int]: the nearest multiple of 100,
    ties to the even one. *)
Definition round_hundreds (x : N) : N :=
  let q := x / 100 in
  let r := x mod 100 in
  if r <? 50 then 100 * q
  else if 50 <? r then 100 * (q + 1)
  else if N.even q then 100 * q else 100 * (q + 1).

(** [a % b] *)
Definition py_mod (a b : N) : result N :=
  if b =? 0 then Raise ZeroDivisionError else Ok (a mod b).

(** [l[0]] *)
Definition first_item (l : option (list pystr)) : result pystr :=
  match l with
  | None => Raise TypeError
  | Some [] => Raise IndexError
  | Some (x :: _) => Ok x
  end.

(** [row[key]] *)
Definition getitem (row : pydict) (key : pystr) : result pyval :=
  match dict_get (KStr key) row with
  | Some v => Ok v
  | None => Raise KeyError
  end.

(** The local variable [reader] (unbound until assigned) next to the
    world. *)
Definition frame : Type := option DictReader.t * world.

Definition on_world {A} (m : SE world A) : SE frame A :=
  fun '(r, w) => let '(a, w') := m w in (a, (r, w')).

Definition on_reader {A} (m : SE DictReader.t A) : SE frame A :=
  fun '(r, w) =>
    match r with
    | None => (Raise UnboundLocalError, (r, w))
    | Some r => let '(a, r') := m r in (a, (Some r', w))
    end.

Definition assign_reader (r : DictReader.t) : SE frame unit :=
  modify (fun '(_, w) => (Some r, w)).

(** The body of [for row in reader]. *)
Definition process_row (n_records check_count : N) (row : pydict) : SE frame unit :=
  let* fns := on_reader DictReader.fieldnames in
  let* key := lift_result (first_item fns) in
  let* line_num := on_reader (gets DictReader.line_num) in
  let* m := lift_result (py_mod line_num check_count) in
  let* _ := if m =? 0 then
              let* v := lift_result (getitem row key) in
              let* msg := lift_result
                            (str_format Progress
                               [AVal v; AInt line_num; AInt n_records; AProcessTime]) in
              on_world (logger_debug msg)
            else ret tt in
  let* json_ordered_dict := lift_result (Utf8.encode (Json.dumps row)) in
  let compressed_row := lzma_compress env json_ordered_dict in
  let* name := lift_result (getitem row key) in
  on_world (redis_rpush name compressed_row).

(** [for row in reader: body]; every turn takes at least one item from the
    reader, and [fuel] is an upper bound on the turns. *)
Fixpoint for_rows (fuel : nat) (body : pydict -> SE frame unit) : SE frame unit :=
  match fuel with
  | O => ret tt
  | S fuel' =>
      let* row := on_reader DictReader.__next__ in
      match row with
      | None => ret tt
      | Some d => let* _ := body d in for_rows fuel' body
      end
  end.

(** The [try] block, and the handler of [except Exception as e]. *)
Definition store_rows (csv_file : pystr) (f : pystr) : SE frame unit :=
  let* n_records := on_world (_get_record_count csv_file) in
  let* msg := lift_result (str_format ProcessingRecords [AInt n_records]) in
  let* _ := on_world (logger_debug msg) in
  let reader := DictReader.__init__ f in
  let* _ := assign_reader reader in
  let check_count := round_hundreds (n_records / 20) in
  for_rows (S (length (DictReader.reader reader))) (process_row n_records check_count).

Definition store_error (e : exn) : SE frame unit :=
  let* line_num := on_reader (gets DictReader.line_num) in
  let* msg := lift_result (str_format StoreError [AInt line_num; AExn e]) in
  on_world (logger_error msg).

(** Runs a block that has local variables and drops them at the end. *)
Definition with_locals {A} (m : SE frame A) : SE world A :=
  fun w => let '(a, (_, w')) := m (None, w) in (a, w').

Definition store_csv (csv_file : pystr) : SE world unit :=
  let* _ := redis_flushdb in
  let* f := open csv_file in
  let* _ := with_locals
              (try_except (store_rows csv_file f) is_Exception store_error) in
  redis_bgsave.

(** *** [CSV2Redis.get_records] *)

(** [OrderedDict(json.loads(lzma.decompress(r)))] *)
Definition decode_row (r : bytes) : result pydict :=
  let+ data := lzma_decompress env r in json_loads_bytes data.

Fixpoint decode_rows (compressed_rows : list bytes) : result (list pydict) :=
  match compressed_rows with
  | [] => Ok []
  | r :: rest =>
      let+ d := decode_row r in
      let+ ds := decode_rows rest in
      Ok (d :: ds)
  end.

Definition get_records (key : pystr) : SE world (list pydict) :=
  let* compressed_rows := redis_lrange key 0 (-1) in
  lift_result (decode_rows compressed_rows).

(** *** [main] *)

Inductive action := Store | Get.

Fixpoint print_all (records : list pydict) : SE world unit :=
  match records with
  | [] => ret tt
  | r :: rest => let* _ := print (PrintRecord r) in print_all rest
  end.

Definition main (a : action) (input : pystr) : SE world unit :=
  let* _ := logger_debug Arguments_ in
  let* _ := __init__ in
  match a with
  | Store => store_csv input
  | Get =>
      let* records := get_records input in
      let* _ := print_all records in
      print (PrintCount (length records))
  end.

(** The exit status of the process. *)
Definition exit_status {A} (r : result A) : Z :=
  match r with
  | Ok _ => 0
  | Raise (SystemExit code) => code
  | Raise _ => 1
  end.

End Engine.

(** * Vocabulary of the properties *)

(** ** The record codec *)

(** Text in the sense of Unicode: code points up to U+10FFFF that are not
    surrogates.  This is what decoding a file gives, and what a [str] must
    be made of to be encoded as UTF-8. *)
Definition is_scalar (c : codepoint) : bool :=
  (c <? 0x110000) && negb (Utf8.is_surrogate c).

Definition valid_text (s : pystr) : bool := forallb is_scalar s.

(** A [str] that [json.loads] reads back as [json.dumps] got it: code
    points up to U+10FFFF, and no high surrogate immediately followed by a low
    surrogate (the two escapes would be read as one character).  Valid text is
    of that kind. *)
Fixpoint stable_text (s : pystr) : bool :=
  match s with
  | [] => true
  | c :: s' =>
      (c <? 0x110000)
      && match s' with
         | c' :: _ => negb (Json.is_high_surrogate c && Json.is_low_surrogate c')
         | [] => true
         end
      && stable_text s'
  end.

(** A record as the codec claim has it: every key is a field name, every
    value a string, and no key occurs twice (it is a [dict]). *)
Definition is_text_item (kv : pykey * pyval) : bool :=
  match kv with
  | (KStr k, PStr v) => stable_text k && stable_text v
  | _ => false
  end.

Definition is_text_record (r : pydict) : bool :=
  forallb is_text_item r && bool_decide (NoDup (map fst r)).

(** A record of valid text: every key is a field name and every value a
    string, both of valid text, and no key occurs twice. *)
Definition is_valid_item (kv : pykey * pyval) : bool :=
  match kv with
  | (KStr k, PStr v) => valid_text k && valid_text v
  | _ => false
  end.

Definition is_valid_record (r : pydict) : bool :=
  forallb is_valid_item r && bool_decide (NoDup (map fst r)).

(** ASCII text, or bytes below 0x80. *)
Definition is_ascii (s : list N) : Prop := Forall (fun c => c < 0x80) s.

Ltac divmod_lia := zify; Z.to_euclidean_division_equations; lia.

Ltac bool_hyps :=
  repeat match goal with
    | H : _ && _ = true |- _ => apply andb_true_iff in H; destruct H
    | H : negb _ = true |- _ => apply negb_true_iff in H
    | H : (_ <=? _) = true |- _ => apply N.leb_le in H
    | H : (_ <=? _) = false |- _ => apply N.leb_gt in H
    | H : (_ <? _) = true |- _ => apply N.ltb_lt in H
    | H : (_ <? _) = false |- _ => apply N.ltb_ge in H
    | H : (_ =? _) = true |- _ => apply N.eqb_eq in H
    | H : (_ =? _) = false |- _ => apply N.eqb_neq in H
    end.


(** ** The rows of a source and what a run stores *)

(** The reader between two rows: the header is known and [line_num] is
    that of the underlying reader. *)
Definition at_row (fns : list pystr) (ln : N) (rest : list Csv.item) : DictReader.t :=
  {| DictReader.reader := rest; DictReader.reader_line_num := ln;
     DictReader._fieldnames := Some fns; DictReader.line_num := ln |}.

(** What [next(self.reader)] followed by the skipping of blank rows finds
    in the items a reader still holds. *)
Inductive scan :=
| NStop
| NFail
| NRow (row : list pystr) (line_num : N) (rest : list Csv.item).

Fixpoint next_nonblank (items : list Csv.item) : scan :=
  match items with
  | [] => NStop
  | Csv.Error _ :: _ => NFail
  | Csv.Row [] _ :: rest => next_nonblank rest
  | Csv.Row row ln :: rest => NRow row ln rest
  end.

(** The rows a [DictReader] with field names [fns] yields from [items],
    each with [line_num] at that point, up to the end of the input or to
    the first error of the underlying reader. *)
Fixpoint yields (fns : list pystr) (items : list Csv.item) : list (N * pydict) :=
  match items with
  | [] => []
  | Csv.Error _ :: _ => []
  | Csv.Row [] _ :: rest => yields fns rest
  | Csv.Row row ln :: rest => (ln, DictReader.make_row fns row) :: yields fns rest
  end.

(** The header of a source (its first record) and its data rows. *)
Definition header (f : pystr) : list pystr :=
  match Csv.reader f with
  | Csv.Row h _ :: _ => h
  | _ => []
  end.

Definition rows (f : pystr) : list (N * pydict) :=
  match Csv.reader f with
  | Csv.Row h _ :: rest => yields h rest
  | _ => []
  end.

(** The number [_get_record_count] returns for a file with text [f], and
    the [check_count] that [store_csv] derives from it. *)
Definition record_count (f : pystr) : N :=
  let t := universal_newlines f in
  fold_right N.add 0 (map count_newlines (read_chunks (length t) buffer t)).

Definition check_count (f : pystr) : N := round_hundreds (record_count f / 20).

(** The list a row is appended to and the blob appended: the value of the
    first column and the encoded row. *)
Definition entry (env : Env) (fns : list pystr) (row : pydict) : result (pystr * bytes) :=
  let+ key := first_item (Some fns) in
  let+ blob := encode_row env row in
  let+ name := getitem row key in
  let+ k := encode_name name in
  Ok (k, blob).

(** [RPUSH] on the database. *)
Definition push (d : gmap pystr (list bytes)) (kb : pystr * bytes)
  : gmap pystr (list bytes) :=
  <[fst kb := default [] (d !! fst kb) ++ [snd kb]]> d.

(** The entries of the rows processed without error: the rows from the
    first on, as long as [check_count] is not zero, the row has an entry and
    the [RPUSH] (command number [idx] of the connection) gets through. *)
Fixpoint accepted (env : Env) (fns : list pystr) (cc : N) (idx : nat)
    (ys : list (N * pydict)) : list (pystr * bytes) :=
  match ys with
  | [] => []
  | (_, row) :: rest =>
      match entry env fns row with
      | Ok kb =>
          if (cc =? 0) || faulty env idx then []
          else kb :: accepted env fns cc (S idx) rest
      | Raise _ => []
      end
  end.

Definition is_rpush (c : command) : Prop := exists k b, c = RPUSH k b.

Definition rpush_of (kb : pystr * bytes) : command := RPUSH (fst kb) (snd kb).

Definition is_bgsave (c : command) : bool :=
  match c with BGSAVE => true | _ => false end.

(** A world with another database. *)
Definition with_db (d : gmap pystr (list bytes)) (w : world) : world :=
  {| db := d; bgsaves := bgsaves w; history := history w; opened := opened w;
     log := log w; stdout := stdout w |}.

Definition empty_world : world :=
  {| db := ∅; bgsaves := 0; history := []; opened := []; log := []; stdout := [] |}.

(** A stand-in for the [lzma] module in the examples: the payload behind
    the six magic bytes of an XZ stream. *)
Definition xz_magic : bytes := [0xFD; 0x37; 0x7A; 0x58; 0x5A; 0x00].

Definition stored_compress (data : bytes) : bytes := xz_magic ++ data.

Definition stored_decompress (blob : bytes) : result bytes :=
  if decide (take 6 blob = xz_magic) then Ok (drop 6 blob) else Raise LZMAError.

(** A row is processed without error when [check_count] is not zero, the
    row has an entry and the [RPUSH], command number [idx] of the
    connection, gets through. *)
Definition row_ok (env : Env) (fns : list pystr) (cc : N) (idx : nat)
    (row : pydict) : bool :=
  match entry env fns row with
  | Ok _ => negb ((cc =? 0) || faulty env idx)
  | Raise _ => false
  end.

Fixpoint all_ok (env : Env) (fns : list pystr) (cc : N) (idx : nat)
    (ys : list (N * pydict)) : bool :=
  match ys with
  | [] => true
  | (_, row) :: rest => row_ok env fns cc idx row && all_ok env fns cc (S idx) rest
  end.

(** The entries of the rows that have one. *)
Definition entries (env : Env) (fns : list pystr) (ys : list (N * pydict))
  : list (pystr * bytes) :=
  omap (fun y => match entry env fns (snd y) with
                 | Ok kb => Some kb
                 | Raise _ => None
                 end) ys.

(** The blobs appended under [k], in order. *)
Definition group (k : pystr) (l : list (pystr * bytes)) : list bytes :=
  map snd (filter (fun kb => fst kb = k) l).

(** The rows with [k] in the first column, in order. *)
Definition rows_with_key (fns : list pystr) (k : pystr) (ys : list (N * pydict))
  : list pydict :=
  map snd (filter (fun y => (let+ key := first_item (Some fns) in getitem (snd y) key)
                            = Ok (PStr k)) ys).

(** ** Examples *)

(** An environment made of a list of files and the positions of the
    commands that fail. *)
Definition example_env (files : list (pystr * pystr)) (faults : list nat)
    (verbose : bool) : Env :=
  {| fs := fun path => snd <$> find (fun pf => bool_decide (fst pf = path)) files;
     faulty := fun n => bool_decide (n ∈ faults);
     verbose := verbose;
     lzma_compress := stored_compress;
     lzma_decompress := stored_decompress |}.

(** The source of the query scenario. *)
Definition scenario_text : pystr := py "id,name,amount
1,alice,10
1,bob,20
2,carl,5
".

Definition scenario_env : Env :=
  example_env [(py "scenario.csv", scenario_text)] [] true.

(** A source of 1021 lines: the header, a row with one value too few, 1018
    rows with the key [k] and a row with one value too many. *)
Definition long_text : pystr :=
  py "id,name
z
" ++ concat (replicate 1018 (py "k,v
")) ++ py "y,1,2
".

Definition long_env (faults : list nat) : Env :=
  example_env [(py "long.csv", long_text)] faults true.

(** A source of 1021 lines whose rows all have two values: 1018 rows
    with the key [k], one with the key [q], and one more with the key [k]. *)
Definition regular_text : pystr :=
  py "id,name
" ++ concat (replicate 1018 (py "k,v
")) ++ py "q,w
k,last
".

Definition regular_env : Env :=
  example_env [(py "regular.csv", regular_text)] [] false.

(** An environment in which no command gets through. *)
Definition dead_env : Env :=
  {| fs := fs scenario_env; faulty := fun _ => true; verbose := false;
     lzma_compress := stored_compress; lzma_decompress := stored_decompress |}.

(** A world whose namespace holds a list under the key [old]. *)
Definition stale_world : world :=
  with_db {[ py "old" := [[1; 2; 3]] ]} empty_world.

(** A record with an empty value, delimiters, a quote, a backslash, a
    line feed, a control character and characters outside ASCII, one of them
    outside the basic plane. *)
Definition sample_record : pydict :=
  [(KStr (py "id"), PStr (py "1"));
   (KStr (py "name"), PStr []);
   (KStr [0x6e; 0xf6; 0x74; 0x65], PStr (py "a,b;c	d" ++ [0x22; 0x5c; 0x0a; 0x01; 0xe9; 0x20ac; 0x1F600]))].

(** A record whose value is a high surrogate followed by a low one. *)
Definition surrogate_record : pydict := [(KStr (py "a"), PStr [0xD83D; 0xDE00])].

(** ** Runs that complete *)

(** The underlying reader meets no error. *)
Definition reader_ok (items : list Csv.item) : bool :=
  forallb (fun i => match i with Csv.Row _ _ => true | Csv.Error _ => false end) items.

(** The progress line of a row, if it has one: [--verbose] is set and the
    line number is a multiple of [check_count]. *)
Definition progress_line (env : Env) (n cc ln : N) (v : pyval)
  : list (level * message) :=
  if verbose env && (ln mod cc =? 0)
  then [(DEBUG, Formatted Progress [AVal v; AInt ln; AInt n; AProcessTime])]
  else [].

Definition progress_lines (env : Env) (n cc : N) (fns : list pystr)
    (ys : list (N * pydict)) : list (level * message) :=
  flat_map (fun y => match entry env fns (snd y) with
                     | Ok kb => progress_line env n cc (fst y) (PStr (fst kb))
                     | Raise _ => []
                     end) ys.

(** The line that announces the total. *)
Definition processing_line (env : Env) (n : N) : list (level * message) :=
  if verbose env then [(DEBUG, Formatted ProcessingRecords [AInt n])] else [].

(** ** Regular sources *)

(** A record of the source with as many values as the header has names,
    all of them valid text; blank lines are regular too (they are skipped). *)
Definition regular_item (h : list pystr) (i : Csv.item) : bool :=
  match i with
  | Csv.Row [] _ => true
  | Csv.Row fields _ => (length fields =? length h)%nat && forallb valid_text fields
  | Csv.Error _ => false
  end.

(** A source with a header of distinct names of valid text, followed by
    regular records only. *)
Definition regular_source (f : pystr) : bool :=
  match Csv.reader f with
  | Csv.Row h _ :: rest =>
      bool_decide (NoDup h) && forallb valid_text h && forallb (regular_item h) rest
  | _ => false
  end.

(** The row of a regular record: each name with its value. *)
Definition zip_row (h fields : list pystr) : pydict :=
  zip_with (fun name v => (KStr name, PStr v)) h fields.

(** The value of the first column of a row, as a progress line shows it. *)
Definition key_value (fns : list pystr) (row : pydict) : pyval :=
  default PNone (dict_get (KStr (hd [] fns)) row).

(** The progress line of a row. *)
Definition progress_message (n : N) (fns : list pystr) (y : N * pydict)
  : level * message :=
  (DEBUG,
   Formatted Progress [AVal (key_value fns (snd y)); AInt (fst y); AInt n; AProcessTime]).

(** A row made of as many values as the header has names, all of them
    valid text. *)
Definition regular_row (h : list pystr) (y : N * pydict) : Prop :=
  exists fields, fields <> [] /\ length fields = length h
                 /\ forallb valid_text fields = true /\ snd y = zip_row h fields.

(** ** [main] *)

(** The world once [main] has logged its arguments and built its
    [CSV2Redis]: [INFO] was sent, and with [--verbose] two lines were
    logged. *)
Definition connected (env : Env) (w : world) : world :=
  {| db := db w; bgsaves := bgsaves w;
     history := history w ++ [INFO (py "server")];
     opened := opened w;
     log := log w ++ (if verbose env
                      then [(DEBUG, Arguments_); (DEBUG, ServerInfo)] else []);
     stdout := stdout w |}.

(** ** Plain sources *)

(** A character that is neither a line ending, nor the delimiter, nor the
    quote character. *)
Definition plain_char (c : codepoint) : bool :=
  negb ((c =? Csv.LF) || (c =? Csv.CR) || (c =? Csv.DELIMITER) || (c =? Csv.QUOTECHAR)).

(** A field that needs no quoting, and is within the field size limit. *)
Definition plain_field (s : pystr) : bool :=
  forallb plain_char s && (N.of_nat (length s) <=? Csv.field_limit).

(** The fields of a record separated by the delimiter. *)
Fixpoint join_fields (fields : list pystr) : pystr :=
  match fields with
  | [] => []
  | [f] => f
  | f :: rest => f ++ Csv.DELIMITER :: join_fields rest
  end.

(** A record as a line, and records as a text: one line for each, ended by
    a line feed. *)
Definition write_line (fields : list pystr) : pystr := join_fields fields ++ [Csv.LF].

Definition plain_text (records : list (list pystr)) : pystr :=
  concat (map write_line records).

(** What the reader makes of the line of a record: a line with nothing on
    it is read as an empty record. *)
Definition as_read (fields : list pystr) : list pystr :=
  match fields with
  | [[]] => []
  | _ => fields
  end.

(** The items of a reader over the lines of [records], the first of them
    being line [n + 1]. *)
Fixpoint numbered (n : N) (records : list (list pystr)) : list Csv.item :=
  match records with
  | [] => []
  | r :: rest => Csv.Row (as_read r) (n + 1) :: numbered (n + 1) rest
  end.

(** A record of plain fields of valid text, as many as the header has names,
    the first of which (the key) is not empty. *)
Definition keyed_record (h r : list pystr) : bool :=
  (length r =? length h)%nat && forallb plain_field r && forallb valid_text r
  && match r with (_ :: _) :: _ => true | _ => false end.

(** The entry of a record under the header [h]. *)
Definition record_entry (env : Env) (h r : list pystr) : pystr * bytes :=
  (hd [] r, lzma_compress env (Json.dumps (zip_row h r))).

(** ** Rows read back *)

(** The key of a member as [json.dumps] writes it: [None] is written as
    the string [null]. *)
Definition key_text (k : pykey) : pystr :=
  match k with
  | KStr s => s
  | KNone => py "null"
  end.

(** A row as [json.loads] gives it back: every key is a string. *)
Definition as_loaded (r : pydict) : pydict :=
  map (fun kv => (KStr (key_text (fst kv)), snd kv)) r.

Definition stable_value (v : pyval) : bool :=
  match v with
  | PStr s => stable_text s
  | PNone => true
  | PList l => forallb stable_text l
  end.

Definition is_row_item (kv : pykey * pyval) : bool :=
  stable_text (key_text (fst kv)) && stable_value (snd kv).

(** A row whose keys, as written, are distinct. *)
Definition is_row_record (r : pydict) : bool :=
  forallb is_row_item r && bool_decide (NoDup (map (fun kv => key_text (fst kv)) r)).

(** ** Any source *)

(** The fields of a record are valid text. *)
Definition item_valid (i : Csv.item) : bool :=
  match i with
  | Csv.Row fields _ => forallb valid_text fields
  | Csv.Error _ => true
  end.

(** A row made by the reader from a record of valid text. *)
Definition reader_row (h : list pystr) (y : N * pydict) : Prop :=
  exists fields, fields <> [] /\ forallb valid_text fields = true
                 /\ snd y = DictReader.make_row h fields.

(** The parser holds, and a record is made of, characters with the
    property [P] only. *)
Definition parser_ok (P : codepoint -> Prop) (p : Csv.parser) : Prop :=
  Forall P (Csv.field p) /\ Forall (Forall P) (Csv.fields p).

Definition item_ok (P : codepoint -> Prop) (i : Csv.item) : Prop :=
  match i with
  | Csv.Row fs _ => Forall (Forall P) fs
  | Csv.Error _ => True
  end.

(** A source that holds a header and a blank line, and nothing else. *)
Definition header_only_text : pystr := py "id,name

".

Definition header_only_env : Env :=
  example_env [(py "header.csv", header_only_text)] [] true.

(** ** Texts without quotes *)

(** The end of a line: nothing (at the end of the text), LF, CR, or CR
    LF. *)
Definition line_ending (e : pystr) : bool :=
  match e with
  | [] => true
  | [c] => Csv.is_nl c
  | [c; d] => (c =? Csv.CR) && (d =? Csv.LF)
  | _ => false
  end.

(** A line: characters that are no line endings, then the end of the
    line. *)
Definition line_shape (line : pystr) : Prop :=
  exists body ending,
    line = body ++ ending
    /\ Forall (fun c => Csv.is_nl c = false) body
    /\ line_ending ending = true.

(** The parser is outside quoted fields and has not met the end of the
    line. *)
Definition settled (p : Csv.parser) : bool :=
  match Csv.state p with
  | Csv.START_RECORD | Csv.START_FIELD | Csv.IN_FIELD => true
  | _ => false
  end.

(** ** A source with one mismatched row *)

(** A source of 1021 lines: the header, one record with one value for the
    two names of the header, and 1019 records with two values and the key
    [k]. *)
Definition one_short_text : pystr :=
  py "id,name
z
" ++ concat (replicate 1019 (py "k,v
")).

Definition one_short_env : Env :=
  example_env [(py "one_short.csv", one_short_text)] [] false.

(** A record whose number of values is not the number of names of the
    header [h]; blank lines are no records. *)
Definition is_mismatched (h : list pystr) (i : Csv.item) : bool :=
  match i with
  | Csv.Row [] _ => false
  | Csv.Row fields _ => negb (length fields =? length h)%nat
  | Csv.Error _ => false
  end.

(** The mismatched records of a source, the header apart. *)
Definition mismatched_records (f : pystr) : list Csv.item :=
  List.filter (is_mismatched (header f)) (tl (Csv.reader f)).

(** * Properties *)

(** ** The record codec *)
Section BitArithmetic.

Lemma lor_shiftl_add x y k : y < 2 ^ k -> N.lor (N.shiftl x k) y = x * 2 ^ k + y.
Proof.
  intros Hy.
  assert (Hd : N.land (N.shiftl x k) y = 0).
  { apply N.bits_inj_0. intros n. rewrite N.land_spec.
    destruct (N.lt_ge_cases n k) as [Hlt | Hge].
    - rewrite N.shiftl_spec_low by exact Hlt. reflexivity.
    - rewrite <- (N.mod_small y (2 ^ k)) by exact Hy.
      rewrite N.mod_pow2_bits_high by exact Hge. apply andb_false_r. }
  rewrite <- N.lxor_lor by exact Hd.
  rewrite <- N.add_nocarry_lxor by exact Hd.
  rewrite N.shiftl_mul_pow2. reflexivity.
Qed.

Lemma land_low x k : N.land x (N.ones k) = x mod 2 ^ k.
Proof. apply N.land_ones. Qed.

Lemma nibble_lt x : N.land x 0xf < 16.
Proof. change 0xf with (N.ones 4). rewrite N.land_ones. apply N.mod_lt. discriminate. Qed.

End BitArithmetic.

Module JsonFacts.
Import Json.

Lemma hexval_hexdigit d : d < 16 -> hexval (hexdigit d) = Some d.
Proof.
  intros Hd. unfold hexval, hexdigit.
  destruct (N.ltb_spec d 10).
  - replace ((0x30 <=? 0x30 + d) && (0x30 + d <=? 0x39)) with true
      by (symmetry; apply andb_true_iff; split; apply N.leb_le; lia).
    f_equal. lia.
  - replace ((0x30 <=? 0x57 + d) && (0x57 + d <=? 0x39)) with false
      by (symmetry; apply andb_false_iff; right; apply N.leb_gt; lia).
    replace ((0x61 <=? 0x57 + d) && (0x57 + d <=? 0x66)) with true
      by (symmetry; apply andb_true_iff; split; apply N.leb_le; lia).
    f_equal. lia.
Qed.

Lemma hexdigit_ascii d : d < 16 -> hexdigit d < 0x80.
Proof. intros Hd. unfold hexdigit. destruct (d <? 10); lia. Qed.

(** The four digits [u_escape] writes are read back as the number. *)
Lemma decode_u_escape u rest :
  u < 0x10000 ->
  decode_uXXXX (hexdigit (N.land (N.shiftr u 12) 0xf)
                :: hexdigit (N.land (N.shiftr u 8) 0xf)
                :: hexdigit (N.land (N.shiftr u 4) 0xf)
                :: hexdigit (N.land u 0xf) :: rest) = Some (u, rest).
Proof.
  intros Hu. unfold decode_uXXXX.
  rewrite !hexval_hexdigit by apply nibble_lt.
  f_equal. f_equal.
  rewrite !(lor_shiftl_add _ _ 4) by apply nibble_lt.
  change 0xf with (N.ones 4). rewrite !N.land_ones, !N.shiftr_div_pow2.
  change (2 ^ 4) with 16. change (2 ^ 8) with 256. change (2 ^ 12) with 4096.
  divmod_lia.
Qed.

Lemma high_surrogate_spec c :
  0x10000 <= c -> c < 0x110000 ->
  high_surrogate c < 0x10000 /\ is_high_surrogate (high_surrogate c) = true.
Proof.
  intros Hlo Hhi. unfold high_surrogate, is_high_surrogate.
  change (N.shiftr 0x10000 10) with 64. rewrite N.shiftr_div_pow2.
  change (0xD800 - 64) with 55232. change (2 ^ 10) with 1024.
  split; [| apply andb_true_iff; split; apply N.leb_le]; divmod_lia.
Qed.

Lemma low_surrogate_spec c :
  low_surrogate c < 0x10000 /\ is_low_surrogate (low_surrogate c) = true.
Proof.
  unfold low_surrogate, is_low_surrogate.
  change 0x3FF with (N.ones 10). rewrite N.land_ones. change (2 ^ 10) with 1024.
  split; [| apply andb_true_iff; split; apply N.leb_le]; divmod_lia.
Qed.

Lemma join_surrogates_spec c :
  0x10000 <= c -> c < 0x110000 ->
  join_surrogates (high_surrogate c) (low_surrogate c) = c.
Proof.
  intros Hlo Hhi. unfold join_surrogates, high_surrogate, low_surrogate.
  assert (H10 : forall x, N.land x 0x3FF < 2 ^ 10).
  { intros x. change 0x3FF with (N.ones 10). rewrite N.land_ones.
    apply N.mod_lt. discriminate. }
  rewrite lor_shiftl_add by apply H10.
  change (N.shiftr 0x10000 10) with 64.
  change 0x3FF with (N.ones 10). rewrite !N.land_ones, !N.shiftr_div_pow2.
  change (0xD800 - 64) with 55232. change (2 ^ 10) with 1024.
  divmod_lia.
Qed.

Lemma scan_u s fuel acc :
  scanstring_from (S fuel) (BACKSLASH :: LOWER_U :: s) acc =
  match decode_uXXXX s with
  | None => Raise JSONDecodeError
  | Some (u, rest2) =>
      if is_high_surrogate u then
        match rest2 with
        | b :: l :: rest3 =>
            if (b =? BACKSLASH) && (l =? LOWER_U) then
              match decode_uXXXX rest3 with
              | None => Raise JSONDecodeError
              | Some (u2, rest4) =>
                  if is_low_surrogate u2
                  then scanstring_from fuel rest4 (join_surrogates u u2 :: acc)
                  else scanstring_from fuel rest2 (u :: acc)
              end
            else scanstring_from fuel rest2 (u :: acc)
        | _ => scanstring_from fuel rest2 (u :: acc)
        end
      else scanstring_from fuel rest2 (u :: acc)
  end.
Proof. reflexivity. Qed.

(** What the scanner finds after a high surrogate written as an escape:
    either no escape, or an escape that is not a low surrogate, in which case
    it keeps the two apart. *)
Definition keeps_apart (rest : pystr) : Prop :=
  match rest with
  | b :: l :: rest3 =>
      if (b =? BACKSLASH) && (l =? LOWER_U)
      then exists u2 rest4,
             decode_uXXXX rest3 = Some (u2, rest4) /\ is_low_surrogate u2 = false
      else True
  | _ => True
  end.

Lemma keeps_apart_quote tail : keeps_apart (QUOTE :: tail).
Proof. destruct tail; exact I. Qed.

Lemma keeps_apart_escape c tail :
  c < 0x110000 -> is_low_surrogate c = false -> keeps_apart (escape_char c ++ tail).
Proof.
  intros Hmax Hlow. unfold escape_char. destruct (S_CHAR c) eqn:HS.
  - unfold S_CHAR in HS. bool_hyps. cbn [app]. destruct tail as [| l tail]; [exact I |].
    unfold keeps_apart. rewrite (proj2 (N.eqb_neq c BACKSLASH)) by assumption. exact I.
  - unfold ascii_escape_unichar.
    repeat match goal with
      | |- context [if ?c =? ?k then _ else _] =>
          destruct (N.eqb_spec c k); [exact I |]
      end.
    destruct (N.leb_spec 0x10000 c) as [Hbig | Hsmall].
    + destruct (high_surrogate_spec c Hbig Hmax) as [Hh1 Hh2].
      unfold u_escape. cbn [app keeps_apart]. rewrite !N.eqb_refl. cbn [andb].
      rewrite decode_u_escape by exact Hh1. do 2 eexists. split; [reflexivity |].
      unfold is_high_surrogate in Hh2. unfold is_low_surrogate. bool_hyps.
      apply andb_false_iff. left. apply N.leb_gt. lia.
    + unfold u_escape. cbn [app keeps_apart]. rewrite !N.eqb_refl. cbn [andb].
      rewrite decode_u_escape by exact Hsmall. eauto.
Qed.

(** One character: what [escape_char] writes, the scanner reads back as
    that character. *)
Lemma scan_escape_char c fuel rest acc :
  c < 0x110000 ->
  (is_high_surrogate c = true -> keeps_apart rest) ->
  scanstring_from (S fuel) (escape_char c ++ rest) acc
  = scanstring_from fuel rest (c :: acc).
Proof.
  intros Hmax Hnext.
  unfold escape_char. destruct (S_CHAR c) eqn:HS.
  - unfold S_CHAR in HS. bool_hyps.
    cbn [app scanstring_from].
    rewrite (proj2 (N.eqb_neq c QUOTE)), (proj2 (N.eqb_neq c BACKSLASH)) by assumption.
    rewrite (proj2 (N.leb_gt c 0x1f)) by lia. reflexivity.
  - unfold ascii_escape_unichar.
    repeat match goal with
      | |- context [if ?c =? ?k then _ else _] =>
          destruct (N.eqb_spec c k); [subst; reflexivity |]
      end.
    destruct (N.leb_spec 0x10000 c) as [Hbig | Hsmall].
    + destruct (high_surrogate_spec c Hbig Hmax) as [Hh1 Hh2].
      destruct (low_surrogate_spec c) as [Hl1 Hl2].
      unfold u_escape. cbn [app]. rewrite scan_u, decode_u_escape by exact Hh1.
      rewrite Hh2. rewrite !N.eqb_refl. cbn [andb].
      rewrite decode_u_escape by exact Hl1. rewrite Hl2.
      rewrite join_surrogates_spec by assumption. reflexivity.
    + unfold u_escape. cbn [app]. rewrite scan_u, decode_u_escape by exact Hsmall.
      destruct (is_high_surrogate c) eqn:Hhigh; [| reflexivity].
      specialize (Hnext eq_refl). unfold keeps_apart in Hnext.
      destruct rest as [| b [| l rest3]]; try reflexivity.
      destruct ((b =? BACKSLASH) && (l =? LOWER_U)); [| reflexivity].
      destruct Hnext as (u2 & rest4 & -> & ->). reflexivity.
Qed.

Lemma escape_char_length c : (1 <= length (escape_char c))%nat.
Proof.
  unfold escape_char, ascii_escape_unichar, u_escape.
  repeat match goal with
    | |- context [if ?b then _ else _] => destruct b
    end; cbn; lia.
Qed.

Lemma escape_chars_length s : (length s <= length (escape_chars s))%nat.
Proof.
  induction s as [| c s IH]; cbn [escape_chars length]; [lia |].
  rewrite length_app. pose proof (escape_char_length c). lia.
Qed.

Lemma stable_text_cons c s :
  stable_text (c :: s) = true ->
  c < 0x110000
  /\ (is_high_surrogate c = true ->
      match s with c' :: _ => c' < 0x110000 /\ is_low_surrogate c' = false | [] => True end)
  /\ stable_text s = true.
Proof.
  cbn [stable_text]. intros H. apply andb_true_iff in H as [H Hs].
  apply andb_true_iff in H as [Hc Hpair]. apply N.ltb_lt in Hc.
  split; [exact Hc |]. split; [| exact Hs].
  intros Hhigh. destruct s as [| c' s']; [exact I |].
  rewrite Hhigh in Hpair. cbn [andb] in Hpair. apply negb_true_iff in Hpair.
  split; [| exact Hpair].
  cbn [stable_text] in Hs. apply andb_true_iff in Hs as [Hs _].
  apply andb_true_iff in Hs as [Hs _]. apply N.ltb_lt in Hs. exact Hs.
Qed.

Lemma scan_escape_chars s : forall fuel rest acc,
  stable_text s = true -> (length s < fuel)%nat ->
  scanstring_from fuel (escape_chars s ++ QUOTE :: rest) acc = Ok (rev acc ++ s, rest).
Proof.
  induction s as [| c s IH]; intros fuel rest acc Hv Hf.
  - destruct fuel; [cbn in Hf; lia |]. cbn. rewrite app_nil_r. reflexivity.
  - apply stable_text_cons in Hv as (Hc & Hnext & Hs).
    destruct fuel; [cbn in Hf; lia |].
    cbn [escape_chars]. rewrite <- app_assoc.
    rewrite scan_escape_char.
    + rewrite IH; [| exact Hs | cbn in Hf; lia].
      cbn [rev]. rewrite <- app_assoc. reflexivity.
    + exact Hc.
    + intros Hhigh. specialize (Hnext Hhigh). destruct s as [| c' s'].
      * apply keeps_apart_quote.
      * cbn [escape_chars]. rewrite <- app_assoc.
        apply keeps_apart_escape; apply Hnext.
Qed.

(** [scanstring] inverts [encode_basestring_ascii]. *)
Lemma scanstring_encoded s rest :
  stable_text s = true ->
  scanstring (escape_chars s ++ QUOTE :: rest) = Ok (s, rest).
Proof.
  intros Hv. unfold scanstring. rewrite scan_escape_chars; [reflexivity | exact Hv |].
  rewrite length_app. pose proof (escape_chars_length s). lia.
Qed.

(** Valid text is stable. *)
Lemma valid_text_stable s : valid_text s = true -> stable_text s = true.
Proof.
  induction s as [| c s IH]; [reflexivity |].
  cbn [valid_text forallb stable_text]. intros H. apply andb_true_iff in H as [Hc Hs].
  unfold is_scalar, Utf8.is_surrogate in Hc. apply andb_true_iff in Hc as [Hmax Hsur].
  rewrite Hmax, (IH Hs). cbn [andb]. rewrite andb_true_r.
  destruct s as [| c' s']; [reflexivity |].
  apply negb_true_iff. apply andb_false_iff. left.
  apply negb_true_iff in Hsur. unfold is_high_surrogate.
  apply andb_false_iff in Hsur as [H | H]; bool_hyps;
    apply andb_false_iff; [left | right]; apply N.leb_gt; lia.
Qed.

End JsonFacts.

Module CodecFacts.
Import Json JsonFacts.

(** *** Objects *)

Lemma dict_set_fresh k v d :
  k ∉ map fst d -> dict_set k v d = d ++ [(k, v)].
Proof.
  induction d as [| [k' v'] d IH]; intros Hk; [reflexivity |].
  cbn [dict_set map fst] in *. apply not_elem_of_cons in Hk as [Hne Hk].
  destruct (decide (k' = k)); [congruence |]. rewrite IH by exact Hk. reflexivity.
Qed.

Lemma fold_dict_set_fresh ps : forall d,
  NoDup (map fst d ++ map fst ps) ->
  fold_left (fun d kv => dict_set (fst kv) (snd kv) d) ps d = d ++ ps.
Proof.
  induction ps as [| [k v] ps IH]; intros d Hnd; cbn [fold_left].
  - rewrite app_nil_r. reflexivity.
  - cbn [map fst snd] in *.
    rewrite dict_set_fresh.
    + rewrite IH; [rewrite <- app_assoc; reflexivity |].
      rewrite map_app. cbn [map fst]. rewrite <- app_assoc. exact Hnd.
    + apply NoDup_app in Hnd as (_ & Hdis & _). intros Hin.
      apply (Hdis k Hin). left.
Qed.

(** [dict(pairs)] of pairs with distinct keys is the pairs, in order. *)
Lemma dict_of_pairs_NoDup ps : NoDup (map fst ps) -> dict_of_pairs ps = ps.
Proof. intros Hnd. unfold dict_of_pairs. rewrite fold_dict_set_fresh; auto. Qed.

Lemma dumps_item_text k v tail :
  dumps_item (KStr k, PStr v) ++ tail
  = QUOTE :: escape_chars k ++ QUOTE :: COLON :: SPACE
      :: QUOTE :: escape_chars v ++ QUOTE :: tail.
Proof.
  unfold dumps_item, dumps_key, dumps_val, encode_basestring_ascii. cbn [fst snd].
  cbn [app]. rewrite <- !app_assoc. cbn [app]. f_equal. f_equal.
  cbn [app]. f_equal. f_equal. f_equal. rewrite <- app_assoc. reflexivity.
Qed.

Lemma join_items_cons x rest tail :
  join_items (x :: rest) ++ tail
  = x ++ match rest with
         | [] => tail
         | _ :: _ => COMMA :: SPACE :: join_items rest ++ tail
         end.
Proof. destruct rest; cbn [join_items]; [reflexivity |]. rewrite <- app_assoc. reflexivity. Qed.

Lemma skip_ws_stop c s : is_ws c = false -> skip_ws (c :: s) = c :: s.
Proof. intros H. cbn [skip_ws]. rewrite H. reflexivity. Qed.

Lemma skip_ws_space c s : is_ws c = false -> skip_ws (SPACE :: c :: s) = c :: s.
Proof. intros H. cbn [skip_ws]. change (is_ws SPACE) with true. cbn iota. rewrite H. reflexivity. Qed.

(** One member followed by [tail]: the key, the colon, the value, and then
    whatever [tail] starts with. *)
Lemma parse_member k v fuel acc tail :
  stable_text k = true -> stable_text v = true ->
  parse_object_items (S fuel) (dumps_item (KStr k, PStr v) ++ tail) acc
  = match skip_ws tail with
    | e :: r4 =>
        if e =? RBRACE then Ok (rev ((KStr k, PStr v) :: acc), r4)
        else if e =? COMMA
             then parse_object_items fuel (skip_ws r4) ((KStr k, PStr v) :: acc)
             else Raise JSONDecodeError
    | [] => Raise JSONDecodeError
    end.
Proof.
  intros Hk Hv. rewrite dumps_item_text.
  change (parse_object_items (S fuel) (QUOTE :: ?r) acc)
    with (let+ (k, r1) := scanstring r in
          match skip_ws r1 with
          | d :: r2 =>
              if d =? COLON then
                let+ (v, r3) := parse_value (skip_ws r2) in
                match skip_ws r3 with
                | e :: r4 =>
                    if e =? RBRACE then Ok (rev ((KStr k, v) :: acc), r4)
                    else if e =? COMMA
                         then parse_object_items fuel (skip_ws r4) ((KStr k, v) :: acc)
                         else Raise JSONDecodeError
                | [] => Raise JSONDecodeError
                end
              else Raise JSONDecodeError
          | [] => Raise JSONDecodeError
          end).
  rewrite scanstring_encoded by exact Hk. cbv beta iota delta [rbind].
  rewrite (skip_ws_stop COLON) by reflexivity. cbv beta iota.
  rewrite N.eqb_refl. rewrite (skip_ws_space QUOTE) by reflexivity.
  change (parse_value (QUOTE :: ?r))
    with (let+ (v, r1) := scanstring r in Ok (PStr v, r1)).
  rewrite scanstring_encoded by exact Hv. reflexivity.
Qed.

Lemma dumps_items_start r tail :
  r <> [] -> forallb is_text_item r = true ->
  exists t, join_items (map dumps_item r) ++ tail = QUOTE :: t.
Proof.
  intros Hne Hv. destruct r as [| [k v] r]; [congruence |].
  cbn [forallb] in Hv. apply andb_true_iff in Hv as [Hkv _].
  destruct k as [k |]; [| discriminate]. destruct v as [v | |]; try discriminate.
  cbn [map]. rewrite join_items_cons, dumps_item_text. eauto.
Qed.

(** The members [dumps] writes for a record of text are read back in
    order. *)
Lemma parse_object_items_dumps r : forall fuel acc rest,
  r <> [] -> forallb is_text_item r = true -> (length r <= fuel)%nat ->
  parse_object_items fuel (join_items (map dumps_item r) ++ RBRACE :: rest) acc
  = Ok (rev acc ++ r, rest).
Proof.
  induction r as [| [k v] r IH]; intros fuel acc rest Hne Hv Hf; [congruence |].
  cbn [forallb] in Hv. apply andb_true_iff in Hv as [Hkv Hr].
  destruct k as [k |]; [| discriminate]. destruct v as [v | |]; try discriminate.
  cbn [is_text_item] in Hkv. apply andb_true_iff in Hkv as [Hk Hvv].
  destruct fuel as [| fuel]; [cbn in Hf; lia |].
  cbn [map]. rewrite join_items_cons, parse_member by assumption.
  destruct r as [| kv' r'].
  - cbn [map]. rewrite (skip_ws_stop RBRACE) by reflexivity. cbv beta iota.
    rewrite N.eqb_refl. reflexivity.
  - remember (kv' :: r') as r2 eqn:Hr2.
    assert (Hne2 : r2 <> []) by (subst r2; discriminate).
    destruct (dumps_items_start r2 (RBRACE :: rest) Hne2 Hr) as [t Ht].
    replace (match map dumps_item r2 with
             | [] => RBRACE :: rest
             | _ :: _ => COMMA :: SPACE :: join_items (map dumps_item r2) ++ RBRACE :: rest
             end)
      with (COMMA :: SPACE :: join_items (map dumps_item r2) ++ RBRACE :: rest)
      by (subst r2; reflexivity).
    rewrite (skip_ws_stop COMMA) by reflexivity. cbv beta iota.
    change (COMMA =? RBRACE) with false. cbv iota. rewrite N.eqb_refl.
    rewrite Ht. rewrite (skip_ws_space QUOTE) by reflexivity. rewrite <- Ht.
    rewrite IH; [| exact Hne2 | exact Hr | cbn in Hf; lia].
    cbn [rev]. rewrite <- app_assoc. reflexivity.
Qed.

Lemma dumps_item_length kv : (1 <= length (dumps_item kv))%nat.
Proof.
  destruct kv as [[k |] v]; unfold dumps_item, dumps_key, encode_basestring_ascii;
    cbn [fst]; cbn [app length]; lia.
Qed.

Lemma join_items_length l :
  (forall x, x ∈ l -> (1 <= length x)%nat) -> (length l <= length (join_items l))%nat.
Proof.
  induction l as [| x l IH]; intros Hl; [cbn; lia |].
  assert (Hx : (1 <= length x)%nat) by (apply Hl; left).
  assert (IH' : (length l <= length (join_items l))%nat).
  { apply IH. intros z Hz. apply Hl. right. exact Hz. }
  destruct l as [| y l]; [cbn [join_items length]; lia |].
  change (join_items (x :: y :: l)) with (x ++ [COMMA; SPACE] ++ join_items (y :: l)).
  rewrite !length_app. cbn [length] in *. lia.
Qed.

(** [json.loads(json.dumps(r))] is [r] for a record of text. *)
Lemma loads_dumps r : is_text_record r = true -> loads (dumps r) = Ok r.
Proof.
  intros Hr. unfold is_text_record in Hr. apply andb_true_iff in Hr as [Hv Hnd].
  apply bool_decide_eq_true in Hnd.
  destruct r as [| kv r]; [reflexivity |].
  unfold dumps, loads. rewrite (skip_ws_stop LBRACE) by reflexivity. cbv beta iota.
  rewrite N.eqb_refl.
  destruct (dumps_items_start (kv :: r) [RBRACE] ltac:(discriminate) Hv) as [t Ht].
  replace (skip_ws (join_items (map dumps_item (kv :: r)) ++ [RBRACE]))
    with (join_items (map dumps_item (kv :: r)) ++ [RBRACE])
    by (rewrite Ht; reflexivity).
  rewrite Ht at 1. cbv beta iota. change (QUOTE =? RBRACE) with false. cbv iota.
  rewrite parse_object_items_dumps; [| discriminate | exact Hv |].
  - cbn [rbind rev app skip_ws]. rewrite dict_of_pairs_NoDup by exact Hnd. reflexivity.
  - rewrite length_app.
    pose proof (join_items_length (map dumps_item (kv :: r))) as Hl.
    rewrite length_map in Hl.
    assert (length (kv :: r) <= length (join_items (map dumps_item (kv :: r))))%nat; [| lia].
    apply Hl. intros x Hx. apply list_elem_of_fmap in Hx as (kv' & -> & _).
    apply dumps_item_length.
Qed.

End CodecFacts.

Module BytesFacts.
Import Json JsonFacts CodecFacts.

Lemma is_ascii_app s t : is_ascii s -> is_ascii t -> is_ascii (s ++ t).
Proof. intros Hs Ht. apply Forall_app; split; assumption. Qed.

Lemma is_ascii_cons c s : c < 0x80 -> is_ascii s -> is_ascii (c :: s).
Proof. intros Hc Hs. constructor; assumption. Qed.

Lemma u_escape_ascii c : is_ascii (u_escape c).
Proof.
  unfold u_escape.
  repeat apply is_ascii_cons; try apply hexdigit_ascii; try apply nibble_lt;
    try (cbv; reflexivity).
  constructor.
Qed.

Lemma escape_char_ascii c : is_ascii (escape_char c).
Proof.
  unfold escape_char. destruct (S_CHAR c) eqn:HS.
  - unfold S_CHAR in HS. bool_hyps. apply is_ascii_cons; [lia | constructor].
  - unfold ascii_escape_unichar.
    repeat match goal with
      | |- context [if ?b then _ else _] => destruct b
      end;
      try (apply is_ascii_app); try apply u_escape_ascii;
      repeat (apply is_ascii_cons; [cbv; reflexivity |]); constructor.
Qed.

Lemma escape_chars_ascii s : is_ascii (escape_chars s).
Proof.
  induction s as [| c s IH]; [constructor |].
  cbn [escape_chars]. apply is_ascii_app; [apply escape_char_ascii | exact IH].
Qed.

Lemma encode_basestring_ascii_ascii s : is_ascii (encode_basestring_ascii s).
Proof.
  unfold encode_basestring_ascii.
  apply is_ascii_cons; [cbv; reflexivity |].
  apply is_ascii_app; [apply escape_chars_ascii |].
  apply is_ascii_cons; [cbv; reflexivity | constructor].
Qed.

Lemma join_items_ascii l : Forall is_ascii l -> is_ascii (join_items l).
Proof.
  induction 1 as [| x l Hx Hl IH]; [constructor |].
  destruct l as [| y l]; [exact Hx |].
  change (join_items (x :: y :: l)) with (x ++ [COMMA; SPACE] ++ join_items (y :: l)).
  apply is_ascii_app; [exact Hx |].
  apply is_ascii_app; [| exact IH].
  repeat (apply is_ascii_cons; [cbv; reflexivity |]); constructor.
Qed.

Lemma dumps_item_ascii kv : is_ascii (dumps_item kv).
Proof.
  destruct kv as [k v]. unfold dumps_item. cbn [fst snd].
  apply is_ascii_app; [destruct k; apply encode_basestring_ascii_ascii |].
  apply is_ascii_app; [repeat (apply is_ascii_cons; [cbv; reflexivity |]); constructor |].
  destruct v as [s | | l]; cbn [dumps_val].
  - apply encode_basestring_ascii_ascii.
  - repeat (apply is_ascii_cons; [cbv; reflexivity |]); constructor.
  - apply is_ascii_cons; [cbv; reflexivity |].
    apply is_ascii_app; [| apply is_ascii_cons; [cbv; reflexivity | constructor]].
    apply join_items_ascii. apply Forall_forall. intros x Hx.
    apply list_elem_of_fmap in Hx as (y & -> & _). apply encode_basestring_ascii_ascii.
Qed.

(** [ensure_ascii]: whatever the row holds, [json.dumps] writes ASCII. *)
Lemma dumps_ascii d : is_ascii (dumps d).
Proof.
  unfold dumps. apply is_ascii_cons; [cbv; reflexivity |].
  apply is_ascii_app; [| apply is_ascii_cons; [cbv; reflexivity | constructor]].
  apply join_items_ascii. apply Forall_forall. intros x Hx.
  apply list_elem_of_fmap in Hx as (y & -> & _). apply dumps_item_ascii.
Qed.

Lemma utf8_encode_ascii s : is_ascii s -> Utf8.encode s = Ok s.
Proof.
  induction 1 as [| c s Hc Hs IH]; [reflexivity |].
  cbn [Utf8.encode]. unfold Utf8.encode_char.
  rewrite (proj2 (N.ltb_lt c 0x80)) by exact Hc. rewrite IH. reflexivity.
Qed.

Lemma utf8_decode_ascii s : is_ascii s -> Utf8.decode s = Ok s.
Proof.
  induction 1 as [| c s Hc Hs IH]; [reflexivity |].
  cbn [Utf8.decode]. rewrite (proj2 (N.ltb_lt c 0x80)) by exact Hc.
  rewrite IH. reflexivity.
Qed.

(** A dumped row starts with a brace followed by a quote or the closing
    brace: no byte-order mark and no zero byte, hence UTF-8. *)
Lemma dumps_start d :
  dumps d = [LBRACE; RBRACE] \/ exists t, dumps d = LBRACE :: QUOTE :: t.
Proof.
  destruct d as [| [k v] d]; [left; reflexivity | right].
  unfold dumps. cbn [map]. rewrite join_items_cons.
  unfold dumps_item. cbn [fst snd].
  destruct k; cbn [dumps_key]; unfold encode_basestring_ascii; cbn [app]; eauto.
Qed.

Lemma detect_encoding_dumps d : detect_encoding (dumps d) = UTF8.
Proof.
  destruct (dumps_start d) as [-> | [t ->]]; [reflexivity |].
  destruct t as [| b2 [| b3 t]]; reflexivity.
Qed.

Lemma json_loads_bytes_dumps r :
  is_text_record r = true -> json_loads_bytes (dumps r) = Ok r.
Proof.
  intros Hr. unfold json_loads_bytes. rewrite detect_encoding_dumps.
  rewrite utf8_decode_ascii by apply dumps_ascii. cbn [rbind].
  apply loads_dumps. exact Hr.
Qed.

End BytesFacts.

(** The encoding of a row never fails: the JSON text is ASCII. *)
Lemma encode_row_total env row :
  encode_row env row = Ok (lzma_compress env (Json.dumps row)).
Proof.
  unfold encode_row. rewrite BytesFacts.utf8_encode_ascii by apply BytesFacts.dumps_ascii.
  reflexivity.
Qed.

(** The round trip for every record whose field names and values are
    strings in which no high surrogate is immediately followed by a low
    surrogate, and whose keys are distinct, for every [lzma] whose
    [decompress] inverts [compress]. *)
Lemma codec_round_trip_stable env r :
  (forall data, lzma_decompress env (lzma_compress env data) = Ok data) ->
  is_text_record r = true ->
  exists blob, encode_row env r = Ok blob /\ decode_row env blob = Ok r.
Proof.
  intros Hxz Hr. exists (lzma_compress env (Json.dumps r)). split.
  - apply encode_row_total.
  - unfold decode_row. rewrite Hxz. cbn [rbind].
    apply BytesFacts.json_loads_bytes_dumps. exact Hr.
Qed.

(** Outside valid text the condition on surrogates is needed: a high
    surrogate followed by a low surrogate, two code points, is written as two
    escapes, and the two escapes are read back as the one character they
    spell in UTF-16.  No such string is read from a file, which is decoded
    strictly. *)
Lemma surrogate_pair_round_trip_example :
  valid_text [0xD83D; 0xDE00] = false
  /\ Json.dumps surrogate_record = Json.dumps [(KStr (py "a"), PStr [0x1F600])]
  /\ decode_row scenario_env (stored_compress (Json.dumps surrogate_record))
     = Ok [(KStr (py "a"), PStr [0x1F600])].
Proof. repeat split; vm_compute; reflexivity. Qed.

Lemma valid_item_text kv : is_valid_item kv = true -> is_text_item kv = true.
Proof.
  destruct kv as [[k |] [v | |]]; try discriminate. cbn [is_valid_item is_text_item].
  intros H. apply andb_true_iff in H as [Hk Hv].
  rewrite (JsonFacts.valid_text_stable k Hk), (JsonFacts.valid_text_stable v Hv).
  reflexivity.
Qed.

Lemma valid_record_text r : is_valid_record r = true -> is_text_record r = true.
Proof.
  unfold is_valid_record, is_text_record. intros H.
  apply andb_true_iff in H as [Hitems Hnd]. rewrite Hnd, andb_true_r.
  apply forallb_forall. intros kv Hkv. apply valid_item_text.
  rewrite forallb_forall in Hitems. exact (Hitems kv Hkv).
Qed.

(** C1 (codec round trip).  For every record whose field names and values
    are strings of valid text, whatever they hold (empty strings,
    delimiters, quotes, control characters and non-ASCII characters
    included), and for every [lzma] whose [decompress] inverts [compress]:
    encoding the record as [store_csv] does (lines 72 to 77) succeeds, and
    decoding the blob as [get_records] does (line 91) gives a record equal to
    the original, fields in the same order. *)
Theorem codec_round_trip env r :
  (forall data, lzma_decompress env (lzma_compress env data) = Ok data) ->
  is_valid_record r = true ->
  exists blob, encode_row env r = Ok blob /\ decode_row env blob = Ok r.
Proof.
  intros Hxz Hr. apply valid_record_text in Hr.
  exists (lzma_compress env (Json.dumps r)).
  pose proof (encode_row_total env r) as Henc.
  pose proof (BytesFacts.json_loads_bytes_dumps r Hr) as Hdec.
  split; [exact Henc |].
  unfold decode_row. rewrite Hxz. cbn [rbind]. exact Hdec.
Qed.

Lemma codec_round_trip_witness :
  exists blob,
    encode_row scenario_env sample_record = Ok blob
    /\ decode_row scenario_env blob = Ok sample_record.
Proof.
  apply (codec_round_trip scenario_env sample_record).
  - intros data. reflexivity.
  - vm_compute. reflexivity.
Defined.

(** ** The row source *)

Module ReaderFacts.
Import DictReader.

Lemma fieldnames_at_row fns ln rest :
  fieldnames (at_row fns ln rest) = (Ok (Some fns), at_row fns ln rest).
Proof. reflexivity. Qed.

Lemma next_nonblank_shorter items row ln rest :
  next_nonblank items = NRow row ln rest -> (length rest < length items)%nat.
Proof.
  induction items as [| [fs l | l] items IH]; cbn [next_nonblank]; intros H;
    [discriminate | | discriminate].
  destruct fs as [| f fs].
  - apply IH in H. cbn [length]. lia.
  - injection H as _ _ <-. cbn [length]. lia.
Qed.

Lemma next_nonblank_yields fns items :
  yields fns items =
  match next_nonblank items with
  | NRow row ln rest => (ln, make_row fns row) :: yields fns rest
  | _ => []
  end.
Proof.
  induction items as [| [fs l | l] items IH]; cbn [next_nonblank yields];
    [reflexivity | | reflexivity].
  destruct fs as [| f fs]; [exact IH | reflexivity].
Qed.

Lemma next_nonblank_nonempty items row ln rest :
  next_nonblank items = NRow row ln rest -> row <> [].
Proof.
  induction items as [| [fs l | l] items IH]; cbn [next_nonblank]; intros H;
    [discriminate | | discriminate].
  destruct fs as [| f fs]; [exact (IH H) |]. injection H as <- _ _. discriminate.
Qed.

Lemma skip_blank_cons fuel f fs r :
  skip_blank fuel (f :: fs) r = (Ok (Some (f :: fs)), r).
Proof. destruct fuel; reflexivity. Qed.

(** The loop over blank rows, started on a blank row. *)
Lemma skip_blank_spec fuel : forall items ln0 fns ln1,
  (length items <= fuel)%nat ->
  let r := {| reader := items; reader_line_num := ln0;
              _fieldnames := fns; line_num := ln1 |} in
  match next_nonblank items with
  | NStop => exists r', skip_blank fuel [] r = (Ok None, r')
  | NFail => exists r', skip_blank fuel [] r = (Raise CsvError, r')
  | NRow row ln rest =>
      skip_blank fuel [] r
      = (Ok (Some row),
         {| reader := rest; reader_line_num := ln;
            _fieldnames := fns; line_num := ln1 |})
  end.
Proof.
  induction fuel as [| fuel IH]; intros items ln0 fns ln1 Hlen r.
  - destruct items; [| cbn in Hlen; lia]. cbn. eauto.
  - destruct items as [| [fs l | l] items]; subst r.
    + cbn. eauto.
    + cbn [next_nonblank]. destruct fs as [| f fs].
      * specialize (IH items l fns ln1 ltac:(cbn in Hlen; lia)). cbn in IH.
        destruct (next_nonblank items); exact IH.
      * cbn. rewrite skip_blank_cons. reflexivity.
    + cbn. eauto.
Qed.

(** [__next__] between two rows. *)
Lemma next_at_row fns ln0 items :
  match next_nonblank items with
  | NStop => exists r', __next__ (at_row fns ln0 items) = (Ok None, r')
  | NFail => exists r', __next__ (at_row fns ln0 items) = (Raise CsvError, r')
  | NRow row ln rest =>
      __next__ (at_row fns ln0 items) = (Ok (Some (make_row fns row)), at_row fns ln rest)
  end.
Proof.
  assert (Hgo : forall r0 : t,
    r0 = at_row fns ln0 items ->
    __next__ r0 =
      (let* first := next_reader in
       match first with
       | None => ret None
       | Some row0 =>
           let* _ := sync_line_num in
           let* pending := gets reader in
           let* next := skip_blank (length pending) row0 in
           match next with
           | None => ret None
           | Some row =>
               let* fns := fieldnames in
               match fns with
               | None => raise TypeError
               | Some fns => ret (Some (make_row fns row))
               end
           end
       end) r0).
  { intros r0 ->. unfold __next__ at 1. unfold bind at 1. cbn [gets line_num at_row].
    destruct (ln0 =? 0); reflexivity. }
  rewrite (Hgo _ eq_refl). clear Hgo.
  destruct items as [| [fs l | l] items].
  - cbn. eauto.
  - destruct fs as [| f fs].
    + cbn [next_nonblank].
      pose proof (skip_blank_spec (length items) items l (Some fns) l (le_n _)) as Hs.
      cbn zeta in Hs. unfold at_row, bind, next_reader, sync_line_num, modify, gets.
      cbn [reader reader_line_num _fieldnames line_num].
      destruct (next_nonblank items) as [| | row ln rest].
      * destruct Hs as [r' ->]. cbn. eauto.
      * destruct Hs as [r' ->]. cbn. eauto.
      * rewrite Hs. reflexivity.
    + cbn [next_nonblank]. unfold at_row, bind, next_reader, sync_line_num, modify, gets.
      cbn [reader reader_line_num _fieldnames line_num].
      rewrite skip_blank_cons. reflexivity.
  - cbn. eauto.
Qed.

(** The first [__next__] reads the header and goes on as between rows. *)
Lemma next_initial f :
  match Csv.reader f with
  | [] => exists r', __next__ (__init__ f) = (Ok None, r')
  | Csv.Error _ :: _ => exists r', __next__ (__init__ f) = (Raise CsvError, r')
  | Csv.Row h ln :: rest => __next__ (__init__ f) = __next__ (at_row h ln rest)
  end.
Proof.
  unfold __init__. destruct (Csv.reader f) as [| [h ln | ln] rest].
  - cbn. eauto.
  - unfold __next__ at 1 2. unfold bind at 1. cbn [gets line_num].
    change (0 =? 0) with true. cbv iota.
    unfold bind at 1. unfold bind at 1. cbn.
    destruct (ln =? 0); reflexivity.
  - cbn. eauto.
Qed.

End ReaderFacts.

(** ** The engine *)

Module EngineFacts.
Import ReaderFacts.

Section WithEnv.

Variable env : Env.

Lemma utf8_encode_exn s e : Utf8.encode s = Raise e -> e = UnicodeEncodeError.
Proof.
  revert e. induction s as [| c s IH]; intros e; cbn [Utf8.encode]; [discriminate |].
  destruct (Utf8.encode_char c); [| congruence].
  destruct (Utf8.encode s); cbn [rbind]; [discriminate |].
  intros [= <-]. apply IH. reflexivity.
Qed.

Lemma encode_name_exn name e : encode_name name = Raise e -> is_Exception e = true.
Proof.
  destruct name as [s | | l]; cbn [encode_name]; try (intros [= <-]; reflexivity).
  destruct (Utf8.encode s) eqn:Hs; cbn [rbind]; [discriminate |].
  intros [= <-]. apply utf8_encode_exn in Hs as ->. reflexivity.
Qed.

(** The progress line leaves everything but the log as it is. *)
Lemma progress_spec (m n ln : N) v (r : option DictReader.t) w :
  exists w1,
    (if m =? 0
     then
       let* v := lift_result (Ok v) in
       let* msg := lift_result
                     (str_format Progress [AVal v; AInt ln; AInt n; AProcessTime]) in
       on_world (logger_debug env msg)
     else ret tt) (r, w) = (Ok tt, (r, w1))
    /\ db w1 = db w /\ history w1 = history w /\ bgsaves w1 = bgsaves w
    /\ opened w1 = opened w /\ stdout w1 = stdout w.
Proof.
  destruct (m =? 0); [| exists w; cbn; auto 10].
  cbn. unfold logger_debug. destruct (verbose env); cbn; eauto 10.
Qed.

(** One turn of the loop, between two rows: it fails when [check_count] is
    zero, when the row has no entry, or when the [RPUSH] does not get
    through; otherwise it appends the entry. *)
Lemma process_row_spec n cc row fns ln rest w :
  exists res w',
    process_row env n cc row (Some (at_row fns ln rest), w)
    = (res, (Some (at_row fns ln rest), w'))
    /\ bgsaves w' = bgsaves w /\ opened w' = opened w /\ stdout w' = stdout w
    /\ match entry env fns row with
       | Ok kb =>
           if cc =? 0
           then res = Raise ZeroDivisionError /\ db w' = db w /\ history w' = history w
           else if faulty env (length (history w))
                then res = Raise RedisError /\ db w' = db w
                     /\ history w' = history w ++ [RPUSH (fst kb) (snd kb)]
                else res = Ok tt /\ db w' = push (db w) kb
                     /\ history w' = history w ++ [RPUSH (fst kb) (snd kb)]
       | Raise _ =>
           exists e, res = Raise e /\ is_Exception e = true
                     /\ db w' = db w /\ history w' = history w
       end.
Proof.
  unfold entry. rewrite encode_row_total.
  unfold process_row. rewrite BytesFacts.utf8_encode_ascii by apply BytesFacts.dumps_ascii.
  destruct fns as [| key fns].
  { exists (Raise IndexError), w. split; [reflexivity |]. cbn.
    repeat split. exists IndexError. auto. }
  unfold bind at 1. unfold on_reader at 1. rewrite fieldnames_at_row.
  unfold bind at 1. unfold lift_result at 1. cbn [first_item].
  unfold bind at 1. unfold on_reader at 1. cbn [gets at_row DictReader.line_num].
  unfold bind at 1. unfold lift_result at 1. unfold py_mod.
  cbn [rbind].
  destruct (cc =? 0) eqn:Hcc.
  { exists (Raise ZeroDivisionError), w. split; [reflexivity |]. repeat split.
    destruct (getitem row key) as [name |]; cbn [rbind];
      [| exists ZeroDivisionError; auto].
    destruct (encode_name name); cbn [rbind];
      [auto | exists ZeroDivisionError; auto]. }
  unfold getitem. destruct (dict_get (KStr key) row) as [name |]; cbn [rbind].
  2:{ exists (Raise KeyError), w. split; [| repeat split; exists KeyError; auto].
      destruct (ln mod cc =? 0); reflexivity. }
  destruct (progress_spec (ln mod cc) n ln name
              (Some (at_row (key :: fns) ln rest)) w)
    as (w1 & Hp & Hdb & Hh & Hbg & Hop & Hout).
  unfold bind at 1. rewrite Hp.
  unfold bind at 1. unfold lift_result at 1.
  unfold bind at 1. unfold lift_result at 1.
  unfold on_world, redis_rpush.
  unfold bind at 1. unfold lift_result at 1.
  destruct (encode_name name) as [k | e] eqn:Hk; cbn [rbind].
  2:{ exists (Raise e), w1. split; [reflexivity |]. repeat split; try assumption.
      exists e. repeat split; try assumption. eapply encode_name_exn; eassumption. }
  unfold bind at 1. unfold send. rewrite Hh.
  destruct (faulty env (length (history w))); cbn [execute fst snd].
  - eexists _, _. split; [reflexivity |]. cbn. repeat split; assumption.
  - eexists _, _. split; [reflexivity |]. cbn. rewrite Hdb.
    repeat split; assumption.
Qed.
(** The loop, started between two rows: it appends the entries of the
    accepted rows, in order, and nothing else; it ends normally only if every
    row was accepted. *)
Lemma for_rows_spec n cc fns : forall fuel items ln w,
  (length items < fuel)%nat ->
  exists res r' w' cmds,
    for_rows fuel (process_row env n cc) (Some (at_row fns ln items), w)
    = (res, (Some r', w'))
    /\ bgsaves w' = bgsaves w /\ opened w' = opened w /\ stdout w' = stdout w
    /\ db w' = fold_left push
                 (accepted env fns cc (length (history w)) (yields fns items)) (db w)
    /\ history w' = history w ++ cmds /\ Forall is_rpush cmds
    /\ (res = Ok tt \/ exists e, res = Raise e /\ is_Exception e = true)
    /\ (res = Ok tt ->
        length (accepted env fns cc (length (history w)) (yields fns items))
        = length (yields fns items)
        /\ cmds = map rpush_of
                   (accepted env fns cc (length (history w)) (yields fns items)))
    /\ ((length (accepted env fns cc (length (history w)) (yields fns items))
         < length (yields fns items))%nat -> res <> Ok tt).
Proof.
  induction fuel as [| fuel IH]; intros items ln w Hlen; [lia |].
  cbn [for_rows]. unfold bind at 1. unfold on_reader at 1.
  pose proof (next_at_row fns ln items) as Hnext.
  rewrite (next_nonblank_yields fns items).
  destruct (next_nonblank items) as [| | row ln' rest] eqn:Hscan.
  - destruct Hnext as [r' ->]. exists (Ok tt), r', w, []. cbn.
    rewrite app_nil_r. repeat split; auto; lia.
  - destruct Hnext as [r' ->]. exists (Raise CsvError), r', w, []. cbn.
    rewrite app_nil_r. repeat split; eauto; try discriminate; lia.
  - rewrite Hnext. unfold bind at 1.
    destruct (process_row_spec n cc (DictReader.make_row fns row) fns ln' rest w)
      as (res1 & w1 & Hbody & Hbg & Hop & Hout & Hcase).
    rewrite Hbody. cbn [accepted length].
    destruct (entry env fns (DictReader.make_row fns row)) as [kb | e0].
    2:{ destruct Hcase as (e & -> & He & Hdb & Hh).
        exists (Raise e), (at_row fns ln' rest), w1, []. cbn.
        rewrite app_nil_r. repeat split; eauto; try discriminate. }
    destruct (cc =? 0) eqn:Hcc; cbn [orb].
    { destruct Hcase as (-> & Hdb & Hh).
      exists (Raise ZeroDivisionError), (at_row fns ln' rest), w1, []. cbn.
      rewrite app_nil_r. repeat split; eauto; try discriminate. }
    destruct (faulty env (length (history w))) eqn:Hf.
    { destruct Hcase as (-> & Hdb & Hh).
      exists (Raise RedisError), (at_row fns ln' rest), w1, [rpush_of kb]. cbn.
      repeat split; eauto; try discriminate.
      constructor; [| constructor]. exists (fst kb), (snd kb). reflexivity. }
    destruct Hcase as (-> & Hdb & Hh).
    apply next_nonblank_shorter in Hscan.
    destruct (IH rest ln' w1 ltac:(lia))
      as (res & r' & w' & cmds & Hrun & Hbg' & Hop' & Hout' & Hdb' & Hh' & Hcmds
          & Hres & Hok & Hshort).
    assert (Hidx : length (history w1) = S (length (history w)))
      by (rewrite Hh, length_app; cbn; lia).
    rewrite Hidx in *.
    exists res, r', w', (rpush_of kb :: cmds). rewrite Hrun.
    split; [reflexivity |]. cbn [fold_left length map].
    split; [congruence |]. split; [congruence |]. split; [congruence |].
    split; [rewrite Hdb', Hdb; reflexivity |].
    split; [rewrite Hh', Hh, <- app_assoc; reflexivity |].
    split; [constructor; [exists (fst kb), (snd kb); reflexivity | exact Hcmds] |].
    split; [exact Hres |].
    split.
    + intros H. destruct (Hok H) as [H1 H2]. split; f_equal; assumption.
    + intros Hlt. apply Hshort. lia.
Qed.

(** The handler of [except Exception]: its message has the replacement
    fields 1 and 2 and two arguments, so formatting it raises. *)
Lemma store_error_raises e r w :
  store_error e (Some r, w) = (Raise IndexError, (Some r, w)).
Proof. reflexivity. Qed.

(** The [try] block. *)
Lemma store_rows_spec csv_file f w :
  fs env csv_file = Some f ->
  exists res r' w' cmds,
    store_rows env csv_file f (None, w) = (res, (Some r', w'))
    /\ bgsaves w' = bgsaves w /\ opened w' = opened w ++ [csv_file]
    /\ stdout w' = stdout w
    /\ db w' = fold_left push
                 (accepted env (header f) (check_count f) (length (history w)) (rows f))
                 (db w)
    /\ history w' = history w ++ cmds /\ Forall is_rpush cmds
    /\ (res = Ok tt \/ exists e, res = Raise e /\ is_Exception e = true)
    /\ (res = Ok tt ->
        length (accepted env (header f) (check_count f) (length (history w)) (rows f))
        = length (rows f)
        /\ cmds = map rpush_of
                   (accepted env (header f) (check_count f) (length (history w)) (rows f)))
    /\ ((length (accepted env (header f) (check_count f) (length (history w)) (rows f))
         < length (rows f))%nat -> res <> Ok tt).
Proof.
  intros Hfs. unfold store_rows.
  unfold bind at 1. unfold on_world at 1. unfold _get_record_count.
  unfold bind at 1. unfold open at 1. rewrite Hfs. unfold ret at 1.
  fold (record_count f).
  unfold bind at 1. unfold lift_result at 1. cbn [str_format replacement_fields
    format_fields nth_error rbind].
  set (w1 := {| db := db w; bgsaves := bgsaves w; history := history w;
                opened := opened w ++ [csv_file]; log := log w;
                stdout := stdout w |}).
  assert (Hlog : exists w2,
    on_world (logger_debug env (Formatted ProcessingRecords [AInt (record_count f)]))
      (None, w1) = (Ok tt, (None, w2))
    /\ db w2 = db w /\ history w2 = history w /\ bgsaves w2 = bgsaves w
    /\ opened w2 = opened w ++ [csv_file] /\ stdout w2 = stdout w).
  { unfold on_world, logger_debug. destruct (verbose env); cbn; eauto 10. }
  destruct Hlog as (w2 & Hlog & Hdb2 & Hh2 & Hbg2 & Hop2 & Hout2).
  unfold bind at 1. rewrite Hlog.
  unfold bind at 1. unfold assign_reader, modify.
  fold (check_count f).
  cbn [DictReader.reader DictReader.__init__].
  unfold header, rows.
  pose proof (next_initial f) as Hinit.
  cbn [for_rows]. unfold bind at 1. unfold on_reader at 1.
  destruct (Csv.reader f) as [| [h ln | ln] rest] eqn:Hreader.
  - destruct Hinit as [r' ->]. exists (Ok tt), r', w2, []. cbn.
    rewrite app_nil_r. repeat split; auto; lia.
  - rewrite Hinit.
    destruct (for_rows_spec (record_count f) (check_count f) h
                (S (length (Csv.Row h ln :: rest))) rest ln w2 ltac:(cbn; lia))
      as (res & r' & w' & cmds & Hrun & Hbg & Hop & Hout & Hdb & Hh & Hcmds
          & Hres & Hok & Hshort).
    cbn [for_rows] in Hrun. unfold bind at 1 in Hrun. unfold on_reader at 1 in Hrun.
    rewrite Hh2 in *.
    exists res, r', w', cmds. split; [exact Hrun |].
    split; [congruence |]. split; [congruence |]. split; [congruence |].
    split; [rewrite Hdb, Hdb2; reflexivity |].
    split; [rewrite Hh; reflexivity |]. auto.
  - destruct Hinit as [r' ->]. exists (Raise CsvError), r', w2, []. cbn.
    rewrite app_nil_r. repeat split; eauto; try discriminate; lia.
Qed.

(** [store_csv] on a file that exists, when [FLUSHDB] gets through: the
    database ends up holding the entries of the accepted rows and nothing
    else; the run ends normally only if every row was accepted, and then
    [BGSAVE] was the last command; if a row was not accepted, the run raises
    what the handler raises and [BGSAVE] is never sent. *)
Lemma store_csv_spec csv_file f w :
  fs env csv_file = Some f ->
  faulty env (length (history w)) = false ->
  exists res w' cmds,
    store_csv env csv_file w = (res, w')
    /\ db w' = fold_left push
                 (accepted env (header f) (check_count f)
                    (S (length (history w))) (rows f)) ∅
    /\ history w' = history w ++ FLUSHDB :: cmds
    /\ stdout w' = stdout w
    /\ (res = Ok tt ->
        length (accepted env (header f) (check_count f)
                  (S (length (history w))) (rows f)) = length (rows f)
        /\ bgsaves w' = S (bgsaves w)
        /\ cmds = map rpush_of
                   (accepted env (header f) (check_count f)
                      (S (length (history w))) (rows f)) ++ [BGSAVE])
    /\ ((length (accepted env (header f) (check_count f)
                   (S (length (history w))) (rows f)) < length (rows f))%nat ->
        res = Raise IndexError /\ bgsaves w' = bgsaves w /\ Forall is_rpush cmds).
Proof.
  intros Hfs Hflush. unfold store_csv.
  unfold bind at 1. unfold redis_flushdb at 1. unfold bind at 1.
  unfold send at 1. rewrite Hflush. cbn [execute]. unfold ret at 1.
  unfold bind at 1. unfold open at 1. rewrite Hfs.
  unfold bind at 1. unfold with_locals at 1. unfold try_except at 1.
  cbn [db bgsaves history opened log stdout].
  set (w1 := {| db := ∅; bgsaves := bgsaves w; history := history w ++ [FLUSHDB];
                opened := opened w ++ [csv_file]; log := log w;
                stdout := stdout w |}).
  destruct (store_rows_spec csv_file f w1 Hfs)
    as (res & r' & w' & cmds & Hrun & Hbg & Hop & Hout & Hdb & Hh & Hcmds
        & Hres & Hok & Hshort).
  rewrite Hrun.
  assert (Hidx : length (history w1) = S (length (history w)))
    by (cbn; rewrite length_app; cbn; lia).
  rewrite Hidx in *. cbn [db history bgsaves stdout w1] in *.
  destruct Hres as [-> | (e & -> & He)].
  - destruct (Hok eq_refl) as [Hall Hcmd].
    unfold redis_bgsave, bind, send.
    destruct (faulty env (length (history w'))).
    + eexists _, _, (cmds ++ [BGSAVE]). split; [reflexivity |]. cbn.
      split; [exact Hdb |].
      split; [rewrite Hh, <- !app_assoc; reflexivity |].
      split; [exact Hout |].
      split; [discriminate |]. intros Hlt. lia.
    + eexists _, _, (cmds ++ [BGSAVE]). split; [reflexivity |]. cbn.
      split; [exact Hdb |].
      split; [rewrite Hh, <- !app_assoc; reflexivity |].
      split; [exact Hout |].
      split; [intros _; split; [exact Hall | split; congruence] |].
      intros Hlt. lia.
  - rewrite He, store_error_raises.
    exists (Raise IndexError), w', cmds. split; [reflexivity |].
    split; [exact Hdb |].
    split; [rewrite Hh, <- app_assoc; reflexivity |].
    split; [exact Hout |].
    split; [discriminate |]. auto.
Qed.

End WithEnv.
End EngineFacts.

(** ** What a run leaves in the database *)

Module StoreFacts.
Import ReaderFacts EngineFacts.

(** [LRANGE key 0 -1] is the whole list. *)
Lemma lrange_full l : lrange l 0 (-1) = l.
Proof.
  unfold lrange. cbn [Z.ltb Z.compare].
  destruct l as [| b l]; [reflexivity |].
  assert (Hlen : (0 < Z.of_nat (length (b :: l)))%Z) by (cbn [length]; lia).
  rewrite Z.min_l by lia.
  destruct (Z.ltb_spec (Z.of_nat (length (b :: l)) + -1) 0); [lia |].
  cbn [Z.to_nat drop].
  replace (Z.to_nat (Z.of_nat (length (b :: l)) + -1 - 0 + 1)) with (length (b :: l)) by lia.
  apply firstn_all.
Qed.

Lemma lookup_push d kb k :
  push d kb !! k
  = if decide (fst kb = k) then Some (default [] (d !! k) ++ [snd kb]) else d !! k.
Proof.
  unfold push. destruct (decide (fst kb = k)) as [<- | Hne].
  - apply lookup_insert_eq.
  - apply lookup_insert_ne. exact Hne.
Qed.

(** The list under [k] after a sequence of [RPUSH]: what was there,
    followed by the blobs pushed under [k]. *)
Lemma lookup_fold_push l : forall d k,
  fold_left push l d !! k
  = match group k l with
    | [] => d !! k
    | _ :: _ => Some (default [] (d !! k) ++ group k l)
    end.
Proof.
  unfold group.
  induction l as [| kb l IH]; intros d k; cbn [fold_left]; [reflexivity |].
  rewrite IH, lookup_push. rewrite filter_cons.
  destruct (decide (fst kb = k)) as [Heq | Hne]; cbn [map default].
  - destruct (map snd (filter (fun kb => fst kb = k) l)) as [| b bs].
    + reflexivity.
    + unfold id. rewrite <- app_assoc. reflexivity.
  - reflexivity.
Qed.

Lemma group_elem k l b : b ∈ group k l <-> (k, b) ∈ l.
Proof.
  unfold group. rewrite list_elem_of_fmap. split.
  - intros ([k' b'] & -> & Hin). apply list_elem_of_filter in Hin as [Hk Hin].
    cbn in Hk. subst k'. exact Hin.
  - intros Hin. exists (k, b). split; [reflexivity |].
    apply list_elem_of_filter. split; [reflexivity | exact Hin].
Qed.

Section WithEnv.

Variable env : Env.

Lemma accepted_entry fns cc ys : forall idx kb,
  kb ∈ accepted env fns cc idx ys ->
  exists ln row, (ln, row) ∈ ys /\ entry env fns row = Ok kb.
Proof.
  induction ys as [| [ln row] ys IH]; intros idx kb Hin; cbn [accepted] in Hin.
  - apply elem_of_nil in Hin. contradiction.
  - destruct (entry env fns row) as [kb' |] eqn:He;
      [| apply elem_of_nil in Hin; contradiction].
    destruct ((cc =? 0) || faulty env idx);
      [apply elem_of_nil in Hin; contradiction |].
    apply elem_of_cons in Hin as [-> | Hin].
    + exists ln, row. split; [left | exact He].
    + destruct (IH _ _ Hin) as (ln' & row' & Hin' & He').
      exists ln', row'. split; [right; exact Hin' | exact He'].
Qed.

Lemma entries_cons fns y ys :
  entries env fns (y :: ys)
  = match entry env fns (snd y) with
    | Ok kb => kb :: entries env fns ys
    | Raise _ => entries env fns ys
    end.
Proof. unfold entries. cbn. destruct (entry env fns (snd y)); reflexivity. Qed.

(** When every row is accepted, the accepted entries are the entries. *)
Lemma accepted_all fns cc ys : forall idx,
  length (accepted env fns cc idx ys) = length ys ->
  accepted env fns cc idx ys = entries env fns ys
  /\ forall ln row, (ln, row) ∈ ys -> exists kb,
       entry env fns row = Ok kb /\ kb ∈ accepted env fns cc idx ys.
Proof.
  induction ys as [| [ln row] ys IH]; intros idx Hlen.
  - split; [reflexivity |]. intros ln row Hin. apply elem_of_nil in Hin. contradiction.
  - rewrite entries_cons. cbn [accepted snd] in *.
    destruct (entry env fns row) as [kb |] eqn:He; [| discriminate].
    destruct ((cc =? 0) || faulty env idx); [discriminate |].
    cbn [length] in Hlen. destruct (IH (S idx) ltac:(lia)) as [Heq Hall].
    split; [rewrite Heq; reflexivity |].
    intros ln' row' Hin. apply elem_of_cons in Hin as [[= -> ->] | Hin].
    + exists kb. split; [exact He | left].
    + destruct (Hall _ _ Hin) as (kb' & He' & Hin'). exists kb'.
      split; [exact He' | right; exact Hin'].
Qed.

Lemma all_ok_accepted fns cc ys : forall idx,
  all_ok env fns cc idx ys = true ->
  accepted env fns cc idx ys = entries env fns ys
  /\ length (entries env fns ys) = length ys.
Proof.
  induction ys as [| [ln row] ys IH]; intros idx Hok; [split; reflexivity |].
  rewrite entries_cons. cbn [all_ok accepted snd length] in *.
  apply andb_true_iff in Hok as [Hrow Hrest]. unfold row_ok in Hrow.
  destruct (entry env fns row) as [kb |]; [| discriminate].
  apply negb_true_iff in Hrow. rewrite Hrow.
  destruct (IH _ Hrest) as [Heq Hlen].
  split; [rewrite Heq; reflexivity | cbn [length]; rewrite Hlen; reflexivity].
Qed.

(** The accepted rows end before the first row that is not processed
    without error. *)
Lemma accepted_until_failure fns cc pre bad post : forall idx,
  all_ok env fns cc idx pre = true ->
  row_ok env fns cc (idx + length pre) (snd bad) = false ->
  accepted env fns cc idx (pre ++ bad :: post) = entries env fns pre.
Proof.
  induction pre as [| [ln row] pre IH]; intros idx Hok Hbad.
  - cbn [app accepted length] in *. rewrite Nat.add_0_r in Hbad.
    destruct bad as [ln row]. unfold row_ok in Hbad. cbn [snd accepted] in *.
    destruct (entry env fns row); [| reflexivity].
    apply negb_false_iff in Hbad. rewrite Hbad. reflexivity.
  - rewrite entries_cons. cbn [all_ok app accepted snd length] in *.
    apply andb_true_iff in Hok as [Hrow Hrest]. unfold row_ok in Hrow.
    destruct (entry env fns row) as [kb |]; [| discriminate].
    apply negb_true_iff in Hrow. rewrite Hrow.
    rewrite (IH (S idx) Hrest); [reflexivity |].
    replace (S idx + length pre)%nat with (idx + S (length pre))%nat by lia.
    exact Hbad.
Qed.

(** [round(n // 20, -2)] is zero below 1020. *)
Lemma round_hundreds_small n : n < 1020 -> round_hundreds (n / 20) = 0.
Proof.
  intros Hn. unfold round_hundreds.
  assert (Hq : n / 20 <= 50) by divmod_lia.
  assert (H0 : n / 20 / 100 = 0) by divmod_lia.
  assert (Hm : (n / 20) mod 100 = n / 20) by divmod_lia.
  rewrite H0, Hm.
  destruct (N.ltb_spec (n / 20) 50); [reflexivity |].
  destruct (N.ltb_spec 50 (n / 20)); [lia | reflexivity].
Qed.

Lemma accepted_zero_check fns ys idx : accepted env fns 0 idx ys = [].
Proof.
  destruct ys as [| [ln row] ys]; [reflexivity |]. cbn [accepted].
  destruct (entry env fns row); reflexivity.
Qed.

(** [store_csv] on a file that cannot be opened. *)
Lemma store_csv_missing_file csv_file w :
  fs env csv_file = None ->
  faulty env (length (history w)) = false ->
  store_csv env csv_file w
  = (Raise OSError,
     {| db := ∅; bgsaves := bgsaves w; history := history w ++ [FLUSHDB];
        opened := opened w ++ [csv_file]; log := log w; stdout := stdout w |}).
Proof.
  intros Hfs Hflush. unfold store_csv, bind, redis_flushdb, bind, send, open.
  rewrite Hflush. cbn. rewrite Hfs. reflexivity.
Qed.

(** [store_csv] when [FLUSHDB] does not get through. *)
Lemma store_csv_flush_fails csv_file w :
  faulty env (length (history w)) = true ->
  store_csv env csv_file w
  = (Raise RedisError,
     {| db := db w; bgsaves := bgsaves w; history := history w ++ [FLUSHDB];
        opened := opened w; log := log w; stdout := stdout w |}).
Proof.
  intros Hflush. unfold store_csv, bind, redis_flushdb, bind, send.
  rewrite Hflush. reflexivity.
Qed.

End WithEnv.

End StoreFacts.

(** * The claims *)

Import ReaderFacts EngineFacts StoreFacts.

(** ** C6: construction against an unreachable store *)

(** [__init__] when its command fails. *)
Lemma init_unreachable env w :
  faulty env (length (history w)) = true ->
  __init__ env w
  = (Raise (SystemExit 1),
     {| db := db w; bgsaves := bgsaves w;
        history := history w ++ [INFO (py "server")];
        opened := opened w;
        log := log w ++ [(ERROR, Formatted ConnectError [AExn RedisError])];
        stdout := stdout w |}).
Proof.
  intros Hdead. unfold __init__, try_except, bind, redis_info, bind, send.
  rewrite Hdead. reflexivity.
Qed.

(** The construction succeeds only if the command got through. *)
Lemma init_ok_reachable env w :
  fst (__init__ env w) = Ok tt -> faulty env (length (history w)) = false.
Proof.
  intros Hok. destruct (faulty env (length (history w))) eqn:Hf; [| reflexivity].
  rewrite (init_unreachable env w Hf) in Hok. discriminate.
Qed.

(** [__init__] sends its command whatever the state of the store. *)
Lemma init_sends_info env w :
  history (snd (__init__ env w)) = history w ++ [INFO (py "server")].
Proof.
  unfold __init__, try_except, bind, redis_info, bind, send.
  destruct (faulty env (length (history w))); [reflexivity |].
  cbn. unfold logger_debug. destruct (verbose env); reflexivity.
Qed.

(** C6 (fail-fast construction).  [__init__] sends a command ([INFO
    server]) at construction time.  When the store cannot be reached, so that
    this command fails, [__init__] logs the error and raises [SystemExit(1)];
    [main], whatever the action, then ends with exit status 1 having sent
    nothing else and opened no file, so before any row is read. *)
Theorem init_fails_fast env w :
  faulty env (length (history w)) = true ->
  __init__ env w
  = (Raise (SystemExit 1),
     {| db := db w; bgsaves := bgsaves w;
        history := history w ++ [INFO (py "server")];
        opened := opened w;
        log := log w ++ [(ERROR, Formatted ConnectError [AExn RedisError])];
        stdout := stdout w |})
  /\ forall a input,
       exit_status (fst (main env a input w)) = 1%Z
       /\ history (snd (main env a input w)) = history w ++ [INFO (py "server")]
       /\ opened (snd (main env a input w)) = opened w
       /\ db (snd (main env a input w)) = db w
       /\ stdout (snd (main env a input w)) = stdout w.
Proof.
  intros Hdead. split; [apply init_unreachable; exact Hdead |].
  intros a input.
  assert (Hmain : exists lg,
    main env a input w
    = (Raise (SystemExit 1),
       {| db := db w; bgsaves := bgsaves w;
          history := history w ++ [INFO (py "server")];
          opened := opened w; log := lg; stdout := stdout w |})).
  { unfold main. unfold bind at 1. unfold logger_debug.
    destruct (verbose env).
    - cbn [emit modify]. unfold bind at 1.
      rewrite init_unreachable by exact Hdead. eauto.
    - cbn [ret]. unfold bind at 1. rewrite init_unreachable by exact Hdead. eauto. }
  destruct Hmain as [lg ->]. repeat split; reflexivity.
Qed.

Lemma init_fails_fast_witness :
  __init__ dead_env empty_world
  = (Raise (SystemExit 1),
     {| db := db empty_world; bgsaves := bgsaves empty_world;
        history := history empty_world ++ [INFO (py "server")];
        opened := opened empty_world;
        log := log empty_world ++ [(ERROR, Formatted ConnectError [AExn RedisError])];
        stdout := stdout empty_world |})
  /\ forall a input,
       exit_status (fst (main dead_env a input empty_world)) = 1%Z
       /\ history (snd (main dead_env a input empty_world))
          = history empty_world ++ [INFO (py "server")]
       /\ opened (snd (main dead_env a input empty_world)) = opened empty_world
       /\ db (snd (main dead_env a input empty_world)) = db empty_world
       /\ stdout (snd (main dead_env a input empty_world)) = stdout empty_world.
Proof. apply (init_fails_fast dead_env empty_world). reflexivity. Defined.

(** ** C9: the namespace is cleared before the source is opened *)

(** C9 (clear precedes open).  When the source cannot be opened (and
    [FLUSHDB] got through), [store_csv] raises the error of [open] with the
    namespace already emptied, whatever it held: [FLUSHDB] is the only command
    sent, nothing is written and no background save is started. *)
Theorem clear_precedes_open env csv_file w :
  fs env csv_file = None ->
  faulty env (length (history w)) = false ->
  fst (store_csv env csv_file w) = Raise OSError
  /\ db (snd (store_csv env csv_file w)) = ∅
  /\ history (snd (store_csv env csv_file w)) = history w ++ [FLUSHDB]
  /\ opened (snd (store_csv env csv_file w)) = opened w ++ [csv_file]
  /\ bgsaves (snd (store_csv env csv_file w)) = bgsaves w.
Proof.
  intros Hfs Hflush. rewrite (store_csv_missing_file env csv_file w Hfs Hflush).
  cbn. auto.
Qed.

Lemma clear_precedes_open_witness :
  fst (store_csv scenario_env (py "missing.csv") stale_world) = Raise OSError
  /\ db (snd (store_csv scenario_env (py "missing.csv") stale_world)) = ∅
  /\ history (snd (store_csv scenario_env (py "missing.csv") stale_world))
     = history stale_world ++ [FLUSHDB]
  /\ opened (snd (store_csv scenario_env (py "missing.csv") stale_world))
     = opened stale_world ++ [py "missing.csv"]
  /\ bgsaves (snd (store_csv scenario_env (py "missing.csv") stale_world))
     = bgsaves stale_world.
Proof.
  apply (clear_precedes_open scenario_env (py "missing.csv") stale_world);
    reflexivity.
Defined.

(** ** C10: the query reads only *)

(** C10 (query is read-only).  [get_records] leaves the database, the
    count of background saves, the files, the log and the output as they
    were, whatever the key and whether it returns or raises; the only command
    it can send is [LRANGE key 0 -1], and when that gets through the result is
    the decoding of the whole list under the key. *)
Theorem get_records_read_only env key w :
  db (snd (get_records env key w)) = db w
  /\ bgsaves (snd (get_records env key w)) = bgsaves w
  /\ opened (snd (get_records env key w)) = opened w
  /\ log (snd (get_records env key w)) = log w
  /\ stdout (snd (get_records env key w)) = stdout w
  /\ (history (snd (get_records env key w)) = history w
      \/ history (snd (get_records env key w)) = history w ++ [LRANGE key 0 (-1)])
  /\ (history (snd (get_records env key w)) = history w ++ [LRANGE key 0 (-1)] ->
      faulty env (length (history w)) = false ->
      fst (get_records env key w) = decode_rows env (default [] (db w !! key))).
Proof.
  unfold get_records, redis_lrange, bind, lift_result, encode_name.
  destruct (Utf8.encode key) as [kb | e]; cbn [rbind].
  2:{ cbn. repeat split; auto.
      intros Habs. exfalso. apply (f_equal length) in Habs.
      rewrite length_app in Habs. cbn in Habs. lia. }
  unfold send. destruct (faulty env (length (history w))) eqn:Hf.
  - cbn. repeat split; auto. discriminate.
  - cbn. rewrite lrange_full. destruct w; cbn. repeat split; auto.
Qed.

(** ** C4: a store replaces the namespace *)

(** C4 (namespace full-replace).  Whatever the namespace held before
    (the keys of a source stored earlier, say), once [FLUSHDB] got through,
    every list found in the namespace after [store_csv] is made, in full, of
    blobs of rows of this source whose first column is the key of the list;
    and the namespace is the one the same run leaves when it starts on an
    empty namespace. *)
Theorem store_replaces_namespace env csv_file w :
  faulty env (length (history w)) = false ->
  (forall k blobs,
      db (snd (store_csv env csv_file w)) !! k = Some blobs ->
      exists f,
        fs env csv_file = Some f
        /\ blobs <> []
        /\ forall b, b ∈ blobs ->
             exists ln row, (ln, row) ∈ rows f /\ entry env (header f) row = Ok (k, b))
  /\ db (snd (store_csv env csv_file w))
     = db (snd (store_csv env csv_file (with_db ∅ w))).
Proof.
  intros Hflush. destruct (fs env csv_file) as [f |] eqn:Hfs.
  - destruct (store_csv_spec env csv_file f w Hfs Hflush)
      as (res & w' & cmds & Hrun & Hdb & _).
    destruct (store_csv_spec env csv_file f (with_db ∅ w) Hfs Hflush)
      as (res0 & w0 & cmds0 & Hrun0 & Hdb0 & _).
    rewrite Hrun, Hrun0. cbn [snd]. split; [| rewrite Hdb, Hdb0; reflexivity].
    intros k blobs Hk. exists f. split; [reflexivity |].
    rewrite Hdb, lookup_fold_push, lookup_empty in Hk.
    destruct (group k _) as [| b0 bs] eqn:Hg; [discriminate |].
    injection Hk as <-. cbn [default app]. split; [discriminate |].
    intros b Hb. rewrite <- Hg in Hb. apply group_elem in Hb.
    apply accepted_entry in Hb. exact Hb.
  - rewrite !store_csv_missing_file by assumption. cbn [snd db].
    split; [| reflexivity]. intros k blobs Hk. rewrite lookup_empty in Hk. discriminate.
Qed.

Lemma store_replaces_namespace_witness :
  (forall k blobs,
      db (snd (store_csv (long_env []) (py "long.csv") stale_world)) !! k = Some blobs ->
      exists f,
        fs (long_env []) (py "long.csv") = Some f
        /\ blobs <> []
        /\ forall b, b ∈ blobs ->
             exists ln row, (ln, row) ∈ rows f
                            /\ entry (long_env []) (header f) row = Ok (k, b))
  /\ db (snd (store_csv (long_env []) (py "long.csv") stale_world))
     = db (snd (store_csv (long_env []) (py "long.csv") (with_db ∅ stale_world))).
Proof.
  apply (store_replaces_namespace (long_env []) (py "long.csv") stale_world).
  reflexivity.
Defined.

(** ** C2: a row that fails *)

(** The turn of the loop on a row raises exactly when the row is not
    [row_ok]. *)
Lemma process_row_raises env n cc row fns ln rest w :
  row_ok env fns cc (length (history w)) row = false
  <-> exists e, fst (process_row env n cc row (Some (at_row fns ln rest), w)) = Raise e.
Proof.
  destruct (process_row_spec env n cc row fns ln rest w)
    as (res & w' & Hrun & _ & _ & _ & Hcase).
  rewrite Hrun. cbn [fst]. unfold row_ok.
  destruct (entry env fns row) as [kb |].
  - destruct (cc =? 0); cbn [orb negb].
    + destruct Hcase as (-> & _). split; eauto.
    + destruct (faulty env (length (history w))); cbn [negb].
      * destruct Hcase as (-> & _). split; eauto.
      * destruct Hcase as (-> & _). split; [discriminate | intros [e He]; discriminate].
  - destruct Hcase as (e1 & -> & _). split; eauto.
Qed.

(** C2, as the code has it (row failure ends the ingestion).  When the
    processing of a row raises, the rows before it having been processed
    without error, the loop ends there: the namespace holds the entries of the
    rows before the failing row, in order, and nothing of the failing row or
    of any row after it. *)
Theorem row_failure_ends_ingestion env csv_file f w pre bad post :
  fs env csv_file = Some f ->
  faulty env (length (history w)) = false ->
  rows f = pre ++ bad :: post ->
  all_ok env (header f) (check_count f) (S (length (history w))) pre = true ->
  row_ok env (header f) (check_count f) (S (length (history w)) + length pre)
    (snd bad) = false ->
  db (snd (store_csv env csv_file w)) = fold_left push (entries env (header f) pre) ∅
  /\ length (entries env (header f) pre) = length pre.
Proof.
  intros Hfs Hflush Hrows Hpre Hbad.
  destruct (store_csv_spec env csv_file f w Hfs Hflush)
    as (res & w' & cmds & Hrun & Hdb & _).
  rewrite Hrun. cbn [snd]. rewrite Hdb, Hrows.
  rewrite (accepted_until_failure env _ _ pre bad post _ Hpre Hbad).
  split; [reflexivity |]. apply (all_ok_accepted env _ _ pre _ Hpre).
Qed.

Lemma row_failure_ends_ingestion_witness :
  db (snd (store_csv (long_env [3%nat]) (py "long.csv") empty_world))
  = fold_left push
      (entries (long_env [3%nat]) (header long_text) (take 2 (rows long_text))) ∅
  /\ length (entries (long_env [3%nat]) (header long_text) (take 2 (rows long_text)))
     = length (take 2 (rows long_text)).
Proof.
  apply (row_failure_ends_ingestion (long_env [3%nat]) (py "long.csv") long_text
           empty_world (take 2 (rows long_text))
           (4, [(KStr (py "id"), PStr (py "k")); (KStr (py "name"), PStr (py "v"))])
           (drop 3 (rows long_text))).
  - reflexivity.
  - reflexivity.
  - vm_compute. reflexivity.
  - vm_compute. reflexivity.
  - vm_compute. reflexivity.
Defined.

(** The claim itself fails on the code: in a source of 1020 rows, the
    [RPUSH] of the third row fails (command number 3 of the connection).  The
    run raises, the error log stays empty, and of the 1017 later rows with key
    [k] and the last row, with key [y], none is stored. *)
Lemma row_failure_aborts_example :
  length (rows long_text) = 1020%nat
  /\ faulty (long_env [3%nat]) 3 = true
  /\ fst (store_csv (long_env [3%nat]) (py "long.csv") empty_world) = Raise IndexError
  /\ history (snd (store_csv (long_env [3%nat]) (py "long.csv") empty_world))
     = [FLUSHDB;
        RPUSH (py "z")
          (stored_compress
             (Json.dumps [(KStr (py "id"), PStr (py "z")); (KStr (py "name"), PNone)]));
        RPUSH (py "k")
          (stored_compress
             (Json.dumps [(KStr (py "id"), PStr (py "k"));
                          (KStr (py "name"), PStr (py "v"))]));
        RPUSH (py "k")
          (stored_compress
             (Json.dumps [(KStr (py "id"), PStr (py "k"));
                          (KStr (py "name"), PStr (py "v"))]))]
  /\ db (snd (store_csv (long_env [3%nat]) (py "long.csv") empty_world)) !! py "k"
     = Some [stored_compress
               (Json.dumps [(KStr (py "id"), PStr (py "k"));
                            (KStr (py "name"), PStr (py "v"))])]
  /\ db (snd (store_csv (long_env [3%nat]) (py "long.csv") empty_world)) !! py "y"
     = None
  /\ filter (fun lm => fst lm = ERROR)
       (log (snd (store_csv (long_env [3%nat]) (py "long.csv") empty_world))) = [].
Proof. vm_compute. repeat split; reflexivity. Qed.

(** ** C5: the background save after a failed row *)

(** X3 (a failed row and the background save).  When the processing of a
    row raises, the rows before it having been processed without error,
    [store_csv] ends with the [IndexError] of its handler: after [FLUSHDB] it
    has sent [RPUSH] commands only, no [BGSAVE], and no background save was
    started. *)
Lemma failed_row_skips_bgsave env csv_file f w pre bad post :
  fs env csv_file = Some f ->
  faulty env (length (history w)) = false ->
  rows f = pre ++ bad :: post ->
  all_ok env (header f) (check_count f) (S (length (history w))) pre = true ->
  row_ok env (header f) (check_count f) (S (length (history w)) + length pre)
    (snd bad) = false ->
  fst (store_csv env csv_file w) = Raise IndexError
  /\ bgsaves (snd (store_csv env csv_file w)) = bgsaves w
  /\ exists cmds,
       history (snd (store_csv env csv_file w)) = history w ++ FLUSHDB :: cmds
       /\ Forall is_rpush cmds.
Proof.
  intros Hfs Hflush Hrows Hpre Hbad.
  destruct (store_csv_spec env csv_file f w Hfs Hflush)
    as (res & w' & cmds & Hrun & _ & Hh & _ & _ & Hshort).
  rewrite Hrun. cbn [fst snd].
  destruct Hshort as (-> & Hbg & Hcmds).
  - rewrite Hrows, (accepted_until_failure env _ _ pre bad post _ Hpre Hbad).
    destruct (all_ok_accepted env _ _ pre _ Hpre) as [_ ->].
    rewrite length_app. cbn [length]. lia.
  - split; [reflexivity |]. split; [exact Hbg |]. exists cmds. auto.
Qed.

Lemma failed_row_skips_bgsave_witness :
  fst (store_csv (long_env [3%nat]) (py "long.csv") empty_world) = Raise IndexError
  /\ bgsaves (snd (store_csv (long_env [3%nat]) (py "long.csv") empty_world))
     = bgsaves empty_world
  /\ exists cmds,
       history (snd (store_csv (long_env [3%nat]) (py "long.csv") empty_world))
       = history empty_world ++ FLUSHDB :: cmds
       /\ Forall is_rpush cmds.
Proof.
  apply (failed_row_skips_bgsave (long_env [3%nat]) (py "long.csv") long_text
           empty_world (take 2 (rows long_text))
           (4, [(KStr (py "id"), PStr (py "k")); (KStr (py "name"), PStr (py "v"))])
           (drop 3 (rows long_text))).
  - reflexivity.
  - reflexivity.
  - vm_compute. reflexivity.
  - vm_compute. reflexivity.
  - vm_compute. reflexivity.
Defined.

(** C5, on the source of the scenario.  Its first row fails (as every row
    of a source this short does, see C8), the handler of the failure raises
    [IndexError] when it formats its message, and [store_csv] ends with that
    exception: no [BGSAVE] is sent, no background save is started. *)
Theorem failed_run_skips_bgsave_example :
  fst (store_csv scenario_env (py "scenario.csv") empty_world) = Raise IndexError
  /\ bgsaves (snd (store_csv scenario_env (py "scenario.csv") empty_world)) = 0%nat
  /\ history (snd (store_csv scenario_env (py "scenario.csv") empty_world)) = [FLUSHDB]
  /\ filter (fun c => is_bgsave c = true)
       (history (snd (store_csv scenario_env (py "scenario.csv") empty_world))) = []
  /\ forall e r w, store_error e (Some r, w) = (Raise IndexError, (Some r, w)).
Proof.
  split; [vm_compute; reflexivity |].
  split; [vm_compute; reflexivity |].
  split; [vm_compute; reflexivity |].
  split; [vm_compute; reflexivity |].
  intros e r w. reflexivity.
Qed.

(** ** C8: the progress report *)

(** With [check_count] zero, the test [line_num % check_count] raises on
    every row, before anything is encoded or sent. *)
Lemma progress_check_raises env n row fns ln rest w :
  fns <> [] ->
  process_row env n 0 row (Some (at_row fns ln rest), w)
  = (Raise ZeroDivisionError, (Some (at_row fns ln rest), w)).
Proof. intros Hfns. destruct fns as [| key fns]; [congruence |]. reflexivity. Qed.

(** X2 (short sources).  A source of fewer than 1020 lines with at least
    one row is never stored: [check_count] is zero, the first row fails, the
    run raises, no background save is started and the namespace stays
    empty. *)
Lemma short_source_is_not_stored env csv_file f w :
  fs env csv_file = Some f ->
  faulty env (length (history w)) = false ->
  record_count f < 1020 ->
  rows f <> [] ->
  check_count f = 0
  /\ fst (store_csv env csv_file w) = Raise IndexError
  /\ db (snd (store_csv env csv_file w)) = ∅
  /\ bgsaves (snd (store_csv env csv_file w)) = bgsaves w.
Proof.
  intros Hfs Hflush Hn Hrows.
  assert (Hcc : check_count f = 0) by (apply round_hundreds_small; exact Hn).
  destruct (store_csv_spec env csv_file f w Hfs Hflush)
    as (res & w' & cmds & Hrun & Hdb & _ & _ & _ & Hshort).
  rewrite Hrun. cbn [fst snd]. rewrite Hcc, accepted_zero_check in *.
  destruct Hshort as (-> & Hbg & _).
  - destruct (rows f); [congruence | cbn; lia].
  - auto.
Qed.

Lemma short_source_is_not_stored_witness :
  check_count scenario_text = 0
  /\ fst (store_csv scenario_env (py "scenario.csv") stale_world) = Raise IndexError
  /\ db (snd (store_csv scenario_env (py "scenario.csv") stale_world)) = ∅
  /\ bgsaves (snd (store_csv scenario_env (py "scenario.csv") stale_world))
     = bgsaves stale_world.
Proof.
  apply (short_source_is_not_stored scenario_env (py "scenario.csv") scenario_text
           stale_world).
  - reflexivity.
  - reflexivity.
  - vm_compute. reflexivity.
  - vm_compute. discriminate.
Defined.

(** C8, on the source of the scenario, with [--verbose].  The total is 4,
    [check_count] is [round(4 // 20, -2)], that is 0, and the test that decides
    whether to report progress divides by it: the first row raises
    [ZeroDivisionError], no progress line is ever logged, and the run fails
    with nothing stored. *)
Theorem progress_check_fails_example :
  record_count scenario_text = 4
  /\ check_count scenario_text = 0
  /\ verbose scenario_env = true
  /\ (forall n row fns ln rest w,
        fns <> [] ->
        fst (process_row scenario_env n (check_count scenario_text) row
               (Some (at_row fns ln rest), w)) = Raise ZeroDivisionError)
  /\ fst (store_csv scenario_env (py "scenario.csv") empty_world) = Raise IndexError
  /\ log (snd (store_csv scenario_env (py "scenario.csv") empty_world))
     = [(DEBUG, Formatted ProcessingRecords [AInt 4])]
  /\ db (snd (store_csv scenario_env (py "scenario.csv") empty_world)) = ∅.
Proof.
  split; [vm_compute; reflexivity |].
  split; [vm_compute; reflexivity |].
  split; [reflexivity |].
  split.
  - intros n row fns ln rest w Hfns.
    change (check_count scenario_text) with 0.
    rewrite progress_check_raises by exact Hfns. reflexivity.
  - split; [vm_compute; reflexivity |].
    split; vm_compute; reflexivity.
Qed.

(** ** C3: the query scenario *)

(** C3, on the source of the scenario.  The source has three rows, two
    with key 1 and one with key 2, but [store_csv] raises on the first of them
    and stores nothing: afterwards [get_records] returns the empty list for the
    keys 1 and 2 as it does for the key 3. *)
Theorem scenario_is_not_stored :
  map (fun y => snd y) (rows scenario_text)
  = [[(KStr (py "id"), PStr (py "1")); (KStr (py "name"), PStr (py "alice"));
      (KStr (py "amount"), PStr (py "10"))];
     [(KStr (py "id"), PStr (py "1")); (KStr (py "name"), PStr (py "bob"));
      (KStr (py "amount"), PStr (py "20"))];
     [(KStr (py "id"), PStr (py "2")); (KStr (py "name"), PStr (py "carl"));
      (KStr (py "amount"), PStr (py "5"))]]
  /\ fst (store_csv scenario_env (py "scenario.csv") empty_world) = Raise IndexError
  /\ db (snd (store_csv scenario_env (py "scenario.csv") empty_world)) = ∅
  /\ fst (get_records scenario_env (py "1")
            (snd (store_csv scenario_env (py "scenario.csv") empty_world))) = Ok []
  /\ fst (get_records scenario_env (py "2")
            (snd (store_csv scenario_env (py "scenario.csv") empty_world))) = Ok []
  /\ fst (get_records scenario_env (py "3")
            (snd (store_csv scenario_env (py "scenario.csv") empty_world))) = Ok [].
Proof. repeat split; vm_compute; reflexivity. Qed.

(** ** Rows whose value count does not match the header *)

Lemma dict_get_set_eq k v d : dict_get k (dict_set k v d) = Some v.
Proof.
  induction d as [| [k' v'] d IH]; cbn [dict_set dict_get].
  - destruct (decide (k = k)); congruence.
  - destruct (decide (k' = k)) as [-> | Hne]; cbn [dict_get].
    + destruct (decide (k = k)); congruence.
    + destruct (decide (k' = k)); congruence.
Qed.

Lemma dict_get_set_ne k k' v d : k' <> k -> dict_get k (dict_set k' v d) = dict_get k d.
Proof.
  intros Hne. induction d as [| [k0 v0] d IH]; cbn [dict_set dict_get].
  - destruct (decide (k' = k)); congruence.
  - destruct (decide (k0 = k')) as [-> | Hne0]; cbn [dict_get].
    + destruct (decide (k' = k)); congruence.
    + destruct (decide (k0 = k)); [reflexivity | exact IH].
Qed.

(** A row with too many values keeps the surplus, as a list, under the
    key [None]. *)
Lemma make_row_long fns fields :
  (length fns < length fields)%nat ->
  dict_get KNone (DictReader.make_row fns fields)
  = Some (PList (drop (length fns) fields)).
Proof.
  intros Hlen. unfold DictReader.make_row.
  rewrite (proj2 (Nat.ltb_lt _ _) Hlen). apply dict_get_set_eq.
Qed.

Lemma fill_restval_get keys : forall d name,
  name ∈ keys -> dict_get (KStr name) (DictReader.fill_restval keys d) = Some PNone.
Proof.
  unfold DictReader.fill_restval.
  induction keys as [| k keys IH] using rev_ind; intros d name Hin.
  - apply elem_of_nil in Hin. contradiction.
  - rewrite fold_left_app. cbn [fold_left].
    destruct (decide (k = name)) as [-> | Hne].
    + apply dict_get_set_eq.
    + rewrite dict_get_set_ne by congruence.
      apply IH. apply elem_of_app in Hin as [Hin | Hin]; [exact Hin |].
      apply list_elem_of_singleton in Hin. congruence.
Qed.

(** A row with too few values has [None] for each missing field. *)
Lemma make_row_short fns fields name :
  (length fields < length fns)%nat ->
  name ∈ drop (length fields) fns ->
  dict_get (KStr name) (DictReader.make_row fns fields) = Some PNone.
Proof.
  intros Hlen Hin. unfold DictReader.make_row.
  rewrite (proj2 (Nat.ltb_ge _ _)) by lia.
  rewrite (proj2 (Nat.ltb_lt _ _) Hlen). apply fill_restval_get. exact Hin.
Qed.

(** A run that ends normally went through [FLUSHDB]. *)
Lemma store_csv_ok_flushed env csv_file w w' :
  store_csv env csv_file w = (Ok tt, w') -> faulty env (length (history w)) = false.
Proof.
  intros Hrun. destruct (faulty env (length (history w))) eqn:Hf; [| reflexivity].
  rewrite store_csv_flush_fails in Hrun by exact Hf. discriminate.
Qed.

(** A run that ends normally has stored the entry of every row, in the
    order of the source. *)
Lemma store_csv_ok_db env csv_file f w w' :
  fs env csv_file = Some f ->
  store_csv env csv_file w = (Ok tt, w') ->
  db w' = fold_left push (entries env (header f) (rows f)) ∅
  /\ (forall ln row, (ln, row) ∈ rows f ->
        exists kb, entry env (header f) row = Ok kb
                   /\ kb ∈ entries env (header f) (rows f))
  /\ bgsaves w' = S (bgsaves w).
Proof.
  intros Hfs Hrun. pose proof (store_csv_ok_flushed _ _ _ _ Hrun) as Hflush.
  destruct (store_csv_spec env csv_file f w Hfs Hflush)
    as (res & w0 & cmds & Hrun0 & Hdb & _ & _ & Hok & _).
  rewrite Hrun in Hrun0. injection Hrun0 as <- <-.
  destruct (Hok eq_refl) as (Hlen & Hbg & _).
  destruct (accepted_all env _ _ _ _ Hlen) as [Heq Hall].
  rewrite Heq in *. auto.
Qed.

(** ** The run that completes, and the query after it *)

Module QueryFacts.

Lemma count_newlines_app x y :
  count_newlines (x ++ y) = count_newlines x + count_newlines y.
Proof.
  unfold count_newlines, pystr. rewrite filter_app, length_app. lia.
Qed.

Lemma read_chunks_count b : forall fuel s,
  (0 < b)%nat -> (length s <= fuel)%nat ->
  fold_right N.add 0 (map count_newlines (read_chunks fuel b s)) = count_newlines s.
Proof.
  induction fuel as [| fuel IH]; intros s Hb Hlen.
  - destruct s; [reflexivity | cbn in Hlen; lia].
  - destruct s as [| c s]; [reflexivity |].
    cbn [read_chunks map fold_right]. rewrite IH.
    + rewrite <- count_newlines_app, take_drop. reflexivity.
    + exact Hb.
    + rewrite length_drop. cbn [length] in *. lia.
Qed.

(** X4 (what the total counts).  [_get_record_count] returns the number of
    line endings of the file, of whatever kind (LF, CR or CR LF), reading it
    by chunks: the header line counts, a last line without ending does not,
    and a quoted field that spans lines counts once for each line. *)
Lemma record_count_newlines f :
  record_count f = count_newlines (universal_newlines f).
Proof.
  unfold record_count. apply read_chunks_count; [| lia].
  unfold buffer. apply Nat.neq_0_lt_0, Nat.pow_nonzero. discriminate.
Qed.

Section WithEnv.

Variable env : Env.

Lemma entry_inv fns row k blob :
  entry env fns row = Ok (k, blob) ->
  blob = lzma_compress env (Json.dumps row)
  /\ (let+ key := first_item (Some fns) in getitem row key) = Ok (PStr k).
Proof.
  unfold entry. rewrite encode_row_total.
  destruct (first_item (Some fns)) as [key |]; cbn [rbind]; [| discriminate].
  destruct (getitem row key) as [name |]; cbn [rbind]; [| discriminate].
  destruct name as [s | | l]; cbn [encode_name rbind]; try discriminate.
  destruct (Utf8.encode s); cbn [rbind]; [| discriminate].
  intros [= -> <-]. split; reflexivity.
Qed.

Hypothesis lzma_round_trip :
  forall data, lzma_decompress env (lzma_compress env data) = Ok data.

Lemma decode_row_encoded row :
  is_text_record row = true ->
  decode_row env (lzma_compress env (Json.dumps row)) = Ok row.
Proof.
  intros Hrow. unfold decode_row. rewrite lzma_round_trip. cbn [rbind].
  apply BytesFacts.json_loads_bytes_dumps. exact Hrow.
Qed.

(** Decoding the blobs pushed under [k] gives the rows with [k] in the
    first column, in order. *)
Lemma decode_group fns k ys :
  Forall (fun y => exists kb, entry env fns (snd y) = Ok kb) ys ->
  forallb (fun y => is_text_record (snd y)) ys = true ->
  decode_rows env (group k (entries env fns ys)) = Ok (rows_with_key fns k ys).
Proof.
  induction 1 as [| [ln row] ys [[k' blob] He] _ IH]; intros Htext; [reflexivity |].
  cbn [forallb snd] in Htext. apply andb_true_iff in Htext as [Hrow Htext].
  specialize (IH Htext). cbn [snd] in He.
  rewrite entries_cons. cbn [snd]. rewrite He.
  destruct (entry_inv _ _ _ _ He) as [-> Hkey].
  unfold group, rows_with_key in *. rewrite !filter_cons. cbn [fst snd].
  rewrite Hkey.
  destruct (decide (k' = k)) as [-> | Hne].
  - destruct (decide (Ok (PStr k) = Ok (PStr k))); [| congruence].
    cbn [map snd decode_rows]. rewrite decode_row_encoded by exact Hrow.
    cbn [rbind]. rewrite IH. reflexivity.
  - destruct (decide (Ok (PStr k') = Ok (PStr k))); [congruence |]. exact IH.
Qed.

(** X1 (query after a run that completed).  After a [store_csv] that
    ended normally, and for every key that can be sent, [get_records] returns
    the rows of the source with that key in the first column, in the order of
    the source, provided the rows are records of text, [lzma.decompress]
    inverts [lzma.compress] and the command gets through. *)
Lemma query_after_store csv_file f w w' k kb :
  fs env csv_file = Some f ->
  store_csv env csv_file w = (Ok tt, w') ->
  forallb (fun y => is_text_record (snd y)) (rows f) = true ->
  Utf8.encode k = Ok kb ->
  faulty env (length (history w')) = false ->
  fst (get_records env k w') = Ok (rows_with_key (header f) k (rows f)).
Proof.
  intros Hfs Hrun Htext Hk Hsend.
  destruct (store_csv_ok_db env csv_file f w w' Hfs Hrun) as (Hdb & Hall & _).
  unfold get_records, redis_lrange, bind, lift_result, encode_name.
  rewrite Hk. cbn [rbind]. unfold send. rewrite Hsend. cbn [execute fst].
  rewrite lrange_full, Hdb, lookup_fold_push, lookup_empty.
  assert (Hg : default [] match group k (entries env (header f) (rows f)) with
                          | [] => None
                          | _ :: _ => Some (default [] None
                                              ++ group k (entries env (header f) (rows f)))
                          end
               = group k (entries env (header f) (rows f))).
  { destruct (group k (entries env (header f) (rows f))); reflexivity. }
  rewrite Hg. apply decode_group; [| exact Htext].
  apply Forall_forall. intros [ln row] Hin. destruct (Hall _ _ Hin) as (kb' & He & _).
  exists kb'. exact He.
Qed.

End WithEnv.

End QueryFacts.

Lemma query_after_store_witness :
  fst (get_records regular_env (py "q")
         (snd (store_csv regular_env (py "regular.csv") empty_world)))
  = Ok (rows_with_key (header regular_text) (py "q") (rows regular_text)).
Proof.
  apply (QueryFacts.query_after_store regular_env (fun data => eq_refl)
           (py "regular.csv") regular_text empty_world
           (snd (store_csv regular_env (py "regular.csv") empty_world))
           (py "q") (py "q")).
  - reflexivity.
  - vm_compute. reflexivity.
  - vm_compute. reflexivity.
  - reflexivity.
  - vm_compute. reflexivity.
Defined.

(** ** Runs that complete *)

Module CompleteFacts.

Section WithEnv.

Variable env : Env.

Lemma entry_ok_inv fns row k blob :
  entry env fns row = Ok (k, blob) ->
  exists key fns' kb,
    fns = key :: fns'
    /\ getitem row key = Ok (PStr k)
    /\ Utf8.encode k = Ok kb
    /\ blob = lzma_compress env (Json.dumps row).
Proof.
  unfold entry. rewrite encode_row_total.
  destruct fns as [| key fns']; cbn [first_item rbind]; [discriminate |].
  destruct (getitem row key) as [name |] eqn:Hg; cbn [rbind]; [| discriminate].
  destruct name as [s | | l]; cbn [encode_name rbind]; try discriminate.
  destruct (Utf8.encode s) as [kb |] eqn:Hs; cbn [rbind]; [| discriminate].
  intros [= -> <-]. exists key, fns', kb. repeat split; auto.
Qed.

Lemma progress_step (m n ln : N) v (r : option DictReader.t) w :
  (if m =? 0
   then
     let* v := lift_result (Ok v) in
     let* msg := lift_result
                   (str_format Progress [AVal v; AInt ln; AInt n; AProcessTime]) in
     on_world (logger_debug env msg)
   else ret tt) (r, w)
  = (Ok tt,
     (r, {| db := db w; bgsaves := bgsaves w; history := history w;
            opened := opened w;
            log := log w ++ (if verbose env && (m =? 0)
                             then [(DEBUG, Formatted Progress
                                             [AVal v; AInt ln; AInt n; AProcessTime])]
                             else []);
            stdout := stdout w |})).
Proof.
  destruct (m =? 0).
  - cbn. unfold logger_debug. destruct (verbose env); cbn.
    + reflexivity.
    + rewrite app_nil_r. destruct w; reflexivity.
  - rewrite andb_false_r, app_nil_r. destruct w; reflexivity.
Qed.

(** One turn of the loop on a row that is processed without error. *)
Lemma process_row_ok n cc row fns ln rest w k blob :
  entry env fns row = Ok (k, blob) ->
  (cc =? 0) = false ->
  faulty env (length (history w)) = false ->
  process_row env n cc row (Some (at_row fns ln rest), w)
  = (Ok tt,
     (Some (at_row fns ln rest),
      {| db := push (db w) (k, blob); bgsaves := bgsaves w;
         history := history w ++ [RPUSH k blob]; opened := opened w;
         log := log w ++ progress_line env n cc ln (PStr k);
         stdout := stdout w |})).
Proof.
  intros He Hcc Hsend.
  destruct (entry_ok_inv _ _ _ _ He) as (key & fns' & kb & -> & Hget & Hk & ->).
  unfold process_row. rewrite BytesFacts.utf8_encode_ascii by apply BytesFacts.dumps_ascii.
  unfold bind at 1. unfold on_reader at 1. rewrite ReaderFacts.fieldnames_at_row.
  unfold bind at 1. unfold lift_result at 1. cbn [first_item].
  unfold bind at 1. unfold on_reader at 1. cbn [gets at_row DictReader.line_num].
  unfold bind at 1. unfold lift_result at 1. unfold py_mod. rewrite Hcc.
  rewrite Hget. unfold bind at 1. rewrite progress_step.
  unfold bind at 1. unfold lift_result at 1.
  unfold bind at 1. unfold lift_result at 1.
  unfold on_world, redis_rpush, bind, lift_result. cbn [encode_name].
  rewrite Hk. cbn [rbind]. unfold send. cbn [history]. rewrite Hsend.
  reflexivity.
Qed.

Lemma reader_ok_scan items :
  reader_ok items = true ->
  match next_nonblank items with
  | NFail => False
  | NRow _ _ rest => reader_ok rest = true
  | NStop => True
  end.
Proof.
  induction items as [| [fs l | l] items IH]; cbn [reader_ok forallb next_nonblank];
    intros H; [exact I | | discriminate].
  destruct fs as [| f fs]; [apply IH; exact H | exact H].
Qed.

Lemma progress_lines_cons n cc fns y ys :
  progress_lines env n cc fns (y :: ys)
  = match entry env fns (snd y) with
    | Ok kb => progress_line env n cc (fst y) (PStr (fst kb))
    | Raise _ => []
    end ++ progress_lines env n cc fns ys.
Proof. reflexivity. Qed.

Lemma world_eta w :
  w = {| db := db w; bgsaves := bgsaves w; history := history w ++ [];
         opened := opened w; log := log w ++ []; stdout := stdout w |}.
Proof. destruct w. cbn. rewrite !app_nil_r. reflexivity. Qed.

(** The loop, started between two rows, on rows that are all processed
    without error. *)
Lemma for_rows_ok n cc fns : forall fuel items ln w,
  (length items < fuel)%nat ->
  reader_ok items = true ->
  all_ok env fns cc (length (history w)) (yields fns items) = true ->
  exists r',
    for_rows fuel (process_row env n cc) (Some (at_row fns ln items), w)
    = (Ok tt,
       (Some r',
        {| db := fold_left push (entries env fns (yields fns items)) (db w);
           bgsaves := bgsaves w;
           history := history w ++ map rpush_of (entries env fns (yields fns items));
           opened := opened w;
           log := log w ++ progress_lines env n cc fns (yields fns items);
           stdout := stdout w |})).
Proof.
  induction fuel as [| fuel IH]; intros items ln w Hlen Hread Hok; [lia |].
  cbn [for_rows]. unfold bind at 1. unfold on_reader at 1.
  pose proof (ReaderFacts.next_at_row fns ln items) as Hnext.
  pose proof (reader_ok_scan items Hread) as Hscan.
  rewrite (ReaderFacts.next_nonblank_yields fns items) in *.
  destruct (next_nonblank items) as [| | row ln' rest] eqn:Hnb.
  - destruct Hnext as [r' ->]. exists r'. cbn. rewrite <- world_eta. reflexivity.
  - contradiction.
  - rewrite Hnext. unfold bind at 1.
    cbn [all_ok] in Hok. apply andb_true_iff in Hok as [Hrow Hrest].
    unfold row_ok in Hrow.
    rewrite StoreFacts.entries_cons, progress_lines_cons. cbn [fst snd].
    destruct (entry env fns (DictReader.make_row fns row)) as [[k blob] |] eqn:He;
      [| discriminate].
    apply negb_true_iff, orb_false_iff in Hrow as [Hcc Hsend].
    rewrite (process_row_ok n cc _ fns ln' rest w k blob He Hcc Hsend).
    apply ReaderFacts.next_nonblank_shorter in Hnb.
    set (w1 := {| db := push (db w) (k, blob); bgsaves := bgsaves w;
                  history := history w ++ [RPUSH k blob]; opened := opened w;
                  log := log w ++ progress_line env n cc ln' (PStr k);
                  stdout := stdout w |}).
    assert (Hidx : length (history w1) = S (length (history w)))
      by (cbn; rewrite length_app; cbn; lia).
    destruct (IH rest ln' w1 ltac:(lia) Hscan ltac:(rewrite Hidx; exact Hrest))
      as [r' Hrun].
    exists r'. rewrite Hrun. cbn [w1 db bgsaves history opened log stdout fold_left map].
    rewrite <- !app_assoc. reflexivity.
Qed.

(** [store_csv] on a source all of whose rows are processed without error,
    when no command fails: the world it leaves. *)
Lemma store_csv_complete csv_file f w :
  fs env csv_file = Some f ->
  faulty env (length (history w)) = false ->
  reader_ok (Csv.reader f) = true ->
  all_ok env (header f) (check_count f) (S (length (history w))) (rows f) = true ->
  faulty env (S (length (history w)) + length (rows f)) = false ->
  store_csv env csv_file w
  = (Ok tt,
     {| db := fold_left push (entries env (header f) (rows f)) ∅;
        bgsaves := S (bgsaves w);
        history := history w
                   ++ FLUSHDB :: map rpush_of (entries env (header f) (rows f))
                   ++ [BGSAVE];
        opened := opened w ++ [csv_file; csv_file];
        log := log w ++ processing_line env (record_count f)
               ++ progress_lines env (record_count f) (check_count f)
                    (header f) (rows f);
        stdout := stdout w |}).
Proof.
  intros Hfs Hflush Hread Hok Hsave. unfold store_csv.
  unfold bind at 1. unfold redis_flushdb at 1. unfold bind at 1.
  unfold send at 1. rewrite Hflush. cbn [execute]. unfold ret at 1.
  unfold bind at 1. unfold open at 1. rewrite Hfs.
  unfold bind at 1. unfold with_locals at 1. unfold try_except at 1.
  cbn [db bgsaves history opened log stdout].
  unfold store_rows.
  unfold bind at 1. unfold on_world at 1. unfold _get_record_count.
  unfold bind at 1. unfold open at 1. rewrite Hfs. unfold ret at 1.
  fold (record_count f). fold (check_count f).
  cbn [db bgsaves history opened log stdout].
  unfold bind at 1. unfold lift_result at 1.
  cbn [str_format replacement_fields format_fields nth_error rbind].
  unfold bind at 1. unfold on_world at 1.
  set (w2 := {| db := ∅; bgsaves := bgsaves w; history := history w ++ [FLUSHDB];
                opened := (opened w ++ [csv_file]) ++ [csv_file];
                log := log w ++ processing_line env (record_count f);
                stdout := stdout w |}).
  assert (Hlog :
    logger_debug env (Formatted ProcessingRecords [AInt (record_count f)])
      {| db := ∅; bgsaves := bgsaves w; history := history w ++ [FLUSHDB];
         opened := (opened w ++ [csv_file]) ++ [csv_file]; log := log w;
         stdout := stdout w |} = (Ok tt, w2)).
  { unfold w2, logger_debug, processing_line, emit, modify, ret.
    destruct (verbose env); cbn [db bgsaves history opened log stdout];
      rewrite ?app_nil_r; reflexivity. }
  rewrite Hlog. unfold bind at 1. unfold assign_reader, modify.
  cbn [DictReader.reader DictReader.__init__].
  assert (Hidx : length (history w2) = S (length (history w)))
    by (cbn; rewrite length_app; cbn; lia).
  unfold header, rows in *.
  pose proof (ReaderFacts.next_initial f) as Hinit.
  assert (Hloop : exists r',
    for_rows (S (length (Csv.reader f)))
      (process_row env (record_count f) (check_count f))
      (Some (DictReader.__init__ f), w2)
    = (Ok tt,
       (Some r',
        {| db := fold_left push
                   (entries env
                      match Csv.reader f with Csv.Row h _ :: _ => h | _ => [] end
                      match Csv.reader f with
                      | Csv.Row h _ :: rest => yields h rest
                      | _ => []
                      end) ∅;
           bgsaves := bgsaves w;
           history := (history w ++ [FLUSHDB])
                      ++ map rpush_of
                           (entries env
                              match Csv.reader f with Csv.Row h _ :: _ => h | _ => [] end
                              match Csv.reader f with
                              | Csv.Row h _ :: rest => yields h rest
                              | _ => []
                              end);
           opened := (opened w ++ [csv_file]) ++ [csv_file];
           log := (log w ++ processing_line env (record_count f))
                  ++ progress_lines env (record_count f) (check_count f)
                       match Csv.reader f with Csv.Row h _ :: _ => h | _ => [] end
                       match Csv.reader f with
                       | Csv.Row h _ :: rest => yields h rest
                       | _ => []
                       end;
           stdout := stdout w |}))).
  { cbn [for_rows]. unfold bind at 1. unfold on_reader at 1.
    destruct (Csv.reader f) as [| [h ln | ln] rest] eqn:Hreader.
    - destruct Hinit as [r' ->]. exists r'. cbn. rewrite !app_nil_r. reflexivity.
    - rewrite Hinit.
      destruct (for_rows_ok (record_count f) (check_count f) h
                  (S (length (Csv.Row h ln :: rest))) rest ln w2
                  ltac:(cbn; lia) Hread ltac:(rewrite Hidx; exact Hok)) as [r' Hrun].
      cbn [for_rows] in Hrun. unfold bind at 1 in Hrun. unfold on_reader at 1 in Hrun.
      exists r'. exact Hrun.
    - discriminate. }
  destruct Hloop as [r' Hloop].
  change (DictReader.reader (DictReader.__init__ f)) with (Csv.reader f).
  rewrite Hloop. cbn [is_Exception].
  unfold redis_bgsave, bind, send. cbn [history].
  replace (length ((history w ++ [FLUSHDB]) ++ map rpush_of _))
    with (S (length (history w)) + length (rows f))%nat.
  - unfold rows. rewrite Hsave. cbn [execute db bgsaves opened log stdout].
    rewrite <- !app_assoc. reflexivity.
  - rewrite !length_app, length_map. cbn [length].
    destruct (StoreFacts.all_ok_accepted env _ _ _ _ Hok) as [_ Hlen].
    unfold rows. rewrite Hlen. lia.
Qed.

End WithEnv.

End CompleteFacts.
(** ** When a run completes, and what it leaves *)

Module OutcomeFacts.
Import ReaderFacts EngineFacts StoreFacts CompleteFacts.

Lemma reader_ok_stop items : next_nonblank items = NStop -> reader_ok items = true.
Proof.
  induction items as [| [fs l | l] items IH]; cbn [reader_ok forallb next_nonblank];
    intros H; [reflexivity | | discriminate].
  destruct fs as [| f fs]; [apply IH; exact H | discriminate].
Qed.

Lemma reader_ok_row items row ln rest :
  next_nonblank items = NRow row ln rest -> reader_ok items = reader_ok rest.
Proof.
  induction items as [| [fs l | l] items IH]; cbn [reader_ok forallb next_nonblank];
    intros H; [discriminate | | discriminate].
  destruct fs as [| f fs]; [apply IH; exact H |]. injection H as _ _ <-. reflexivity.
Qed.

Section WithEnv.

Variable env : Env.

(** The loop ends normally only if the underlying reader met no error. *)
Lemma for_rows_returns n cc fns : forall fuel items ln w s',
  (length items < fuel)%nat ->
  for_rows fuel (process_row env n cc) (Some (at_row fns ln items), w) = (Ok tt, s') ->
  reader_ok items = true.
Proof.
  induction fuel as [| fuel IH]; intros items ln w s' Hlen Hrun; [lia |].
  cbn [for_rows] in Hrun. unfold bind at 1 in Hrun. unfold on_reader at 1 in Hrun.
  pose proof (next_at_row fns ln items) as Hnext.
  destruct (next_nonblank items) as [| | row ln' rest] eqn:Hscan.
  - apply reader_ok_stop. exact Hscan.
  - destruct Hnext as [r' Hnext]. rewrite Hnext in Hrun. discriminate.
  - rewrite Hnext in Hrun. unfold bind at 1 in Hrun.
    destruct (process_row_spec env n cc (DictReader.make_row fns row) fns ln' rest w)
      as (res1 & w1 & Hbody & _).
    rewrite Hbody in Hrun. destruct res1 as [[] | e]; [| discriminate].
    rewrite (reader_ok_row _ _ _ _ Hscan).
    apply next_nonblank_shorter in Hscan.
    apply (IH rest ln' w1 s'); [lia | exact Hrun].
Qed.

Lemma store_rows_returns csv_file f w s' :
  fs env csv_file = Some f ->
  store_rows env csv_file f (None, w) = (Ok tt, s') ->
  reader_ok (Csv.reader f) = true.
Proof.
  intros Hfs. unfold store_rows.
  unfold bind at 1. unfold on_world at 1. unfold _get_record_count.
  unfold bind at 1. unfold open at 1. rewrite Hfs. unfold ret at 1.
  fold (record_count f). fold (check_count f).
  unfold bind at 1. unfold lift_result at 1.
  cbn [str_format replacement_fields format_fields nth_error rbind].
  unfold bind at 1. unfold on_world at 1.
  match goal with
  | |- context [logger_debug env ?m ?w0] =>
      assert (Hlog : exists w2, logger_debug env m w0 = (Ok tt, w2))
        by (unfold logger_debug; destruct (verbose env); eexists; reflexivity);
      destruct Hlog as [w2 ->]
  end.
  unfold bind at 1. unfold assign_reader, modify.
  cbn [DictReader.reader DictReader.__init__].
  pose proof (next_initial f) as Hinit.
  cbn [for_rows]. unfold bind at 1. unfold on_reader at 1.
  destruct (Csv.reader f) as [| [h ln | ln] rest] eqn:Hreader.
  - reflexivity.
  - rewrite Hinit. intros Hrun.
    apply (for_rows_returns (record_count f) (check_count f) h
             (S (length (Csv.Row h ln :: rest))) rest ln w2 s');
      [cbn; lia |].
    cbn [for_rows]. unfold bind at 1. unfold on_reader at 1. exact Hrun.
  - destruct Hinit as [r' ->]. discriminate.
Qed.

Lemma accepted_full fns cc ys : forall idx,
  length (accepted env fns cc idx ys) = length ys ->
  all_ok env fns cc idx ys = true.
Proof.
  induction ys as [| [ln row] ys IH]; intros idx Hlen; [reflexivity |].
  cbn [accepted all_ok length] in *. unfold row_ok.
  destruct (entry env fns row) as [kb |]; [| discriminate].
  destruct ((cc =? 0) || faulty env idx); [discriminate |].
  cbn [length] in Hlen. rewrite (IH (S idx)) by lia. reflexivity.
Qed.

(** What a [store_csv] that ends normally went through. *)
Lemma store_csv_ok_inv csv_file f w :
  fs env csv_file = Some f ->
  faulty env (length (history w)) = false ->
  fst (store_csv env csv_file w) = Ok tt ->
  reader_ok (Csv.reader f) = true
  /\ all_ok env (header f) (check_count f) (S (length (history w))) (rows f) = true
  /\ faulty env (S (length (history w)) + length (rows f)) = false.
Proof.
  intros Hfs Hflush. unfold store_csv.
  unfold bind at 1. unfold redis_flushdb at 1. unfold bind at 1.
  unfold send at 1. rewrite Hflush. cbn [execute]. unfold ret at 1.
  unfold bind at 1. unfold open at 1. rewrite Hfs.
  unfold bind at 1. unfold with_locals at 1. unfold try_except at 1.
  cbn [db bgsaves history opened log stdout].
  set (w1 := {| db := ∅; bgsaves := bgsaves w; history := history w ++ [FLUSHDB];
                opened := opened w ++ [csv_file]; log := log w;
                stdout := stdout w |}).
  destruct (store_rows_spec env csv_file f w1 Hfs)
    as (res & r' & w' & cmds & Hrun & _ & _ & _ & _ & Hh & _ & _ & Hok & _).
  pose proof (store_rows_returns csv_file f w1 (Some r', w') Hfs) as Hread.
  rewrite Hrun.
  assert (Hidx : length (history w1) = S (length (history w)))
    by (cbn; rewrite length_app; cbn; lia).
  rewrite Hidx in *.
  destruct res as [[] | e].
  - destruct (Hok eq_refl) as [Hall Hcmd].
    unfold redis_bgsave, bind, send.
    replace (length (history w')) with (S (length (history w)) + length (rows f))%nat.
    + destruct (faulty env (S (length (history w)) + length (rows f))) eqn:Hsave;
        cbn [fst]; [discriminate |].
      intros _. split; [apply Hread; exact Hrun |].
      split; [apply accepted_full; exact Hall | reflexivity].
    + rewrite Hh, Hcmd, length_app, length_map, Hall, Hidx. reflexivity.
  - destruct (is_Exception e); [rewrite store_error_raises |]; discriminate.
Qed.

Lemma progress_lines_filter n cc fns ys :
  Forall (fun y => exists kb, entry env fns (snd y) = Ok kb) ys ->
  progress_lines env n cc fns ys
  = if verbose env
    then map (progress_message n fns) (filter (fun y => fst y mod cc = 0) ys)
    else [].
Proof.
  induction 1 as [| [ln row] ys [[k blob] He] _ IH].
  - destruct (verbose env); reflexivity.
  - rewrite progress_lines_cons, IH, filter_cons. cbn [fst snd] in *. rewrite He.
    destruct (entry_ok_inv env _ _ _ _ He) as (key & fns' & kb & -> & Hget & _ & _).
    assert (Hmsg : progress_message n (key :: fns') (ln, row)
                   = (DEBUG, Formatted Progress
                               [AVal (PStr k); AInt ln; AInt n; AProcessTime])).
    { unfold progress_message, key_value. cbn [fst snd hd].
      unfold getitem in Hget. destruct (dict_get (KStr key) row); [| discriminate].
      injection Hget as ->. reflexivity. }
    unfold progress_line. destruct (verbose env); cbn [andb]; [| reflexivity].
    destruct (N.eqb_spec (ln mod cc) 0) as [Hz | Hz].
    + destruct (decide (ln mod cc = 0)); [| contradiction].
      cbn [map app]. rewrite Hmsg. reflexivity.
    + destruct (decide (ln mod cc = 0)); [contradiction | reflexivity].
Qed.

Lemma all_ok_entries fns cc ys : forall idx,
  all_ok env fns cc idx ys = true ->
  Forall (fun y => exists kb, entry env fns (snd y) = Ok kb) ys.
Proof.
  induction ys as [| [ln row] ys IH]; intros idx Hok; constructor.
  - cbn [all_ok] in Hok. apply andb_true_iff in Hok as [Hrow _].
    unfold row_ok in Hrow. cbn [snd].
    destruct (entry env fns row) as [kb |]; [exists kb; reflexivity | discriminate].
  - cbn [all_ok] in Hok. apply andb_true_iff in Hok as [_ Hrest]. exact (IH _ Hrest).
Qed.

(** X5 (what a run that completes leaves).  When the file can be opened,
    the reader meets no error, every row is processed without error and
    [FLUSHDB] and [BGSAVE] get through, [store_csv] returns normally.  It
    has sent [FLUSHDB], then one [RPUSH] for each row of the source, in the
    order of the source, then [BGSAVE], and nothing else; the namespace
    holds these entries only; one background save was started; the file was
    opened twice (once to read it, once to count its lines) and nothing was
    printed. *)
Theorem completed_run csv_file f w :
  fs env csv_file = Some f ->
  faulty env (length (history w)) = false ->
  reader_ok (Csv.reader f) = true ->
  all_ok env (header f) (check_count f) (S (length (history w))) (rows f) = true ->
  faulty env (S (length (history w)) + length (rows f)) = false ->
  exists w',
    store_csv env csv_file w = (Ok tt, w')
    /\ db w' = fold_left push (entries env (header f) (rows f)) ∅
    /\ history w'
       = history w ++ FLUSHDB :: map rpush_of (entries env (header f) (rows f))
         ++ [BGSAVE]
    /\ length (entries env (header f) (rows f)) = length (rows f)
    /\ bgsaves w' = S (bgsaves w)
    /\ opened w' = opened w ++ [csv_file; csv_file]
    /\ stdout w' = stdout w.
Proof.
  intros Hfs Hflush Hread Hok Hsave.
  rewrite (store_csv_complete env csv_file f w Hfs Hflush Hread Hok Hsave).
  eexists. split; [reflexivity |]. cbn [db history bgsaves opened stdout].
  destruct (all_ok_accepted env _ _ _ _ Hok) as [_ Hlen]. auto 10.
Qed.

(** X6 (when a run completes).  On a file that can be opened and once
    [FLUSHDB] got through, [store_csv] returns normally exactly when the
    reader meets no error, every row is processed without error
    ([check_count] is not zero, the row has an entry, its [RPUSH] gets
    through) and [BGSAVE] gets through. *)
Theorem store_returns_iff csv_file f w :
  fs env csv_file = Some f ->
  faulty env (length (history w)) = false ->
  fst (store_csv env csv_file w) = Ok tt
  <-> reader_ok (Csv.reader f) = true
      /\ all_ok env (header f) (check_count f) (S (length (history w))) (rows f) = true
      /\ faulty env (S (length (history w)) + length (rows f)) = false.
Proof.
  intros Hfs Hflush. split.
  - apply store_csv_ok_inv; assumption.
  - intros (Hread & Hok & Hsave).
    rewrite (store_csv_complete env csv_file f w Hfs Hflush Hread Hok Hsave).
    reflexivity.
Qed.

(** X7 (the log of a run that completes).  With [--verbose] a run that
    completes logs the total, then one progress line for each row whose
    line number is a multiple of [check_count], in order, showing the value
    of the first column, the line number and the total; without
    [--verbose] it logs nothing. *)
Theorem completed_run_log csv_file f w :
  fs env csv_file = Some f ->
  faulty env (length (history w)) = false ->
  reader_ok (Csv.reader f) = true ->
  all_ok env (header f) (check_count f) (S (length (history w))) (rows f) = true ->
  faulty env (S (length (history w)) + length (rows f)) = false ->
  log (snd (store_csv env csv_file w))
  = log w
    ++ if verbose env
       then (DEBUG, Formatted ProcessingRecords [AInt (record_count f)])
            :: map (progress_message (record_count f) (header f))
                 (filter (fun y => fst y mod check_count f = 0) (rows f))
       else [].
Proof.
  intros Hfs Hflush Hread Hok Hsave.
  rewrite (store_csv_complete env csv_file f w Hfs Hflush Hread Hok Hsave).
  cbn [snd log]. f_equal.
  rewrite (progress_lines_filter _ _ _ _ (all_ok_entries _ _ _ _ Hok)).
  unfold processing_line. destruct (verbose env); reflexivity.
Qed.

End WithEnv.

End OutcomeFacts.

Lemma completed_run_witness :
  exists w',
    store_csv (long_env []) (py "long.csv") empty_world = (Ok tt, w')
    /\ db w' = fold_left push (entries (long_env []) (header long_text) (rows long_text)) ∅
    /\ history w'
       = history empty_world
         ++ FLUSHDB :: map rpush_of (entries (long_env []) (header long_text) (rows long_text))
         ++ [BGSAVE]
    /\ length (entries (long_env []) (header long_text) (rows long_text))
       = length (rows long_text)
    /\ bgsaves w' = S (bgsaves empty_world)
    /\ opened w' = opened empty_world ++ [py "long.csv"; py "long.csv"]
    /\ stdout w' = stdout empty_world.
Proof.
  apply (OutcomeFacts.completed_run (long_env []) (py "long.csv") long_text empty_world);
    vm_compute; reflexivity.
Defined.

Lemma store_returns_iff_witness :
  fst (store_csv (long_env [3%nat]) (py "long.csv") empty_world) = Ok tt
  <-> reader_ok (Csv.reader long_text) = true
      /\ all_ok (long_env [3%nat]) (header long_text) (check_count long_text)
           (S (length (history empty_world))) (rows long_text) = true
      /\ faulty (long_env [3%nat])
           (S (length (history empty_world)) + length (rows long_text)) = false.
Proof.
  apply (OutcomeFacts.store_returns_iff (long_env [3%nat]) (py "long.csv") long_text
           empty_world); vm_compute; reflexivity.
Defined.

Lemma completed_run_log_witness :
  log (snd (store_csv (long_env []) (py "long.csv") empty_world))
  = log empty_world
    ++ if verbose (long_env [])
       then (DEBUG, Formatted ProcessingRecords [AInt (record_count long_text)])
            :: map (progress_message (record_count long_text) (header long_text))
                 (filter (fun y => fst y mod check_count long_text = 0) (rows long_text))
       else [].
Proof.
  apply (OutcomeFacts.completed_run_log (long_env []) (py "long.csv") long_text
           empty_world); vm_compute; reflexivity.
Defined.

(** ** Regular sources *)

Module RegularFacts.
Import ReaderFacts EngineFacts StoreFacts CompleteFacts OutcomeFacts.

(** [round(x, -2)]: a multiple of 100, at most 50 away. *)
Lemma round_hundreds_multiple x : round_hundreds x mod 100 = 0.
Proof.
  unfold round_hundreds.
  destruct (x mod 100 <? 50); [| destruct (50 <? x mod 100); [| destruct (N.even _)]];
    rewrite N.mul_comm; apply N.Div0.mod_mul.
Qed.

Lemma round_hundreds_near x :
  x <= round_hundreds x + 50 /\ round_hundreds x <= x + 50.
Proof.
  unfold round_hundreds.
  destruct (N.ltb_spec (x mod 100) 50); [divmod_lia |].
  destruct (N.ltb_spec 50 (x mod 100)); [divmod_lia |].
  destruct (N.even (x / 100)); divmod_lia.
Qed.

Lemma round_hundreds_large n : 1020 <= n -> 100 <= round_hundreds (n / 20).
Proof.
  intros Hn. pose proof (round_hundreds_near (n / 20)) as [Hlo _].
  pose proof (round_hundreds_multiple (n / 20)) as Hm.
  assert (51 <= n / 20) by divmod_lia.
  destruct (N.eq_dec (round_hundreds (n / 20)) 0) as [H0 | H0]; [lia |].
  divmod_lia.
Qed.

Lemma zip_dict_fresh h : forall fields d,
  NoDup (map fst d ++ map KStr h) ->
  DictReader.zip_dict h fields d = d ++ zip_row h fields.
Proof.
  induction h as [| name h IH]; intros fields d Hnd.
  - cbn. rewrite app_nil_r. reflexivity.
  - destruct fields as [| v fields]; [cbn; rewrite app_nil_r; reflexivity |].
    cbn [DictReader.zip_dict zip_row zip_with map] in *.
    rewrite CodecFacts.dict_set_fresh.
    + rewrite IH.
      * rewrite <- app_assoc. reflexivity.
      * rewrite map_app, <- app_assoc. exact Hnd.
    + apply NoDup_app in Hnd as (_ & Hd & _). intros Hin. apply (Hd _ Hin). left.
Qed.

Lemma NoDup_KStr (h : list pystr) : NoDup h -> NoDup (map KStr h).
Proof.
  intros Hnd. assert (Hinj : Inj (=) (=) KStr) by (intros x y [= ->]; reflexivity).
  apply NoDup_fmap_2; assumption.
Qed.

(** A row with as many values as the header has names: each name with its
    value, in the order of the header. *)
Lemma make_row_regular h fields :
  NoDup h -> length fields = length h ->
  DictReader.make_row h fields = zip_row h fields.
Proof.
  intros Hnd Hlen. unfold DictReader.make_row.
  rewrite Hlen, Nat.ltb_irrefl.
  apply (zip_dict_fresh h fields []). cbn [map app]. apply NoDup_KStr. exact Hnd.
Qed.

Lemma zip_row_keys h : forall fields,
  length fields = length h -> map fst (zip_row h fields) = map KStr h.
Proof.
  induction h as [| name h IH]; intros [| v fields] Hlen; try discriminate;
    [reflexivity |].
  cbn [zip_row zip_with map fst]. f_equal. apply IH. cbn in Hlen. lia.
Qed.

Lemma zip_row_text h : forall fields,
  forallb valid_text h = true -> forallb valid_text fields = true ->
  forallb is_text_item (zip_row h fields) = true.
Proof.
  induction h as [| name h IH]; intros [| v fields] Hh Hf; try reflexivity.
  cbn [forallb zip_row zip_with is_text_item] in *.
  apply andb_true_iff in Hh as [Hn Hh]. apply andb_true_iff in Hf as [Hv Hf].
  rewrite (JsonFacts.valid_text_stable _ Hn), (JsonFacts.valid_text_stable _ Hv).
  cbn [andb]. apply IH; assumption.
Qed.

Lemma zip_row_record h fields :
  NoDup h -> forallb valid_text h = true ->
  length fields = length h -> forallb valid_text fields = true ->
  is_text_record (zip_row h fields) = true.
Proof.
  intros Hnd Hh Hlen Hf. unfold is_text_record.
  rewrite zip_row_text by assumption. cbn [andb].
  apply bool_decide_eq_true. rewrite zip_row_keys by exact Hlen.
  apply NoDup_KStr. exact Hnd.
Qed.

Lemma utf8_encode_valid s : valid_text s = true -> exists b, Utf8.encode s = Ok b.
Proof.
  induction s as [| c s IH]; intros Hs; [exists []; reflexivity |].
  cbn [valid_text forallb] in Hs. apply andb_true_iff in Hs as [Hc Hs].
  destruct (IH Hs) as [b Hb]. cbn [Utf8.encode]. rewrite Hb.
  unfold is_scalar in Hc. apply andb_true_iff in Hc as [Hmax Hsur].
  apply negb_true_iff in Hsur. unfold Utf8.encode_char. rewrite Hsur, Hmax.
  destruct (c <? 0x80); [eexists; reflexivity |].
  destruct (c <? 0x800); [eexists; reflexivity |].
  destruct (c <? 0x10000); eexists; reflexivity.
Qed.

Section WithEnv.

Variable env : Env.

(** The entry of a regular row: the value of the first column and the
    encoded row. *)
Lemma entry_regular h fields :
  fields <> [] -> length fields = length h -> forallb valid_text fields = true ->
  entry env h (zip_row h fields)
  = Ok (hd [] fields, lzma_compress env (Json.dumps (zip_row h fields))).
Proof.
  intros Hne Hlen Hf. unfold entry. rewrite encode_row_total.
  destruct fields as [| v fields]; [contradiction |].
  destruct h as [| key h]; [discriminate |].
  cbn [first_item rbind zip_row zip_with]. unfold getitem. cbn [dict_get].
  destruct (decide (KStr key = KStr key)); [| congruence].
  cbn [rbind encode_name hd].
  cbn [forallb] in Hf. apply andb_true_iff in Hf as [Hv _].
  destruct (utf8_encode_valid v Hv) as [b ->]. reflexivity.
Qed.

Lemma regular_yields h items :
  NoDup h -> forallb (regular_item h) items = true ->
  Forall (regular_row h) (yields h items) /\ reader_ok items = true.
Proof.
  intros Hnd. induction items as [| [fields ln | ln] items IH];
    cbn [forallb yields reader_ok regular_item]; intros Hreg.
  - split; [constructor | reflexivity].
  - apply andb_true_iff in Hreg as [Hitem Hreg]. destruct (IH Hreg) as [Hys Hok].
    destruct fields as [| v fields]; [split; assumption |].
    apply andb_true_iff in Hitem as [Hlen Hf]. apply Nat.eqb_eq in Hlen.
    split; [| exact Hok]. constructor; [| exact Hys].
    exists (v :: fields). cbn [snd]. repeat split; try assumption; [discriminate |].
    apply make_row_regular; assumption.
  - discriminate.
Qed.

Lemma regular_all_ok h cc ys : forall idx,
  Forall (regular_row h) ys -> (cc =? 0) = false ->
  (forall i, faulty env i = false) ->
  all_ok env h cc idx ys = true.
Proof.
  intros idx Hys Hcc Hsend. revert idx.
  induction Hys as [| [ln row] ys (fields & Hne & Hlen & Hf & Hrow) _ IH]; intros idx;
    [reflexivity |].
  cbn [all_ok]. rewrite IH, andb_true_r. unfold row_ok. cbn [snd] in Hrow. subst row.
  rewrite (entry_regular h fields Hne Hlen Hf), Hcc, Hsend. reflexivity.
Qed.

Lemma regular_text_records h ys :
  NoDup h -> forallb valid_text h = true -> Forall (regular_row h) ys ->
  forallb (fun y => is_text_record (snd y)) ys = true.
Proof.
  intros Hnd Hh. induction 1 as [| y ys (fields & Hne & Hlen & Hf & Hrow) _ IH];
    [reflexivity |].
  cbn [forallb]. rewrite IH, andb_true_r, Hrow. apply zip_row_record; assumption.
Qed.

(** What [get_records] returns: the decoded list under the key. *)
Lemma get_records_db k kb w :
  Utf8.encode k = Ok kb ->
  faulty env (length (history w)) = false ->
  get_records env k w
  = (decode_rows env (default [] (db w !! k)),
     {| db := db w; bgsaves := bgsaves w;
        history := history w ++ [LRANGE k 0 (-1)]; opened := opened w;
        log := log w; stdout := stdout w |}).
Proof.
  intros Hk Hsend.
  unfold get_records, redis_lrange, bind, lift_result, encode_name.
  rewrite Hk. cbn [rbind]. unfold send. rewrite Hsend. cbn [execute].
  rewrite lrange_full. reflexivity.
Qed.

Lemma lookup_entries k l :
  default [] (fold_left push l (∅ : gmap pystr (list bytes)) !! k) = group k l.
Proof.
  rewrite lookup_fold_push, lookup_empty. destruct (group k l); reflexivity.
Qed.

(** X9 (a regular source, stored and queried).  Take a source whose
    header has distinct names and whose records all have as many values as
    the header has names (blank lines apart), of valid text, and of at
    least 1020 lines; a connection on which every command gets through; and
    an [lzma] whose [decompress] inverts [compress].  Then [store_csv]
    returns normally, and [get_records] on the state it leaves returns, for
    every key of valid text, the rows of the source with that key in the
    first column, in the order of the source (none for a key that is not in
    the source). *)
Theorem regular_source_round_trip csv_file f w k :
  fs env csv_file = Some f ->
  regular_source f = true ->
  1020 <= record_count f ->
  (forall i, faulty env i = false) ->
  (forall data, lzma_decompress env (lzma_compress env data) = Ok data) ->
  valid_text k = true ->
  exists w',
    store_csv env csv_file w = (Ok tt, w')
    /\ fst (get_records env k w') = Ok (rows_with_key (header f) k (rows f))
    /\ Forall (regular_row (header f)) (rows f).
Proof.
  intros Hfs Hreg Hn Hsend Hlzma Hk.
  unfold regular_source in Hreg. unfold header, rows.
  destruct (Csv.reader f) as [| [h ln | ln] rest] eqn:Hreader; try discriminate.
  apply andb_true_iff in Hreg as [Hreg Hrest]. apply andb_true_iff in Hreg as [Hnd Hh].
  apply bool_decide_eq_true in Hnd.
  destruct (regular_yields h rest Hnd Hrest) as [Hys Hread].
  assert (Hcc : (check_count f =? 0) = false).
  { apply N.eqb_neq. unfold check_count.
    pose proof (round_hundreds_large _ Hn). lia. }
  pose proof (regular_all_ok h (check_count f) (yields h rest)
                (S (length (history w))) Hys Hcc Hsend) as Hok.
  assert (Hrun := store_csv_complete env csv_file f w Hfs (Hsend _)).
  unfold header, rows in Hrun. rewrite Hreader in Hrun.
  specialize (Hrun Hread Hok (Hsend _)).
  eexists. split; [exact Hrun |]. split; [| exact Hys].
  destruct (utf8_encode_valid k Hk) as [kb Hkb].
  rewrite (get_records_db k kb _ Hkb (Hsend _)). cbn [fst db].
  rewrite lookup_entries.
  apply (QueryFacts.decode_group env Hlzma).
  - exact (all_ok_entries env _ _ _ _ Hok).
  - exact (regular_text_records h _ Hnd Hh Hys).
Qed.

End WithEnv.

(** X8 ([check_count]).  The interval of the progress lines is the
    twentieth of the total rounded to the nearest hundred: a multiple of 100
    within 50 of [n_records // 20]; it is zero exactly when the file has
    fewer than 1020 lines. *)
Theorem check_count_spec f :
  (check_count f = 0 <-> record_count f < 1020)
  /\ check_count f mod 100 = 0
  /\ record_count f / 20 <= check_count f + 50
  /\ check_count f <= record_count f / 20 + 50.
Proof.
  unfold check_count. split; [| split; [apply round_hundreds_multiple |
                                        apply round_hundreds_near]].
  split.
  - intros H0. destruct (N.lt_ge_cases (record_count f) 1020) as [| Hge]; [assumption |].
    pose proof (round_hundreds_large _ Hge). lia.
  - apply round_hundreds_small.
Qed.

Lemma zip_row_get h : forall fields i name v,
  NoDup h -> h !! i = Some name -> fields !! i = Some v ->
  dict_get (KStr name) (zip_row h fields) = Some (PStr v).
Proof.
  induction h as [| key h IH]; intros fields i name v Hnd Hh Hf; [discriminate |].
  destruct fields as [| v0 fields]; [discriminate |].
  apply NoDup_cons in Hnd as [Hkey Hnd].
  cbn [zip_row zip_with dict_get].
  destruct i as [| i]; cbn in Hh, Hf.
  - injection Hh as ->. injection Hf as ->.
    destruct (decide (KStr name = KStr name)); congruence.
  - destruct (decide (KStr key = KStr name)) as [[= ->] | _].
    + exfalso. apply Hkey. eapply list_elem_of_lookup_2. exact Hh.
    + exact (IH fields i name v Hnd Hh Hf).
Qed.

Lemma fill_restval_other keys : forall d k,
  k ∉ map KStr keys ->
  dict_get k (DictReader.fill_restval keys d) = dict_get k d.
Proof.
  unfold DictReader.fill_restval.
  induction keys as [| key keys IH]; intros d k Hk; [reflexivity |].
  cbn [fold_left map] in *. apply not_elem_of_cons in Hk as [Hne Hk].
  rewrite IH by exact Hk. apply dict_get_set_ne. congruence.
Qed.

(** X10 (the columns of a row).  When the names of the header are
    distinct, the row that [csv.DictReader] makes of a record holds, under
    the name of each column for which the record has a value, that value, be
    the record shorter or longer than the header or of the same length. *)
Theorem make_row_column h fields i name v :
  NoDup h -> h !! i = Some name -> fields !! i = Some v ->
  dict_get (KStr name) (DictReader.make_row h fields) = Some (PStr v).
Proof.
  intros Hnd Hh Hf. unfold DictReader.make_row.
  rewrite (zip_dict_fresh h fields []) by (cbn [map app]; apply NoDup_KStr; exact Hnd).
  cbn [app].
  pose proof (zip_row_get h fields i name v Hnd Hh Hf) as Hget.
  destruct (length h <? length fields)%nat.
  - rewrite dict_get_set_ne by discriminate. exact Hget.
  - destruct (length fields <? length h)%nat; [| exact Hget].
    rewrite fill_restval_other; [exact Hget |].
    intros Hin. apply list_elem_of_fmap in Hin as (name' & [= <-] & Hin).
    apply list_elem_of_lookup_1 in Hin as [j Hj]. rewrite lookup_drop in Hj.
    pose proof (NoDup_lookup _ _ _ _ Hnd Hh Hj) as ->.
    apply lookup_lt_Some in Hf. lia.
Qed.

End RegularFacts.

Lemma regular_source_round_trip_witness :
  exists w',
    store_csv regular_env (py "regular.csv") empty_world = (Ok tt, w')
    /\ fst (get_records regular_env (py "k") w')
       = Ok (rows_with_key (header regular_text) (py "k") (rows regular_text))
    /\ Forall (regular_row (header regular_text)) (rows regular_text).
Proof.
  apply (RegularFacts.regular_source_round_trip regular_env (py "regular.csv")
           regular_text empty_world (py "k")).
  - reflexivity.
  - vm_compute. reflexivity.
  - vm_compute. discriminate.
  - intros i. vm_compute. reflexivity.
  - intros data. reflexivity.
  - reflexivity.
Defined.

Lemma make_row_column_witness :
  dict_get (KStr (py "name"))
    (DictReader.make_row [py "id"; py "name"] [py "1"; py "alice"; py "extra"])
  = Some (PStr (py "alice")).
Proof.
  apply (RegularFacts.make_row_column [py "id"; py "name"]
           [py "1"; py "alice"; py "extra"] 1%nat (py "name") (py "alice")).
  - apply (bool_decide_eq_true_1 (NoDup [py "id"; py "name"])). vm_compute. reflexivity.
  - reflexivity.
  - reflexivity.
Defined.

(** ** The command line *)

Module MainFacts.
Import ReaderFacts EngineFacts StoreFacts CompleteFacts OutcomeFacts RegularFacts.


Section WithEnv.

Variable env : Env.


(** The list comprehension stops at the first blob that cannot be
    decoded. *)
Lemma decode_rows_failure pre bad post e :
  Forall (fun b => exists d, decode_row env b = Ok d) pre ->
  decode_row env bad = Raise e ->
  decode_rows env (pre ++ bad :: post) = Raise e.
Proof.
  intros Hpre Hbad. induction Hpre as [| b pre [d Hd] _ IH]; cbn [app decode_rows].
  - rewrite Hbad. reflexivity.
  - rewrite Hd, IH. reflexivity.
Qed.

(** [main] once the store was reached. *)
Lemma main_connected a input w :
  faulty env (length (history w)) = false ->
  main env a input w
  = match a with
    | Store => store_csv env input
    | Get =>
        let* records := get_records env input in
        let* _ := print_all records in
        print (PrintCount (length records))
    end (connected env w).
Proof.
  intros Hsend. unfold main, connected.
  unfold bind at 1. unfold logger_debug at 1.
  unfold bind at 1. unfold __init__, try_except, bind, redis_info, bind, send.
  unfold logger_debug, emit, modify, ret.
  destruct (verbose env); cbn [history]; rewrite Hsend; cbn [execute];
    cbn [db bgsaves history opened log stdout].
  - rewrite <- app_assoc. reflexivity.
  - rewrite app_nil_r. destruct w; reflexivity.
Qed.

Lemma connected_history w :
  length (history (connected env w)) = S (length (history w)).
Proof. cbn. rewrite length_app. cbn. lia. Qed.

(** [store_csv] raises nothing but [Exception]s. *)
Lemma store_csv_raises csv_file w e :
  fst (store_csv env csv_file w) = Raise e -> is_Exception e = true.
Proof.
  destruct (faulty env (length (history w))) eqn:Hflush.
  { rewrite store_csv_flush_fails by exact Hflush. intros [= <-]. reflexivity. }
  destruct (fs env csv_file) as [f |] eqn:Hfs.
  2:{ rewrite store_csv_missing_file by assumption. intros [= <-]. reflexivity. }
  unfold store_csv.
  unfold bind at 1. unfold redis_flushdb at 1. unfold bind at 1.
  unfold send at 1. rewrite Hflush. cbn [execute]. unfold ret at 1.
  unfold bind at 1. unfold open at 1. rewrite Hfs.
  unfold bind at 1. unfold with_locals at 1. unfold try_except at 1.
  cbn [db bgsaves history opened log stdout].
  match goal with
  | |- context [store_rows env csv_file f (None, ?w1)] =>
      destruct (store_rows_spec env csv_file f w1 Hfs)
        as (res & r' & w' & cmds & Hrun & _ & _ & _ & _ & _ & _ & Hres & _)
  end.
  rewrite Hrun. destruct Hres as [-> | (e' & -> & He')].
  - unfold redis_bgsave, bind, send. destruct (faulty env (length (history w')));
      cbn [fst]; [intros [= <-]; reflexivity | discriminate].
  - rewrite He', store_error_raises. intros [= <-]. reflexivity.
Qed.

Lemma exit_status_zero {A} (r : result A) :
  (forall e, r = Raise e -> is_Exception e = true) ->
  exit_status r = 0%Z -> exists a, r = Ok a.
Proof.
  intros Hexn. destruct r as [a | e]; [exists a; reflexivity |].
  specialize (Hexn e eq_refl). destruct e; cbn; try discriminate.
Qed.


(** X12 (a blob that cannot be decoded).  When one blob of the list
    under the key cannot be decompressed or parsed, while those before it
    can, [main] with the action [get] ends with the exception of that blob
    and exit status 1 and prints nothing: neither the records before it nor
    a count. *)
Theorem main_get_undecodable k kb w pre bad post e :
  faulty env (length (history w)) = false ->
  faulty env (S (length (history w))) = false ->
  Utf8.encode k = Ok kb ->
  db w !! k = Some (pre ++ bad :: post) ->
  Forall (fun b => exists d, decode_row env b = Ok d) pre ->
  decode_row env bad = Raise e ->
  is_Exception e = true ->
  e <> Unsupported ->
  fst (main env Get k w) = Raise e
  /\ exit_status (fst (main env Get k w)) = 1%Z
  /\ stdout (snd (main env Get k w)) = stdout w
  /\ db (snd (main env Get k w)) = db w.
Proof.
  intros Hinfo Hrange Hk Hdb Hpre Hbad He _.
  assert (Hrun : exists w', main env Get k w = (Raise e, w')
                            /\ stdout w' = stdout w /\ db w' = db w).
  { rewrite (main_connected Get k w Hinfo). unfold bind at 1.
    rewrite (get_records_db env k kb (connected env w) Hk)
      by (rewrite connected_history; exact Hrange).
    cbn [db connected]. rewrite Hdb.
    change (default [] (Some (pre ++ bad :: post))) with (pre ++ bad :: post).
    rewrite (decode_rows_failure pre bad post e Hpre Hbad).
    eexists. split; [reflexivity |]. split; reflexivity. }
  destruct Hrun as (w' & -> & Hout & Hdb'). cbn [fst snd].
  split; [reflexivity |]. split; [| split; assumption].
  destruct e; try reflexivity; discriminate.
Qed.

(** X13 (the exit status of a store).  [main] with the action [store]
    ends with exit status 0 exactly when [INFO] and [FLUSHDB] get through,
    the file can be opened, the reader meets no error, every row is
    processed without error and [BGSAVE] gets through; a single row that
    fails makes the status non-zero. *)
Theorem main_store_exit_status input w :
  exit_status (fst (main env Store input w)) = 0%Z
  <-> faulty env (length (history w)) = false
      /\ faulty env (S (length (history w))) = false
      /\ exists f,
           fs env input = Some f
           /\ reader_ok (Csv.reader f) = true
           /\ all_ok env (header f) (check_count f)
                (S (S (length (history w)))) (rows f) = true
           /\ faulty env (S (S (length (history w))) + length (rows f)) = false.
Proof.
  split.
  - intros Hstatus.
    destruct (faulty env (length (history w))) eqn:Hinfo.
    { exfalso. revert Hstatus. unfold main, bind at 1.
      assert (Hlog : exists w0, logger_debug env Arguments_ w = (Ok tt, w0)
                                /\ history w0 = history w)
        by (unfold logger_debug; destruct (verbose env); eexists; split; reflexivity).
      destruct Hlog as (w0 & -> & Hh). unfold bind at 1.
      rewrite init_unreachable by (rewrite Hh; exact Hinfo). discriminate. }
    rewrite (main_connected Store input w Hinfo) in Hstatus.
    apply exit_status_zero in Hstatus as [[] Hrun];
      [| intros e; apply store_csv_raises].
    pose proof (store_csv_ok_flushed env input (connected env w)
                  (snd (store_csv env input (connected env w)))) as Hflush.
    rewrite connected_history in Hflush.
    specialize (Hflush ltac:(rewrite <- Hrun; apply surjective_pairing)).
    split; [reflexivity |]. split; [exact Hflush |].
    destruct (fs env input) as [f |] eqn:Hfs.
    + exists f. split; [reflexivity |].
      pose proof (store_csv_ok_inv env input f (connected env w) Hfs) as Hinv.
      rewrite connected_history in Hinv. exact (Hinv Hflush Hrun).
    + rewrite store_csv_missing_file in Hrun;
        [discriminate | exact Hfs | rewrite connected_history; exact Hflush].
  - intros (Hinfo & Hflush & f & Hfs & Hread & Hok & Hsave).
    rewrite (main_connected Store input w Hinfo).
    pose proof (store_csv_complete env input f (connected env w) Hfs) as Hrun.
    rewrite connected_history in Hrun.
    rewrite (Hrun Hflush Hread Hok Hsave). reflexivity.
Qed.

End WithEnv.

End MainFacts.


Lemma main_get_undecodable_witness :
  fst (main scenario_env Get (py "old") stale_world) = Raise LZMAError
  /\ exit_status (fst (main scenario_env Get (py "old") stale_world)) = 1%Z
  /\ stdout (snd (main scenario_env Get (py "old") stale_world)) = stdout stale_world
  /\ db (snd (main scenario_env Get (py "old") stale_world)) = db stale_world.
Proof.
  apply (MainFacts.main_get_undecodable scenario_env (py "old") (py "old") stale_world
           [] [1; 2; 3] [] LZMAError).
  - reflexivity.
  - reflexivity.
  - reflexivity.
  - vm_compute. reflexivity.
  - constructor.
  - reflexivity.
  - reflexivity.
  - discriminate.
Defined.
(** ** Plain sources *)

Module CsvFacts.
Import Csv.

Lemma plain_char_inv c :
  plain_char c = true ->
  (c =? LF) = false /\ (c =? CR) = false /\ (c =? DELIMITER) = false
  /\ (c =? QUOTECHAR) = false.
Proof.
  unfold plain_char. intros H. apply negb_true_iff in H.
  repeat (apply orb_false_iff in H as [H ?]). auto.
Qed.

(** *** The lines *)

Lemma lines_from_line l : forall s cur,
  forallb (fun c => negb (is_nl c)) l = true ->
  lines_from (l ++ LF :: s) cur = (rev cur ++ l ++ [LF]) :: lines_from s [].
Proof.
  induction l as [| c l IH]; intros s cur Hl.
  - cbn [app lines_from]. rewrite N.eqb_refl. reflexivity.
  - cbn [forallb] in Hl. apply andb_true_iff in Hl as [Hc Hl].
    unfold is_nl in Hc. apply negb_true_iff, orb_false_iff in Hc as [H1 H2].
    cbn [app lines_from]. rewrite H1, H2, IH by exact Hl.
    cbn [rev]. rewrite <- app_assoc. reflexivity.
Qed.

Lemma join_fields_cons f g rest :
  join_fields (f :: g :: rest) = f ++ DELIMITER :: join_fields (g :: rest).
Proof. reflexivity. Qed.

(** The characters of a line of plain fields: plain characters and
    delimiters. *)
Lemma join_fields_chars fs :
  forallb plain_field fs = true ->
  Forall (fun c => plain_char c = true \/ c = DELIMITER) (join_fields fs).
Proof.
  induction fs as [| f fs IH]; intros Hfs; [constructor |].
  cbn [forallb] in Hfs. apply andb_true_iff in Hfs as [Hf Hfs].
  unfold plain_field in Hf. apply andb_true_iff in Hf as [Hf _].
  assert (Hchars : Forall (fun c => plain_char c = true \/ c = DELIMITER) f).
  { apply Forall_forall. intros c Hc. left.
    rewrite forallb_forall in Hf. apply Hf. apply list_elem_of_In. exact Hc. }
  destruct fs as [| g rest]; [exact Hchars |].
  rewrite join_fields_cons. apply Forall_app. split; [exact Hchars |].
  constructor; [right; reflexivity | exact (IH Hfs)].
Qed.

Lemma join_fields_no_nl fs :
  forallb plain_field fs = true ->
  forallb (fun c => negb (is_nl c)) (join_fields fs) = true.
Proof.
  intros Hfs. apply forallb_forall. intros c Hc.
  pose proof (join_fields_chars fs Hfs) as Hchars.
  rewrite Forall_forall in Hchars. apply list_elem_of_In in Hc.
  destruct (Hchars c Hc) as [Hp | ->]; [| reflexivity].
  apply plain_char_inv in Hp as (H1 & H2 & _). unfold is_nl. rewrite H1, H2. reflexivity.
Qed.

Lemma readlines_plain records :
  Forall (fun r => forallb plain_field r = true) records ->
  readlines (plain_text records) = map write_line records.
Proof.
  unfold readlines, plain_text.
  induction 1 as [| r records Hr _ IH]; [reflexivity |].
  cbn [map concat]. unfold write_line at 1. rewrite <- app_assoc. cbn [app].
  rewrite lines_from_line by (apply join_fields_no_nl; exact Hr).
  rewrite IH. reflexivity.
Qed.

(** *** The parser on a line *)

Lemma step_in_field_plain acc cur n c :
  plain_char c = true -> n < field_limit ->
  parse_process_char {| state := IN_FIELD; fields := acc; field := cur; field_len := n |}
    (Some c)
  = Ok {| state := IN_FIELD; fields := acc; field := c :: cur; field_len := n + 1 |}.
Proof.
  intros Hc Hn. apply plain_char_inv in Hc as (H1 & H2 & H3 & H4).
  unfold parse_process_char. cbn [state is_eol]. unfold is_nl. rewrite H1, H2, H3.
  cbn [orb]. unfold parse_add_char. cbn [field_len state fields field].
  rewrite (proj2 (N.leb_gt _ _) Hn). reflexivity.
Qed.

Lemma step_start_plain acc c :
  plain_char c = true ->
  parse_process_char {| state := START_FIELD; fields := acc; field := []; field_len := 0 |}
    (Some c)
  = Ok {| state := IN_FIELD; fields := acc; field := [c]; field_len := 1 |}.
Proof.
  intros Hc. apply plain_char_inv in Hc as (H1 & H2 & H3 & H4).
  unfold parse_process_char. cbn [state is_eol]. unfold is_nl. rewrite H1, H2, H3, H4.
  reflexivity.
Qed.

Lemma step_record c :
  is_nl c = false ->
  parse_process_char parse_reset (Some c)
  = parse_process_char
      {| state := START_FIELD; fields := []; field := []; field_len := 0 |} (Some c).
Proof.
  intros Hc. unfold parse_process_char, parse_reset. cbn [state]. rewrite Hc. reflexivity.
Qed.

Lemma step_in_field_end acc cur n c :
  c = DELIMITER \/ c = LF ->
  parse_process_char {| state := IN_FIELD; fields := acc; field := cur; field_len := n |}
    (Some c)
  = Ok {| state := if c =? DELIMITER then START_FIELD else EAT_CRNL;
          fields := rev cur :: acc; field := []; field_len := 0 |}.
Proof. intros [-> | ->]; reflexivity. Qed.

(** The rest of a field. *)
Lemma parse_in_field s : forall acc cur n rest,
  forallb plain_char s = true -> n + N.of_nat (length s) <= field_limit ->
  parse_line {| state := IN_FIELD; fields := acc; field := cur; field_len := n |}
    (s ++ rest)
  = parse_line {| state := IN_FIELD; fields := acc; field := rev s ++ cur;
                  field_len := n + N.of_nat (length s) |} rest.
Proof.
  induction s as [| c s IH]; intros acc cur n rest Hs Hn.
  - cbn [app rev length N.of_nat]. rewrite N.add_0_r. reflexivity.
  - cbn [forallb] in Hs. apply andb_true_iff in Hs as [Hc Hs].
    cbn [length] in Hn. rewrite Nat2N.inj_succ in Hn.
    cbn [app parse_line]. rewrite step_in_field_plain by (assumption || lia).
    cbn [rbind]. rewrite IH by (assumption || lia).
    cbn [rev length]. rewrite Nat2N.inj_succ, <- app_assoc. cbn [app].
    f_equal. f_equal. lia.
Qed.

(** A field from its first character to the character after it. *)
Lemma parse_field f acc c rest :
  plain_field f = true -> (c = DELIMITER \/ c = LF) ->
  parse_line {| state := START_FIELD; fields := acc; field := []; field_len := 0 |}
    (f ++ c :: rest)
  = parse_line {| state := if c =? DELIMITER then START_FIELD else EAT_CRNL;
                  fields := f :: acc; field := []; field_len := 0 |} rest.
Proof.
  intros Hf Hc. unfold plain_field in Hf. apply andb_true_iff in Hf as [Hf Hlen].
  apply N.leb_le in Hlen.
  destruct f as [| c0 s].
  - cbn [app parse_line]. destruct Hc as [-> | ->]; reflexivity.
  - cbn [forallb] in Hf. apply andb_true_iff in Hf as [Hc0 Hs].
    cbn [length] in Hlen. rewrite Nat2N.inj_succ in Hlen.
    cbn [app parse_line]. rewrite step_start_plain by exact Hc0. cbn [rbind].
    rewrite parse_in_field by (assumption || lia).
    cbn [parse_line].
    destruct Hc as [-> | ->]; rewrite step_in_field_end by auto; cbn [rbind];
      rewrite rev_app_distr, rev_involutive; reflexivity.
Qed.

(** The fields of a line, from the start of one of them. *)
Lemma parse_fields fs : forall acc,
  fs <> [] -> forallb plain_field fs = true ->
  parse_line {| state := START_FIELD; fields := acc; field := []; field_len := 0 |}
    (join_fields fs ++ [LF])
  = Ok {| state := START_RECORD; fields := rev fs ++ acc; field := []; field_len := 0 |}.
Proof.
  induction fs as [| f fs IH]; intros acc Hne Hfs; [contradiction |].
  cbn [forallb] in Hfs. apply andb_true_iff in Hfs as [Hf Hfs].
  destruct fs as [| g rest].
  - cbn [join_fields]. rewrite (parse_field f acc LF []) by auto. reflexivity.
  - rewrite join_fields_cons, <- app_assoc. cbn [app].
    rewrite (parse_field f acc DELIMITER) by auto.
    change (if DELIMITER =? DELIMITER then START_FIELD else EAT_CRNL) with START_FIELD.
    rewrite IH by (discriminate || exact Hfs).
    cbn [rev]. rewrite <- !app_assoc. reflexivity.
Qed.

(** The line of a record, from the start of the record. *)
Lemma parse_record fs :
  forallb plain_field fs = true ->
  parse_line parse_reset (write_line fs)
  = Ok {| state := START_RECORD; fields := rev (as_read fs); field := [];
          field_len := 0 |}.
Proof.
  intros Hfs. unfold write_line.
  destruct fs as [| f fs]; [reflexivity |].
  assert (Hstart : forall c l,
             is_nl c = false ->
             parse_line parse_reset (c :: l)
             = parse_line {| state := START_FIELD; fields := []; field := [];
                             field_len := 0 |} (c :: l)).
  { intros c l Hc. cbn [parse_line]. rewrite step_record by exact Hc. reflexivity. }
  pose proof (join_fields_no_nl _ Hfs) as Hnl.
  destruct f as [| c s].
  - destruct fs as [| g rest]; [reflexivity |].
    change (as_read ([] :: g :: rest)) with ([] :: g :: rest).
    rewrite join_fields_cons. cbn [app].
    rewrite Hstart by reflexivity.
    change (DELIMITER :: join_fields (g :: rest) ++ [LF])
      with (join_fields ([] :: g :: rest) ++ [LF]).
    rewrite parse_fields by (discriminate || exact Hfs).
    rewrite app_nil_r. reflexivity.
  - assert (Hc : is_nl c = false).
    { destruct fs as [| g rest]; cbn [join_fields app forallb] in Hnl;
        apply andb_true_iff in Hnl as [Hc _]; apply negb_true_iff in Hc; exact Hc. }
    change (as_read ((c :: s) :: fs)) with ((c :: s) :: fs).
    assert (Hline : exists l, join_fields ((c :: s) :: fs) ++ [LF] = c :: l).
    { destruct fs as [| g rest]; cbn [join_fields app]; eexists; reflexivity. }
    destruct Hline as [l Hline]. unfold pystr in *.
    rewrite Hline, Hstart by exact Hc. rewrite <- Hline.
    rewrite parse_fields by (discriminate || exact Hfs).
    rewrite app_nil_r. reflexivity.
Qed.

(** *** The reader on the lines *)

Lemma iter_lines_plain records : forall n,
  Forall (fun r => forallb plain_field r = true) records ->
  iter_lines (map write_line records) n parse_reset = numbered n records.
Proof.
  induction records as [| r records IH]; intros n Hall; [reflexivity |].
  apply Forall_cons in Hall as [Hr Hall].
  cbn [map iter_lines numbered]. rewrite parse_record by exact Hr.
  cbn [state fields]. rewrite rev_involutive, IH by exact Hall. reflexivity.
Qed.

(** The records of a plain text, as [csv.reader] gives them: one for each
    line, with the number of the line. *)
Lemma reader_plain records :
  Forall (fun r => forallb plain_field r = true) records ->
  reader (plain_text records) = numbered 0 records.
Proof.
  intros Hall. unfold reader. rewrite readlines_plain by exact Hall.
  apply iter_lines_plain. exact Hall.
Qed.

End CsvFacts.

(** ** A plain source, stored and queried *)

Module PlainFacts.
Import ReaderFacts EngineFacts StoreFacts CompleteFacts OutcomeFacts RegularFacts CsvFacts.

(** *** The number of lines *)

Lemma universal_newlines_no_cr s :
  Forall (fun c => c <> Csv.CR) s -> universal_newlines s = s.
Proof.
  induction 1 as [| c s Hc _ IH]; [reflexivity |].
  cbn [universal_newlines]. rewrite (proj2 (N.eqb_neq _ _) Hc), IH. reflexivity.
Qed.

Lemma write_line_chars r :
  forallb plain_field r = true ->
  Forall (fun c => c <> Csv.CR) (write_line r) /\ count_newlines (write_line r) = 1.
Proof.
  intros Hr. pose proof (join_fields_chars r Hr) as Hchars. unfold write_line. split.
  - apply Forall_app. split; [| repeat constructor; discriminate].
    eapply Forall_impl; [exact Hchars |]. intros c [Hp | ->]; [| discriminate].
    apply plain_char_inv in Hp as (_ & H2 & _). apply N.eqb_neq. exact H2.
  - rewrite QueryFacts.count_newlines_app.
    assert (H0 : count_newlines (join_fields r) = 0).
    { unfold count_newlines, pystr. induction Hchars as [| c l Hc _ IH]; [reflexivity |].
      rewrite filter_cons. destruct (decide (c = Csv.LF)) as [-> | _]; [| exact IH].
      destruct Hc as [Hp | Hd]; discriminate. }
    rewrite H0. reflexivity.
Qed.

Lemma plain_text_lines records :
  Forall (fun r => forallb plain_field r = true) records ->
  Forall (fun c => c <> Csv.CR) (plain_text records)
  /\ count_newlines (plain_text records) = N.of_nat (length records).
Proof.
  unfold plain_text. induction 1 as [| r records Hr _ [IH1 IH2]].
  - split; [constructor | reflexivity].
  - destruct (write_line_chars r Hr) as [H1 H2]. cbn [map concat length]. split.
    + apply Forall_app. split; assumption.
    + rewrite QueryFacts.count_newlines_app, H2, IH2. lia.
Qed.

(** [_get_record_count] on a plain text: the number of its records. *)
Lemma record_count_plain records :
  Forall (fun r => forallb plain_field r = true) records ->
  record_count (plain_text records) = N.of_nat (length records).
Proof.
  intros Hall. destruct (plain_text_lines records Hall) as [Hcr Hcount].
  unfold record_count. rewrite universal_newlines_no_cr by exact Hcr.
  rewrite QueryFacts.read_chunks_count; [exact Hcount | | lia].
  unfold buffer. apply Nat.neq_0_lt_0, Nat.pow_nonzero. discriminate.
Qed.

(** *** The rows *)

Lemma keyed_record_inv h r :
  keyed_record h r = true ->
  length r = length h /\ forallb plain_field r = true /\ forallb valid_text r = true
  /\ r <> [] /\ as_read r = r.
Proof.
  unfold keyed_record. intros H.
  apply andb_true_iff in H as [H Hkey]. apply andb_true_iff in H as [H Htext].
  apply andb_true_iff in H as [Hlen Hplain]. apply Nat.eqb_eq in Hlen.
  destruct r as [| [| c s] fs]; try discriminate.
  repeat split; auto.
Qed.

Lemma yields_step h r n rs :
  NoDup h -> keyed_record h r = true ->
  yields h (numbered n (r :: rs)) = (n + 1, zip_row h r) :: yields h (numbered (n + 1) rs).
Proof.
  intros Hnd Hr. destruct (keyed_record_inv h r Hr) as (Hlen & _ & _ & Hne & Hread).
  cbn [numbered yields]. rewrite Hread.
  destruct r as [| f fs]; [contradiction |].
  rewrite make_row_regular by assumption. reflexivity.
Qed.

Section WithEnv.

Variable env : Env.

Lemma plain_rows h : forall rs n,
  NoDup h -> forallb (keyed_record h) rs = true ->
  reader_ok (numbered n rs) = true
  /\ Forall (regular_row h) (yields h (numbered n rs))
  /\ entries env h (yields h (numbered n rs)) = map (record_entry env h) rs
  /\ forall k, rows_with_key h k (yields h (numbered n rs))
               = map (zip_row h) (filter (fun r => hd [] r = k) rs).
Proof.
  induction rs as [| r rs IH]; intros n Hnd Hrs.
  - repeat split. constructor.
  - cbn [forallb] in Hrs. apply andb_true_iff in Hrs as [Hr Hrs].
    destruct (IH (n + 1) Hnd Hrs) as (Hok & Hreg & Hent & Hkey).
    destruct (keyed_record_inv h r Hr) as (Hlen & _ & Htext & Hne & _).
    pose proof (entry_regular env h r Hne Hlen Htext) as He.
    rewrite yields_step by assumption.
    split; [exact Hok |].
    split; [constructor; [exists r; auto | exact Hreg] |].
    split.
    + rewrite entries_cons. cbn [snd]. rewrite He, Hent. reflexivity.
    + intros k. unfold rows_with_key in *. rewrite !filter_cons. cbn [snd].
      specialize (Hkey k).
      apply QueryFacts.entry_inv in He as [_ Hget]. rewrite Hget.
      destruct (decide (hd [] r = k)) as [-> | Hk].
      * destruct (decide (Ok (PStr k) = Ok (PStr k))); [| congruence].
        cbn [map snd]. rewrite Hkey. reflexivity.
      * destruct (decide (Ok (PStr (hd [] r)) = Ok (PStr k))); [congruence |].
        exact Hkey.
Qed.

(** X15 (a plain source, stored and queried).  Take a file made of a
    header line and at least 1019 record lines, each line the fields joined
    by commas and ended by a line feed; the fields are valid text without
    comma, quote or line ending, every record has as many fields as the
    header, the names of the header are distinct and first fields are not
    empty.  On a connection where every command gets through, [store_csv]
    returns normally; it sends [FLUSHDB], one [RPUSH] for each record in the
    order of the file (to the list named by the first field, of the
    compressed JSON object that maps each name of the header to the field of
    the record) and [BGSAVE]; afterwards, when [lzma.decompress] inverts
    [lzma.compress], [get_records] returns for a key the records whose first
    field is the key, in the order of the file, each as the mapping from
    names to fields. *)
Theorem plain_csv_round_trip csv_file h rs w k :
  fs env csv_file = Some (plain_text (h :: rs)) ->
  NoDup h ->
  keyed_record h h = true ->
  forallb (keyed_record h) rs = true ->
  (1019 <= length rs)%nat ->
  (forall i, faulty env i = false) ->
  (forall data, lzma_decompress env (lzma_compress env data) = Ok data) ->
  valid_text k = true ->
  exists w',
    store_csv env csv_file w = (Ok tt, w')
    /\ db w' = fold_left push (map (record_entry env h) rs) ∅
    /\ history w'
       = history w ++ FLUSHDB :: map rpush_of (map (record_entry env h) rs) ++ [BGSAVE]
    /\ fst (get_records env k w')
       = Ok (map (zip_row h) (filter (fun r => hd [] r = k) rs)).
Proof.
  intros Hfs Hnd Hh Hrs Hlen Hsend Hlzma Hk.
  destruct (keyed_record_inv h h Hh) as (_ & Hhp & Hht & _ & Hread).
  assert (Hall : Forall (fun r => forallb plain_field r = true) (h :: rs)).
  { constructor; [exact Hhp |]. apply Forall_forall. intros r Hr.
    rewrite forallb_forall in Hrs. apply list_elem_of_In, Hrs in Hr.
    apply keyed_record_inv in Hr. tauto. }
  pose proof (reader_plain (h :: rs) Hall) as Hreader.
  cbn [numbered] in Hreader. rewrite Hread in Hreader.
  destruct (plain_rows h rs (0 + 1) Hnd Hrs) as (Hok & Hreg & Hent & Hkey).
  assert (Hcc : (check_count (plain_text (h :: rs)) =? 0) = false).
  { apply N.eqb_neq. unfold check_count. rewrite record_count_plain by exact Hall.
    pose proof (round_hundreds_large (N.of_nat (length (h :: rs)))
                  ltac:(cbn [length]; lia)). lia. }
  pose proof (regular_all_ok env h _ _ (S (length (history w))) Hreg Hcc Hsend) as Hrows.
  assert (Hrun := store_csv_complete env csv_file _ w Hfs (Hsend _)).
  unfold header, rows in Hrun. rewrite Hreader in Hrun.
  specialize (Hrun Hok Hrows (Hsend _)). rewrite Hent in Hrun.
  eexists. split; [exact Hrun |]. cbn [db history].
  split; [reflexivity |]. split; [reflexivity |].
  destruct (utf8_encode_valid k Hk) as [kb Hkb].
  rewrite (get_records_db env k kb _ Hkb (Hsend _)). cbn [fst db].
  rewrite lookup_entries, <- Hent, <- Hkey.
  apply (QueryFacts.decode_group env Hlzma).
  - exact (all_ok_entries env _ _ _ _ Hrows).
  - exact (regular_text_records h _ Hnd Hht Hreg).
Qed.

End WithEnv.

(** X14 (how a plain file is read).  A file made of lines of plain fields
    joined by commas, each ended by a line feed, is read by [csv.reader] as one
    record for each line, with the fields of the line and the number of the
    line (a line with nothing on it as an empty record), without error; and
    [_get_record_count] returns the number of its lines, the header line
    included. *)
Theorem plain_text_is_read records :
  Forall (fun r => forallb plain_field r = true) records ->
  Csv.reader (plain_text records) = numbered 0 records
  /\ reader_ok (Csv.reader (plain_text records)) = true
  /\ record_count (plain_text records) = N.of_nat (length records).
Proof.
  intros Hall. rewrite reader_plain by exact Hall.
  split; [reflexivity |]. split; [| apply record_count_plain; exact Hall].
  generalize 0. clear Hall.
  induction records as [| r records IH]; intros n; [reflexivity | apply IH].
Qed.

End PlainFacts.

Lemma plain_text_is_read_witness :
  Csv.reader (plain_text [[py "id"; py "name"]; [py "1"; []]; []; [py "2"; py "b c"]])
  = numbered 0 [[py "id"; py "name"]; [py "1"; []]; []; [py "2"; py "b c"]]
  /\ reader_ok
       (Csv.reader (plain_text [[py "id"; py "name"]; [py "1"; []]; [];
                                [py "2"; py "b c"]])) = true
  /\ record_count (plain_text [[py "id"; py "name"]; [py "1"; []]; []; [py "2"; py "b c"]])
     = N.of_nat (length [[py "id"; py "name"]; [py "1"; []]; []; [py "2"; py "b c"]]).
Proof.
  apply (PlainFacts.plain_text_is_read
           [[py "id"; py "name"]; [py "1"; []]; []; [py "2"; py "b c"]]).
  repeat constructor.
Defined.

Lemma plain_csv_round_trip_witness :
  exists w',
    store_csv regular_env (py "regular.csv") empty_world = (Ok tt, w')
    /\ db w'
       = fold_left push
           (map (record_entry regular_env [py "id"; py "name"])
              (replicate 1018 [py "k"; py "v"]
               ++ [[py "q"; py "w"]; [py "k"; py "last"]])) ∅
    /\ history w'
       = history empty_world
         ++ FLUSHDB
            :: map rpush_of
                 (map (record_entry regular_env [py "id"; py "name"])
                    (replicate 1018 [py "k"; py "v"]
                     ++ [[py "q"; py "w"]; [py "k"; py "last"]]))
            ++ [BGSAVE]
    /\ fst (get_records regular_env (py "k") w')
       = Ok (map (zip_row [py "id"; py "name"])
               (filter (fun r => hd [] r = py "k")
                  (replicate 1018 [py "k"; py "v"]
                   ++ [[py "q"; py "w"]; [py "k"; py "last"]]))).
Proof.
  apply (PlainFacts.plain_csv_round_trip regular_env (py "regular.csv")
           [py "id"; py "name"]
           (replicate 1018 [py "k"; py "v"] ++ [[py "q"; py "w"]; [py "k"; py "last"]])
           empty_world (py "k")).
  - vm_compute. reflexivity.
  - apply (bool_decide_eq_true_1 (NoDup [py "id"; py "name"])). vm_compute. reflexivity.
  - vm_compute. reflexivity.
  - vm_compute. reflexivity.
  - rewrite length_app, length_replicate. cbn [length]. lia.
  - intros i. vm_compute. reflexivity.
  - intros data. reflexivity.
  - reflexivity.
Defined.


(** ** The codec on the rows of a reader *)

Module RowCodecFacts.
Import Json JsonFacts CodecFacts.

Lemma dumps_item_row k v tail :
  dumps_item (k, v) ++ tail
  = QUOTE :: escape_chars (key_text k) ++ QUOTE :: COLON :: SPACE :: dumps_val v ++ tail.
Proof.
  unfold dumps_item. cbn [fst snd].
  assert (Hkey : dumps_key k = QUOTE :: escape_chars (key_text k) ++ [QUOTE])
    by (destruct k; reflexivity).
  rewrite Hkey. cbn [app]. rewrite <- !app_assoc. reflexivity.
Qed.

Lemma encoded_string_tail s tail :
  encode_basestring_ascii s ++ tail = QUOTE :: escape_chars s ++ QUOTE :: tail.
Proof. unfold encode_basestring_ascii. cbn [app]. rewrite <- app_assoc. reflexivity. Qed.

(** The elements [dumps] writes for a list of strings are read back in
    order. *)
Lemma parse_array_dumps l : forall fuel acc rest,
  l <> [] -> forallb stable_text l = true -> (length l <= fuel)%nat ->
  parse_array_items fuel
    (join_items (map encode_basestring_ascii l) ++ RBRACKET :: rest) acc
  = Ok (rev acc ++ l, rest).
Proof.
  induction l as [| s l IH]; intros fuel acc rest Hne Hl Hf; [congruence |].
  cbn [forallb] in Hl. apply andb_true_iff in Hl as [Hs Hl].
  destruct fuel as [| fuel]; [cbn in Hf; lia |].
  cbn [map]. rewrite join_items_cons, encoded_string_tail.
  change (parse_array_items (S fuel) (QUOTE :: ?r) acc)
    with (let+ (v, r1) := scanstring r in
          match skip_ws r1 with
          | d :: r2 =>
              if d =? RBRACKET then Ok (rev (v :: acc), r2)
              else if d =? COMMA
                   then parse_array_items fuel (skip_ws r2) (v :: acc)
                   else Raise JSONDecodeError
          | [] => Raise JSONDecodeError
          end).
  rewrite scanstring_encoded by exact Hs. cbv beta iota delta [rbind].
  destruct l as [| s' l'].
  - cbn [map]. rewrite (skip_ws_stop RBRACKET) by reflexivity. cbv beta iota.
    rewrite N.eqb_refl. reflexivity.
  - remember (s' :: l') as l2 eqn:Hl2.
    assert (Hne2 : l2 <> []) by (subst l2; discriminate).
    replace (match map encode_basestring_ascii l2 with
             | [] => RBRACKET :: rest
             | _ :: _ => COMMA :: SPACE
                         :: join_items (map encode_basestring_ascii l2) ++ RBRACKET :: rest
             end)
      with (COMMA :: SPACE
            :: join_items (map encode_basestring_ascii l2) ++ RBRACKET :: rest)
      by (subst l2; reflexivity).
    rewrite (skip_ws_stop COMMA) by reflexivity. cbv beta iota.
    change (COMMA =? RBRACKET) with false. cbv iota. rewrite N.eqb_refl.
    assert (Ht : exists t, join_items (map encode_basestring_ascii l2) ++ RBRACKET :: rest
                           = QUOTE :: t).
    { subst l2. cbn [map]. rewrite join_items_cons, encoded_string_tail. eauto. }
    destruct Ht as [t Ht].
    rewrite Ht. rewrite (skip_ws_space QUOTE) by reflexivity. rewrite <- Ht.
    rewrite IH; [| exact Hne2 | exact Hl | cbn in Hf; lia].
    cbn [rev]. rewrite <- app_assoc. reflexivity.
Qed.

Lemma encoded_strings_length (l : list pystr) :
  (length l <= length (join_items (map encode_basestring_ascii l)))%nat.
Proof.
  pose proof (join_items_length (map encode_basestring_ascii l)) as Hl.
  rewrite length_map in Hl. apply Hl.
  intros x Hx. apply list_elem_of_fmap in Hx as (s & -> & _).
  unfold encode_basestring_ascii. cbn [length]. lia.
Qed.

(** A value [dumps] writes is read back. *)
Lemma parse_value_dumps v tail :
  stable_value v = true -> parse_value (dumps_val v ++ tail) = Ok (v, tail).
Proof.
  intros Hv. destruct v as [s | | l]; cbn [stable_value dumps_val] in *.
  - rewrite encoded_string_tail.
    change (parse_value (QUOTE :: ?r))
      with (let+ (v, r1) := scanstring r in Ok (PStr v, r1)).
    rewrite scanstring_encoded by exact Hv. reflexivity.
  - reflexivity.
  - destruct l as [| s l]; [reflexivity |].
    cbn [app]. rewrite <- app_assoc. cbn [app].
    assert (Ht : exists t,
               join_items (map encode_basestring_ascii (s :: l)) ++ RBRACKET :: tail
               = QUOTE :: t).
    { cbn [map]. rewrite join_items_cons, encoded_string_tail. eauto. }
    destruct Ht as [t Ht].
    set (r := join_items (map encode_basestring_ascii (s :: l)) ++ RBRACKET :: tail) in *.
    change (parse_value (LBRACKET :: r))
      with (match skip_ws r with
            | d :: r1 =>
                if d =? RBRACKET then Ok (PList [], r1)
                else let+ (l, r2) := parse_array_items (S (length r)) (skip_ws r) [] in
                     Ok (PList l, r2)
            | [] => Raise JSONDecodeError
            end).
    assert (Hskip : skip_ws r = r) by (rewrite Ht; reflexivity).
    rewrite Hskip. rewrite Ht at 1. cbv beta iota.
    change (QUOTE =? RBRACKET) with false. cbv iota.
    unfold r. rewrite parse_array_dumps; [reflexivity | discriminate | exact Hv |].
    rewrite length_app. pose proof (encoded_strings_length (s :: l)). lia.
Qed.

Lemma dumps_val_start v tail :
  exists c t, dumps_val v ++ tail = c :: t /\ is_ws c = false.
Proof.
  destruct v as [s | | l]; cbn [dumps_val].
  - rewrite encoded_string_tail. eauto.
  - exists 0x6e. eexists. split; reflexivity.
  - cbn [app]. eauto.
Qed.

(** One member of a row followed by [tail]. *)
Lemma parse_member_row k v fuel acc tail :
  stable_text (key_text k) = true -> stable_value v = true ->
  parse_object_items (S fuel) (dumps_item (k, v) ++ tail) acc
  = match skip_ws tail with
    | e :: r4 =>
        if e =? RBRACE then Ok (rev ((KStr (key_text k), v) :: acc), r4)
        else if e =? COMMA
             then parse_object_items fuel (skip_ws r4) ((KStr (key_text k), v) :: acc)
             else Raise JSONDecodeError
    | [] => Raise JSONDecodeError
    end.
Proof.
  intros Hk Hv. rewrite dumps_item_row.
  change (parse_object_items (S fuel) (QUOTE :: ?r) acc)
    with (let+ (k, r1) := scanstring r in
          match skip_ws r1 with
          | d :: r2 =>
              if d =? COLON then
                let+ (v, r3) := parse_value (skip_ws r2) in
                match skip_ws r3 with
                | e :: r4 =>
                    if e =? RBRACE then Ok (rev ((KStr k, v) :: acc), r4)
                    else if e =? COMMA
                         then parse_object_items fuel (skip_ws r4) ((KStr k, v) :: acc)
                         else Raise JSONDecodeError
                | [] => Raise JSONDecodeError
                end
              else Raise JSONDecodeError
          | [] => Raise JSONDecodeError
          end).
  rewrite scanstring_encoded by exact Hk. cbv beta iota delta [rbind].
  rewrite (skip_ws_stop COLON) by reflexivity. cbv beta iota.
  rewrite N.eqb_refl.
  destruct (dumps_val_start v tail) as (c & t & Ht & Hc).
  rewrite Ht, (skip_ws_space c) by exact Hc. rewrite <- Ht.
  rewrite parse_value_dumps by exact Hv. reflexivity.
Qed.

Lemma dumps_row_start r tail :
  r <> [] -> exists t, join_items (map dumps_item r) ++ tail = QUOTE :: t.
Proof.
  intros Hne. destruct r as [| [k v] r]; [congruence |].
  cbn [map]. rewrite join_items_cons, dumps_item_row. eauto.
Qed.

Lemma as_loaded_app r1 r2 : as_loaded (r1 ++ r2) = as_loaded r1 ++ as_loaded r2.
Proof. apply map_app. Qed.

(** The members [dumps] writes for a row are read back in order. *)
Lemma parse_object_items_row r : forall fuel acc rest,
  r <> [] -> forallb is_row_item r = true -> (length r <= fuel)%nat ->
  parse_object_items fuel (join_items (map dumps_item r) ++ RBRACE :: rest) acc
  = Ok (rev acc ++ as_loaded r, rest).
Proof.
  induction r as [| [k v] r IH]; intros fuel acc rest Hne Hv Hf; [congruence |].
  cbn [forallb] in Hv. apply andb_true_iff in Hv as [Hkv Hr].
  unfold is_row_item in Hkv. cbn [fst snd] in Hkv.
  apply andb_true_iff in Hkv as [Hk Hvv].
  destruct fuel as [| fuel]; [cbn in Hf; lia |].
  cbn [map]. rewrite join_items_cons, parse_member_row by assumption.
  destruct r as [| kv' r'].
  - cbn [map]. rewrite (skip_ws_stop RBRACE) by reflexivity. cbv beta iota.
    rewrite N.eqb_refl. reflexivity.
  - remember (kv' :: r') as r2 eqn:Hr2.
    assert (Hne2 : r2 <> []) by (subst r2; discriminate).
    destruct (dumps_row_start r2 (RBRACE :: rest) Hne2) as [t Ht].
    replace (match map dumps_item r2 with
             | [] => RBRACE :: rest
             | _ :: _ => COMMA :: SPACE :: join_items (map dumps_item r2) ++ RBRACE :: rest
             end)
      with (COMMA :: SPACE :: join_items (map dumps_item r2) ++ RBRACE :: rest)
      by (subst r2; reflexivity).
    rewrite (skip_ws_stop COMMA) by reflexivity. cbv beta iota.
    change (COMMA =? RBRACE) with false. cbv iota. rewrite N.eqb_refl.
    rewrite Ht. rewrite (skip_ws_space QUOTE) by reflexivity. rewrite <- Ht.
    rewrite IH; [| exact Hne2 | exact Hr | cbn in Hf; lia].
    cbn [rev as_loaded map fst snd]. rewrite <- app_assoc. reflexivity.
Qed.

Lemma as_loaded_keys r :
  map fst (as_loaded r) = map KStr (map (fun kv => key_text (fst kv)) r).
Proof. unfold as_loaded. rewrite !map_map. reflexivity. Qed.

(** [json.loads(json.dumps(r))] for a row: the row with its keys as
    strings. *)
Lemma loads_dumps_row r : is_row_record r = true -> loads (dumps r) = Ok (as_loaded r).
Proof.
  intros Hr. unfold is_row_record in Hr. apply andb_true_iff in Hr as [Hv Hnd].
  apply bool_decide_eq_true in Hnd.
  destruct r as [| kv r]; [reflexivity |].
  unfold dumps, loads. rewrite (skip_ws_stop LBRACE) by reflexivity. cbv beta iota.
  rewrite N.eqb_refl.
  destruct (dumps_row_start (kv :: r) [RBRACE] ltac:(discriminate)) as [t Ht].
  replace (skip_ws (join_items (map dumps_item (kv :: r)) ++ [RBRACE]))
    with (join_items (map dumps_item (kv :: r)) ++ [RBRACE])
    by (rewrite Ht; reflexivity).
  rewrite Ht at 1. cbv beta iota. change (QUOTE =? RBRACE) with false. cbv iota.
  rewrite parse_object_items_row; [| discriminate | exact Hv |].
  - cbn [rbind rev app skip_ws]. rewrite dict_of_pairs_NoDup; [reflexivity |].
    rewrite as_loaded_keys.
    assert (Hinj : Inj (=) (=) KStr) by (intros x y [= ->]; reflexivity).
    apply NoDup_fmap_2; assumption.
  - rewrite length_app.
    pose proof (join_items_length (map dumps_item (kv :: r))) as Hl.
    rewrite length_map in Hl.
    assert (length (kv :: r) <= length (join_items (map dumps_item (kv :: r))))%nat; [| lia].
    apply Hl. intros x Hx. apply list_elem_of_fmap in Hx as (kv' & -> & _).
    apply dumps_item_length.
Qed.

Lemma json_loads_bytes_row r :
  is_row_record r = true -> json_loads_bytes (dumps r) = Ok (as_loaded r).
Proof.
  intros Hr. unfold json_loads_bytes. rewrite BytesFacts.detect_encoding_dumps.
  rewrite BytesFacts.utf8_decode_ascii by apply BytesFacts.dumps_ascii. cbn [rbind].
  apply loads_dumps_row. exact Hr.
Qed.

End RowCodecFacts.

(** ** The rows of any source *)

Module RowFacts.
Import ReaderFacts EngineFacts StoreFacts CompleteFacts OutcomeFacts RegularFacts.
Import RowCodecFacts.

Lemma fill_restval_fresh keys : forall d,
  NoDup (map fst d ++ map KStr keys) ->
  DictReader.fill_restval keys d = d ++ map (fun n => (KStr n, PNone)) keys.
Proof.
  unfold DictReader.fill_restval.
  induction keys as [| name keys IH]; intros d Hnd.
  - cbn. rewrite app_nil_r. reflexivity.
  - cbn [fold_left map] in *. rewrite CodecFacts.dict_set_fresh.
    + rewrite IH.
      * rewrite <- app_assoc. reflexivity.
      * rewrite map_app, <- app_assoc. exact Hnd.
    + apply NoDup_app in Hnd as (_ & Hd & _). intros Hin. apply (Hd _ Hin). left.
Qed.

Lemma zip_row_names h : forall fields,
  map fst (zip_row h fields) = map KStr (take (length fields) h).
Proof.
  induction h as [| name h IH]; intros [| v fields]; try reflexivity.
  cbn [zip_row zip_with map fst length take]. f_equal. apply IH.
Qed.

(** What a row is made of: the names paired with the values, then either
    the surplus values under [None], or the names left with [None] as
    value. *)
Lemma make_row_form h fields :
  NoDup h ->
  DictReader.make_row h fields
  = zip_row h fields
    ++ if (length h <? length fields)%nat
       then [(KNone, PList (drop (length h) fields))]
       else map (fun n => (KStr n, PNone)) (drop (length fields) h).
Proof.
  intros Hnd. unfold DictReader.make_row.
  rewrite (zip_dict_fresh h fields []) by (cbn [map app]; apply NoDup_KStr; exact Hnd).
  cbn [app].
  destruct (length h <? length fields)%nat eqn:Hlong.
  - apply CodecFacts.dict_set_fresh. rewrite zip_row_names.
    intros Hin. apply list_elem_of_fmap in Hin as (n & [=] & _).
  - destruct (length fields <? length h)%nat eqn:Hshort.
    + apply fill_restval_fresh. rewrite zip_row_names, <- map_app, take_drop.
      apply NoDup_KStr. exact Hnd.
    + apply Nat.ltb_ge in Hlong, Hshort.
      rewrite drop_ge by lia. rewrite app_nil_r. reflexivity.
Qed.

Lemma text_item_row_item kv : is_text_item kv = true -> is_row_item kv = true.
Proof. destruct kv as [[k |] [v | |]]; try discriminate. intros H. exact H. Qed.

Lemma zip_row_items h fields :
  forallb valid_text h = true -> forallb valid_text fields = true ->
  forallb is_row_item (zip_row h fields) = true.
Proof.
  intros Hh Hf. pose proof (zip_row_text h fields Hh Hf) as Htext.
  apply forallb_forall. intros kv Hkv. apply text_item_row_item.
  rewrite forallb_forall in Htext. exact (Htext kv Hkv).
Qed.

Lemma forallb_drop {A} (P : A -> bool) n l :
  forallb P l = true -> forallb P (drop n l) = true.
Proof.
  intros Hl. apply forallb_forall. intros x Hx. rewrite forallb_forall in Hl.
  apply Hl. apply list_elem_of_In. apply list_elem_of_In in Hx.
  apply (subseteq_drop n l). exact Hx.
Qed.

Lemma forallb_stable l : forallb valid_text l = true -> forallb stable_text l = true.
Proof.
  intros Hl. apply forallb_forall. intros s Hs. apply JsonFacts.valid_text_stable.
  rewrite forallb_forall in Hl. exact (Hl s Hs).
Qed.

(** The names under which a row is written. *)
Lemma make_row_key_texts h fields :
  NoDup h ->
  map (fun kv => key_text (fst kv)) (DictReader.make_row h fields)
  = h ++ if (length h <? length fields)%nat then [py "null"] else [].
Proof.
  intros Hnd. rewrite (make_row_form h fields Hnd), map_app.
  rewrite <- (map_map fst key_text (zip_row h fields)), zip_row_names, map_map.
  cbn [key_text]. rewrite map_id.
  destruct (length h <? length fields)%nat eqn:Hlong.
  - apply Nat.ltb_lt in Hlong. rewrite take_ge by lia. reflexivity.
  - rewrite map_map. cbn [fst key_text]. rewrite map_id, take_drop, app_nil_r.
    reflexivity.
Qed.

(** The rows a reader makes are read back, when no name of the header is
    the word [null] or the record has no surplus values. *)
Lemma make_row_record h fields :
  NoDup h -> forallb valid_text h = true -> forallb valid_text fields = true ->
  (py "null" ∉ h \/ (length fields <= length h)%nat) ->
  is_row_record (DictReader.make_row h fields) = true.
Proof.
  intros Hnd Hh Hf Hnull. unfold is_row_record. apply andb_true_iff. split.
  - rewrite (make_row_form h fields Hnd), forallb_app, zip_row_items by assumption.
    cbn [andb]. destruct (length h <? length fields)%nat.
    + cbn [forallb]. rewrite andb_true_r. unfold is_row_item. cbn [fst snd stable_value].
      apply andb_true_iff. split; [reflexivity |].
      apply forallb_stable, forallb_drop. exact Hf.
    + apply forallb_forall. intros kv Hkv. apply in_map_iff in Hkv as (n & <- & Hn).
      unfold is_row_item. cbn [fst snd key_text stable_value]. rewrite andb_true_r.
      apply JsonFacts.valid_text_stable.
      pose proof (forallb_drop valid_text (length fields) h Hh) as Hd.
      rewrite forallb_forall in Hd. exact (Hd n Hn).
  - apply bool_decide_eq_true. rewrite make_row_key_texts by exact Hnd.
    destruct (length h <? length fields)%nat eqn:Hlong.
    + apply Nat.ltb_lt in Hlong. destruct Hnull as [Hnull | Hle]; [| lia].
      apply NoDup_app. split; [exact Hnd |]. split; [| apply NoDup_singleton].
      intros x Hx Hx'. apply list_elem_of_singleton in Hx'. subst x. contradiction.
    + rewrite app_nil_r. exact Hnd.
Qed.

(** A row without surplus values is read back as it was. *)
Lemma as_loaded_make_row h fields :
  NoDup h -> (length fields <= length h)%nat ->
  as_loaded (DictReader.make_row h fields) = DictReader.make_row h fields.
Proof.
  intros Hnd Hle. rewrite (make_row_form h fields Hnd).
  rewrite (proj2 (Nat.ltb_ge _ _) Hle). unfold as_loaded. rewrite map_app. f_equal.
  - unfold zip_row. generalize fields. clear.
    induction h as [| n h IH]; intros [| v fields]; try reflexivity.
    cbn [zip_with map fst snd key_text]. f_equal. apply IH.
  - rewrite map_map. reflexivity.
Qed.

(** The value of the first column. *)
Lemma make_row_key name h v fields :
  NoDup (name :: h) ->
  getitem (DictReader.make_row (name :: h) (v :: fields)) name = Ok (PStr v).
Proof.
  intros Hnd. rewrite (make_row_form _ _ Hnd). unfold getitem.
  cbn [zip_row zip_with app dict_get].
  destruct (decide (KStr name = KStr name)); [reflexivity | congruence].
Qed.

Section WithEnv.

Variable env : Env.

(** The entry of a row, whatever the number of its values. *)
Lemma entry_make_row h fields :
  NoDup h -> h <> [] -> fields <> [] -> valid_text (hd [] fields) = true ->
  entry env h (DictReader.make_row h fields)
  = Ok (hd [] fields, lzma_compress env (Json.dumps (DictReader.make_row h fields))).
Proof.
  intros Hnd Hh Hf Hv. unfold entry. rewrite encode_row_total.
  destruct h as [| name h]; [contradiction |].
  destruct fields as [| v fields]; [contradiction |].
  cbn [first_item rbind]. rewrite make_row_key by exact Hnd.
  cbn [rbind encode_name hd] in *.
  destruct (utf8_encode_valid v Hv) as [b ->]. reflexivity.
Qed.

Hypothesis lzma_round_trip :
  forall data, lzma_decompress env (lzma_compress env data) = Ok data.

Lemma decode_row_row row :
  is_row_record row = true ->
  decode_row env (lzma_compress env (Json.dumps row)) = Ok (as_loaded row).
Proof.
  intros Hrow. unfold decode_row. rewrite lzma_round_trip. cbn [rbind].
  apply json_loads_bytes_row. exact Hrow.
Qed.

(** Decoding the blobs pushed under [k] gives the rows with [k] in the
    first column as they are read back, in order. *)
Lemma decode_group_rows fns k ys :
  Forall (fun y => exists kb, entry env fns (snd y) = Ok kb) ys ->
  forallb (fun y => is_row_record (snd y)) ys = true ->
  decode_rows env (group k (entries env fns ys))
  = Ok (map as_loaded (rows_with_key fns k ys)).
Proof.
  induction 1 as [| [ln row] ys [[k' blob] He] _ IH]; intros Htext; [reflexivity |].
  cbn [forallb snd] in Htext. apply andb_true_iff in Htext as [Hrow Htext].
  specialize (IH Htext). cbn [snd] in He.
  rewrite entries_cons. cbn [snd]. rewrite He.
  destruct (QueryFacts.entry_inv _ _ _ _ _ He) as [-> Hkey].
  unfold group, rows_with_key in *. rewrite !filter_cons. cbn [fst snd].
  rewrite Hkey.
  destruct (decide (k' = k)) as [-> | Hne].
  - destruct (decide (Ok (PStr k) = Ok (PStr k))); [| congruence].
    cbn [map snd decode_rows]. rewrite decode_row_row by exact Hrow.
    cbn [rbind]. rewrite IH. reflexivity.
  - destruct (decide (Ok (PStr k') = Ok (PStr k))); [congruence |]. exact IH.
Qed.

End WithEnv.

End RowFacts.

(** ** Where the fields of a record come from *)

Module CsvTextFacts.
Import Csv.

Section Chars.

Variable P : codepoint -> Prop.

Lemma lines_from_chars n : forall s cur,
  (length s <= n)%nat -> Forall P s -> Forall P cur ->
  Forall (Forall P) (lines_from s cur).
Proof.
  induction n as [| n IH]; intros s cur Hlen Hs Hcur.
  - destruct s; [| cbn in Hlen; lia]. cbn [lines_from].
    destruct cur; [constructor |]. constructor; [apply Forall_rev; exact Hcur | constructor].
  - destruct s as [| c r].
    { cbn [lines_from]. destruct cur; [constructor |].
      constructor; [apply Forall_rev; exact Hcur | constructor]. }
    apply Forall_cons in Hs as [Hc Hr]. cbn [length] in Hlen.
    assert (Hline : Forall P (rev (c :: cur)))
      by (apply Forall_rev; constructor; assumption).
    cbn [lines_from]. destruct (c =? LF).
    { constructor; [exact Hline |]. apply IH; [lia | exact Hr | constructor]. }
    destruct (c =? CR).
    + destruct r as [| d r'].
      * constructor; [exact Hline | constructor].
      * apply Forall_cons in Hr as [Hd Hr']. cbn [length] in Hlen.
        destruct (d =? LF).
        -- constructor.
           ++ apply Forall_rev. repeat constructor; assumption.
           ++ apply IH; [lia | exact Hr' | constructor].
        -- constructor; [exact Hline |].
           apply IH; [cbn [length]; lia | constructor; assumption | constructor].
    + apply IH; [lia | exact Hr | constructor; assumption].
Qed.

Lemma parse_save_field_ok p : parser_ok P p -> parser_ok P (parse_save_field p).
Proof.
  intros [Hf Hfs]. split; [constructor |]. cbn [parse_save_field fields].
  constructor; [apply Forall_rev; exact Hf | exact Hfs].
Qed.

Lemma set_state_ok s p : parser_ok P p -> parser_ok P (set_state s p).
Proof. intros H. exact H. Qed.

Lemma parse_add_char_ok p c p' :
  parser_ok P p -> P c -> parse_add_char p c = Ok p' -> parser_ok P p'.
Proof.
  intros [Hf Hfs] Hc. unfold parse_add_char.
  destruct (field_limit <=? field_len p); [discriminate |].
  intros [= <-]. split; [constructor; assumption | exact Hfs].
Qed.

Lemma parse_add_char_state_ok p c s p' :
  parser_ok P p -> P c ->
  (let+ p1 := parse_add_char p c in Ok (set_state s p1)) = Ok p' -> parser_ok P p'.
Proof.
  intros Hp Hc. destruct (parse_add_char p c) as [p1 |] eqn:Ha; [| discriminate].
  cbn [rbind]. intros [= <-]. apply set_state_ok. eapply parse_add_char_ok; eassumption.
Qed.

Lemma parse_process_char_ok p c p' :
  parser_ok P p -> match c with Some ch => P ch | None => True end ->
  parse_process_char p c = Ok p' -> parser_ok P p'.
Proof.
  intros Hp Hc. unfold parse_process_char.
  destruct (state p); destruct c as [ch |];
    repeat match goal with
      | |- context [if ?b then _ else _] => destruct b
      end;
    try (intros [= <-]);
    try discriminate;
    auto using parse_save_field_ok, set_state_ok;
    try (apply parse_add_char_state_ok; auto using set_state_ok);
    try (apply parse_add_char_ok; auto using set_state_ok).
Qed.

Lemma parse_line_ok line : forall p p',
  parser_ok P p -> Forall P line -> parse_line p line = Ok p' -> parser_ok P p'.
Proof.
  induction line as [| c line IH]; intros p p' Hp Hline; cbn [parse_line].
  - apply parse_process_char_ok; [exact Hp | exact I].
  - apply Forall_cons in Hline as [Hc Hline].
    destruct (parse_process_char p (Some c)) as [p1 |] eqn:H1; [| discriminate].
    cbn [rbind]. apply IH; [| exact Hline].
    exact (parse_process_char_ok p (Some c) p1 Hp Hc H1).
Qed.

Lemma iter_lines_ok lines : forall n p,
  parser_ok P p -> Forall (Forall P) lines -> Forall (item_ok P) (iter_lines lines n p).
Proof.
  induction lines as [| line lines IH]; intros n p Hp Hlines; cbn [iter_lines].
  - destruct (negb (field_len p =? 0) || _); [| constructor].
    constructor; [| constructor]. cbn [item_ok]. apply Forall_rev.
    apply parse_save_field_ok. exact Hp.
  - apply Forall_cons in Hlines as [Hline Hlines].
    destruct (parse_line p line) as [p' |] eqn:Hparse;
      [| constructor; [exact I | constructor]].
    pose proof (parse_line_ok line p p' Hp Hline Hparse) as Hp'.
    assert (Hreset : parser_ok P parse_reset) by (split; constructor).
    destruct (state p'); try (apply IH; assumption).
    constructor; [| apply IH; assumption].
    cbn [item_ok]. apply Forall_rev. apply Hp'.
Qed.

Lemma reader_chars text : Forall P text -> Forall (item_ok P) (reader text).
Proof.
  intros Htext. unfold reader, readlines. apply iter_lines_ok.
  - split; constructor.
  - apply (lines_from_chars (length text)); [lia | exact Htext | constructor].
Qed.

End Chars.

(** The records of a valid text are made of valid text. *)
Lemma reader_valid f : valid_text f = true -> forallb item_valid (reader f) = true.
Proof.
  intros Hf.
  assert (Htext : Forall (fun c => is_scalar c = true) f).
  { apply Forall_forall. intros c Hc. unfold valid_text in Hf.
    rewrite forallb_forall in Hf. apply Hf, list_elem_of_In, Hc. }
  pose proof (reader_chars _ f Htext) as Hall. rewrite Forall_forall in Hall.
  apply forallb_forall. intros i Hi. apply list_elem_of_In in Hi.
  specialize (Hall i Hi).
  destruct i as [fs ln | ln]; [| reflexivity]. cbn [item_ok item_valid] in *.
  apply forallb_forall. intros v Hv. apply forallb_forall. intros c Hc.
  rewrite Forall_forall in Hall. apply list_elem_of_In in Hv. specialize (Hall v Hv).
  rewrite Forall_forall in Hall. apply Hall. apply list_elem_of_In. exact Hc.
Qed.

(** X16 (the reader invents no character).  Every character of every
    field of every record that [csv.reader] makes of a text is a character
    of the text. *)
Theorem reader_fields_from_text text fields ln v c :
  Row fields ln ∈ reader text -> v ∈ fields -> c ∈ v -> c ∈ text.
Proof.
  intros Hrow Hv Hc.
  assert (Htext : Forall (fun c => c ∈ text) text) by (apply Forall_forall; auto).
  pose proof (reader_chars _ text Htext) as Hall.
  rewrite Forall_forall in Hall. specialize (Hall _ Hrow).
  cbn [item_ok] in Hall. rewrite Forall_forall in Hall. specialize (Hall v Hv).
  rewrite Forall_forall in Hall. exact (Hall c Hc).
Qed.

End CsvTextFacts.

Lemma reader_fields_from_text_witness : 0x62 ∈ py "a,b c
".
Proof.
  apply (CsvTextFacts.reader_fields_from_text (py "a,b c
") [py "a"; py "b c"] 1 (py "b c") 0x62).
  - vm_compute. left.
  - right. left.
  - left.
Defined.

(** ** Any large source, stored and queried *)

Module AnyFacts.
Import ReaderFacts EngineFacts StoreFacts CompleteFacts OutcomeFacts RegularFacts.
Import RowCodecFacts RowFacts CsvTextFacts.

Lemma any_yields h items :
  forallb item_valid items = true -> Forall (reader_row h) (yields h items).
Proof.
  induction items as [| [fields ln | ln] items IH]; cbn [forallb yields item_valid];
    intros Hvalid; [constructor | | constructor].
  apply andb_true_iff in Hvalid as [Hf Hvalid].
  destruct fields as [| v fields]; [exact (IH Hvalid) |].
  constructor; [| exact (IH Hvalid)].
  exists (v :: fields). cbn [snd]. repeat split; [discriminate | exact Hf].
Qed.

Lemma dict_get_fresh k d : k ∉ map fst d -> dict_get k d = None.
Proof.
  induction d as [| [k' v'] d IH]; intros Hk; [reflexivity |].
  cbn [map fst dict_get] in *. apply not_elem_of_cons in Hk as [Hne Hk].
  destruct (decide (k' = k)); [congruence | exact (IH Hk)].
Qed.

Lemma dict_get_app_fresh k d1 d2 :
  k ∉ map fst d1 -> dict_get k (d1 ++ d2) = dict_get k d2.
Proof.
  induction d1 as [| [k' v'] d1 IH]; intros Hk; [reflexivity |].
  cbn [map fst dict_get app] in *. apply not_elem_of_cons in Hk as [Hne Hk].
  destruct (decide (k' = k)); [congruence | exact (IH Hk)].
Qed.

Lemma as_loaded_zip_row h : forall fields,
  as_loaded (zip_row h fields) = zip_row h fields.
Proof.
  unfold as_loaded, zip_row.
  induction h as [| n h IH]; intros [| v fields]; try reflexivity.
  cbn [zip_with map fst snd key_text]. f_equal. apply IH.
Qed.

Section WithEnv.

Variable env : Env.

Lemma reader_row_entry h y :
  NoDup h -> h <> [] -> reader_row h y ->
  exists fields,
    fields <> [] /\ snd y = DictReader.make_row h fields
    /\ entry env h (snd y) = Ok (hd [] fields, lzma_compress env (Json.dumps (snd y))).
Proof.
  intros Hnd Hh (fields & Hne & Hf & Hrow). exists fields.
  split; [exact Hne |]. split; [exact Hrow |]. rewrite Hrow.
  apply entry_make_row; try assumption.
  destruct fields as [| v fields]; [contradiction |].
  cbn [forallb hd] in *. apply andb_true_iff in Hf as [Hv _]. exact Hv.
Qed.

Lemma reader_rows_ok h cc ys : forall idx,
  NoDup h -> h <> [] -> Forall (reader_row h) ys -> (cc =? 0) = false ->
  (forall i, faulty env i = false) ->
  all_ok env h cc idx ys = true.
Proof.
  intros idx Hnd Hh Hys Hcc Hsend. revert idx.
  induction Hys as [| [ln row] ys Hy _ IH]; intros idx; [reflexivity |].
  cbn [all_ok]. rewrite IH, andb_true_r. unfold row_ok.
  destruct (reader_row_entry h (ln, row) Hnd Hh Hy) as (fields & _ & _ & He).
  cbn [snd] in He. rewrite He, Hcc, Hsend. reflexivity.
Qed.

Lemma reader_rows_records h ys :
  NoDup h -> forallb valid_text h = true -> py "null" ∉ h ->
  Forall (reader_row h) ys ->
  forallb (fun y => is_row_record (snd y)) ys = true.
Proof.
  intros Hnd Hh Hnull. induction 1 as [| y ys (fields & Hne & Hf & Hrow) _ IH];
    [reflexivity |].
  cbn [forallb]. rewrite IH, andb_true_r, Hrow. apply make_row_record; auto.
Qed.

(** The first record of a source with a header. *)
Lemma header_row f :
  header f <> [] -> exists ln rest, Csv.reader f = Csv.Row (header f) ln :: rest.
Proof.
  unfold header. destruct (Csv.reader f) as [| [h ln | ln] rest]; try contradiction.
  intros _. eauto.
Qed.

(** The run on a large source of valid text whose header has distinct
    names. *)
Lemma large_source_run csv_file f w :
  fs env csv_file = Some f ->
  valid_text f = true ->
  reader_ok (Csv.reader f) = true ->
  header f <> [] ->
  NoDup (header f) ->
  1020 <= record_count f ->
  (forall i, faulty env i = false) ->
  Forall (reader_row (header f)) (rows f)
  /\ forallb valid_text (header f) = true
  /\ all_ok env (header f) (check_count f) (S (length (history w))) (rows f) = true
  /\ store_csv env csv_file w
     = (Ok tt,
        {| db := fold_left push (entries env (header f) (rows f)) ∅;
           bgsaves := S (bgsaves w);
           history := history w
                      ++ FLUSHDB :: map rpush_of (entries env (header f) (rows f))
                      ++ [BGSAVE];
           opened := opened w ++ [csv_file; csv_file];
           log := log w ++ processing_line env (record_count f)
                  ++ progress_lines env (record_count f) (check_count f)
                       (header f) (rows f);
           stdout := stdout w |}).
Proof.
  intros Hfs Hf Hread Hh Hnd Hn Hsend.
  pose proof (reader_valid f Hf) as Hvalid.
  destruct (header_row f Hh) as (ln & rest & Hreader).
  assert (Hrows : rows f = yields (header f) rest)
    by (unfold rows; rewrite Hreader; reflexivity).
  rewrite Hreader in Hvalid. cbn [forallb item_valid] in Hvalid.
  apply andb_true_iff in Hvalid as [Hhv Hvalid].
  pose proof (any_yields (header f) rest Hvalid) as Hys. rewrite <- Hrows in Hys.
  assert (Hcc : (check_count f =? 0) = false).
  { apply N.eqb_neq. unfold check_count.
    pose proof (round_hundreds_large _ Hn). lia. }
  pose proof (reader_rows_ok (header f) (check_count f) (rows f)
                (S (length (history w))) Hnd Hh Hys Hcc Hsend) as Hok.
  split; [exact Hys |]. split; [exact Hhv |]. split; [exact Hok |].
  apply store_csv_complete; auto.
Qed.

(** X17 (any large source is stored in full).  Take a file of valid text
    with at least 1020 line endings that [csv.reader] reads without error
    and whose first record, the header, is not empty and has distinct names;
    and a connection on which every command gets through.  Then [store_csv]
    returns normally, whatever the number of values of the records: every
    record that is not blank gives one entry, pushed to the list named by its
    first value, and the namespace holds these entries only. *)
Theorem large_source_is_stored csv_file f w :
  fs env csv_file = Some f ->
  valid_text f = true ->
  reader_ok (Csv.reader f) = true ->
  header f <> [] ->
  NoDup (header f) ->
  1020 <= record_count f ->
  (forall i, faulty env i = false) ->
  exists w',
    store_csv env csv_file w = (Ok tt, w')
    /\ db w' = fold_left push (entries env (header f) (rows f)) ∅
    /\ length (entries env (header f) (rows f)) = length (rows f)
    /\ Forall (fun y => exists fields,
                 fields <> []
                 /\ snd y = DictReader.make_row (header f) fields
                 /\ entry env (header f) (snd y)
                    = Ok (hd [] fields, lzma_compress env (Json.dumps (snd y))))
         (rows f).
Proof.
  intros Hfs Hf Hread Hh Hnd Hn Hsend.
  destruct (large_source_run csv_file f w Hfs Hf Hread Hh Hnd Hn Hsend)
    as (Hys & _ & Hok & Hrun).
  eexists. split; [exact Hrun |]. cbn [db]. split; [reflexivity |].
  split; [apply (all_ok_accepted env _ _ _ _ Hok) |].
  eapply Forall_impl; [exact Hys |]. intros y Hy.
  apply reader_row_entry; assumption.
Qed.

(** X18 (any large source, stored and queried).  Take a file of valid
    text with at least 1020 line endings that [csv.reader] reads without
    error and whose header is not empty and has distinct names, none of them
    the word [null]; a connection on which every command gets through; and
    an [lzma] whose [decompress] inverts [compress].  Then [get_records]
    after [store_csv] returns, for every key of valid text, the rows of the
    source with that key in the first column, in the order of the source, as
    [json.loads] gives them back: the same rows, but for the surplus values
    of a record longer than the header, found under the string [null]
    instead of [None]. *)
Theorem any_source_round_trip csv_file f w k :
  fs env csv_file = Some f ->
  valid_text f = true ->
  reader_ok (Csv.reader f) = true ->
  header f <> [] ->
  NoDup (header f) ->
  py "null" ∉ header f ->
  1020 <= record_count f ->
  (forall i, faulty env i = false) ->
  (forall data, lzma_decompress env (lzma_compress env data) = Ok data) ->
  valid_text k = true ->
  exists w',
    store_csv env csv_file w = (Ok tt, w')
    /\ fst (get_records env k w')
       = Ok (map as_loaded (rows_with_key (header f) k (rows f))).
Proof.
  intros Hfs Hf Hread Hh Hnd Hnull Hn Hsend Hlzma Hk.
  destruct (large_source_run csv_file f w Hfs Hf Hread Hh Hnd Hn Hsend)
    as (Hys & Hhv & Hok & Hrun).
  eexists. split; [exact Hrun |].
  destruct (utf8_encode_valid k Hk) as [kb Hkb].
  rewrite (get_records_db env k kb _ Hkb (Hsend _)). cbn [fst db].
  rewrite lookup_entries.
  apply (decode_group_rows env Hlzma).
  - exact (all_ok_entries env _ _ _ _ Hok).
  - exact (reader_rows_records (header f) _ Hnd Hhv Hnull Hys).
Qed.

(** X19 (a row read back).  When [lzma.decompress] inverts
    [lzma.compress], the blob stored for the row that the reader makes of a
    record of valid text, under a header of distinct names of valid text none
    of which is the word [null], decodes to the row as [json.loads] gives it
    back.  For a record with no more values than the header this is the row
    itself, missing values being [None]; for a longer record the surplus
    values are found under the string [null] and nothing is found under
    [None]. *)
Theorem row_read_back h fields :
  (forall data, lzma_decompress env (lzma_compress env data) = Ok data) ->
  NoDup h -> forallb valid_text h = true -> forallb valid_text fields = true ->
  py "null" ∉ h ->
  decode_row env (lzma_compress env (Json.dumps (DictReader.make_row h fields)))
  = Ok (as_loaded (DictReader.make_row h fields))
  /\ ((length fields <= length h)%nat ->
      as_loaded (DictReader.make_row h fields) = DictReader.make_row h fields)
  /\ ((length h < length fields)%nat ->
      dict_get KNone (as_loaded (DictReader.make_row h fields)) = None
      /\ dict_get (KStr (py "null")) (as_loaded (DictReader.make_row h fields))
         = Some (PList (drop (length h) fields))).
Proof.
  intros Hlzma Hnd Hh Hf Hnull.
  split; [apply (decode_row_row env Hlzma), make_row_record; auto |].
  split; [apply as_loaded_make_row; exact Hnd |].
  intros Hlong. split.
  - apply dict_get_fresh. rewrite as_loaded_keys.
    intros Hin. apply list_elem_of_fmap in Hin as (n & [=] & _).
  - rewrite (make_row_form h fields Hnd), (proj2 (Nat.ltb_lt _ _) Hlong).
    rewrite as_loaded_app, dict_get_app_fresh.
    + cbn [as_loaded map fst snd key_text dict_get].
      destruct (decide (KStr (py "null") = KStr (py "null"))); congruence.
    + rewrite as_loaded_zip_row, zip_row_names.
      intros Hin. apply list_elem_of_fmap in Hin as (n & [= <-] & Hin).
      apply Hnull. apply (subseteq_take (length fields) h). exact Hin.
Qed.

(** X20 (a source without rows).  On a file that holds no row (it is
    empty, or holds a header only, or blank lines only after the header),
    whatever its number of lines and whatever [check_count] is (zero when
    the file has fewer than 1020 line endings: the loop body never runs),
    [store_csv] returns normally once [FLUSHDB] and [BGSAVE] get through: the
    namespace is left empty, the two commands are all it sent, and one
    background save was started. *)
Theorem source_without_rows csv_file f w :
  fs env csv_file = Some f ->
  reader_ok (Csv.reader f) = true ->
  rows f = [] ->
  faulty env (length (history w)) = false ->
  faulty env (S (length (history w))) = false ->
  exists w',
    store_csv env csv_file w = (Ok tt, w')
    /\ db w' = ∅
    /\ history w' = history w ++ [FLUSHDB; BGSAVE]
    /\ bgsaves w' = S (bgsaves w)
    /\ stdout w' = stdout w.
Proof.
  intros Hfs Hread Hrows Hflush Hsave.
  pose proof (store_csv_complete env csv_file f w Hfs Hflush Hread) as Hrun.
  rewrite Hrows in Hrun. cbn [all_ok length] in Hrun. rewrite Nat.add_0_r in Hrun.
  specialize (Hrun eq_refl Hsave).
  eexists. split; [exact Hrun |]. cbn. auto.
Qed.

End WithEnv.

End AnyFacts.

Lemma large_source_is_stored_witness :
  exists w',
    store_csv (long_env []) (py "long.csv") empty_world = (Ok tt, w')
    /\ db w' = fold_left push (entries (long_env []) (header long_text) (rows long_text)) ∅
    /\ length (entries (long_env []) (header long_text) (rows long_text))
       = length (rows long_text)
    /\ Forall (fun y => exists fields,
                 fields <> []
                 /\ snd y = DictReader.make_row (header long_text) fields
                 /\ entry (long_env []) (header long_text) (snd y)
                    = Ok (hd [] fields,
                          lzma_compress (long_env []) (Json.dumps (snd y))))
         (rows long_text).
Proof.
  apply (AnyFacts.large_source_is_stored (long_env []) (py "long.csv") long_text
           empty_world).
  - vm_compute. reflexivity.
  - vm_compute. reflexivity.
  - vm_compute. reflexivity.
  - vm_compute. discriminate.
  - apply (bool_decide_eq_true_1 (NoDup (header long_text))). vm_compute. reflexivity.
  - vm_compute. discriminate.
  - intros i. vm_compute. reflexivity.
Defined.

Lemma any_source_round_trip_witness :
  exists w',
    store_csv (long_env []) (py "long.csv") empty_world = (Ok tt, w')
    /\ fst (get_records (long_env []) (py "y") w')
       = Ok (map as_loaded (rows_with_key (header long_text) (py "y") (rows long_text))).
Proof.
  apply (AnyFacts.any_source_round_trip (long_env []) (py "long.csv") long_text
           empty_world (py "y")).
  - vm_compute. reflexivity.
  - vm_compute. reflexivity.
  - vm_compute. reflexivity.
  - vm_compute. discriminate.
  - apply (bool_decide_eq_true_1 (NoDup (header long_text))). vm_compute. reflexivity.
  - apply (bool_decide_eq_true_1 (py "null" ∉ header long_text)). vm_compute. reflexivity.
  - vm_compute. discriminate.
  - intros i. vm_compute. reflexivity.
  - intros data. reflexivity.
  - reflexivity.
Defined.

Lemma row_read_back_witness :
  decode_row scenario_env
    (lzma_compress scenario_env
       (Json.dumps (DictReader.make_row [py "id"; py "name"] [py "y"; py "1"; py "2"])))
  = Ok (as_loaded (DictReader.make_row [py "id"; py "name"] [py "y"; py "1"; py "2"]))
  /\ ((length [py "y"; py "1"; py "2"] <= length [py "id"; py "name"])%nat ->
      as_loaded (DictReader.make_row [py "id"; py "name"] [py "y"; py "1"; py "2"])
      = DictReader.make_row [py "id"; py "name"] [py "y"; py "1"; py "2"])
  /\ ((length [py "id"; py "name"] < length [py "y"; py "1"; py "2"])%nat ->
      dict_get KNone
        (as_loaded (DictReader.make_row [py "id"; py "name"] [py "y"; py "1"; py "2"]))
      = None
      /\ dict_get (KStr (py "null"))
           (as_loaded (DictReader.make_row [py "id"; py "name"]
                         [py "y"; py "1"; py "2"]))
         = Some (PList (drop (length [py "id"; py "name"]) [py "y"; py "1"; py "2"]))).
Proof.
  apply (AnyFacts.row_read_back scenario_env [py "id"; py "name"]
           [py "y"; py "1"; py "2"]).
  - intros data. reflexivity.
  - apply (bool_decide_eq_true_1 (NoDup [py "id"; py "name"])). vm_compute. reflexivity.
  - reflexivity.
  - reflexivity.
  - apply (bool_decide_eq_true_1 (py "null" ∉ [py "id"; py "name"])).
    vm_compute. reflexivity.
Defined.

Lemma source_without_rows_witness :
  exists w',
    store_csv header_only_env (py "header.csv") stale_world = (Ok tt, w')
    /\ db w' = ∅
    /\ history w' = history stale_world ++ [FLUSHDB; BGSAVE]
    /\ bgsaves w' = S (bgsaves stale_world)
    /\ stdout w' = stdout stale_world.
Proof.
  apply (AnyFacts.source_without_rows header_only_env (py "header.csv")
           header_only_text stale_world); reflexivity.
Defined.

(** ** Texts without quotes *)

Module UnquotedFacts.
Import Csv.

Lemma lines_from_shape n : forall s cur,
  (length s <= n)%nat -> Forall (fun c => is_nl c = false) cur ->
  Forall line_shape (lines_from s cur).
Proof.
  induction n as [| n IH]; intros s cur Hlen Hcur.
  - destruct s; [| cbn in Hlen; lia]. cbn [lines_from].
    destruct cur; [constructor |]. constructor; [| constructor].
    exists (rev (c :: cur)), []. rewrite app_nil_r.
    split; [reflexivity |]. split; [apply Forall_rev; exact Hcur | reflexivity].
  - destruct s as [| c r].
    { cbn [lines_from]. destruct cur; [constructor |]. constructor; [| constructor].
      exists (rev (c :: cur)), []. rewrite app_nil_r.
      split; [reflexivity |]. split; [apply Forall_rev; exact Hcur | reflexivity]. }
    cbn [length] in Hlen. cbn [lines_from].
    assert (Hbody : Forall (fun c => is_nl c = false) (rev cur))
      by (apply Forall_rev; exact Hcur).
    destruct (N.eqb_spec c LF) as [-> | Hlf].
    { constructor; [| apply IH; [lia | constructor]].
      exists (rev cur), [LF]. cbn [rev]. auto. }
    destruct (N.eqb_spec c CR) as [-> | Hcr].
    + destruct r as [| d r'].
      * constructor; [| constructor]. exists (rev cur), [CR]. cbn [rev]. auto.
      * cbn [length] in Hlen. destruct (N.eqb_spec d LF) as [-> | Hd].
        -- constructor; [| apply IH; [lia | constructor]].
           exists (rev cur), [CR; LF]. cbn [rev]. rewrite <- app_assoc. auto.
        -- constructor; [| apply IH; [cbn [length]; lia | constructor]].
           exists (rev cur), [CR]. cbn [rev]. auto.
    + apply IH; [lia |]. constructor; [| exact Hcur].
      unfold is_nl. apply orb_false_iff. split; apply N.eqb_neq; assumption.
Qed.

(** A character that is neither a line ending nor a quote, outside quoted
    fields. *)
Lemma body_char p c :
  settled p = true -> is_nl c = false -> (c =? QUOTECHAR) = false ->
  field_len p < field_limit ->
  exists p',
    parse_process_char p (Some c) = Ok p'
    /\ settled p' = true /\ field_len p' <= field_len p + 1.
Proof.
  intros Hp Hnl Hq Hlen. unfold settled in Hp. unfold parse_process_char.
  assert (Hlim : (field_limit <=? field_len p) = false) by (apply N.leb_gt; exact Hlen).
  destruct (state p) eqn:Hstate; try discriminate; cbn [is_eol]; rewrite ?Hnl, ?Hq;
    destruct (c =? DELIMITER);
    unfold parse_add_char, set_state, parse_save_field, settled;
    cbn [field_len state fields field]; rewrite ?Hlim; cbn [rbind];
    eexists; (split; [reflexivity |]); cbn [state field_len]; rewrite ?Hstate;
    split; try reflexivity; lia.
Qed.

Lemma body_run body : forall p rest,
  settled p = true ->
  Forall (fun c => is_nl c = false) body ->
  Forall (fun c => c <> QUOTECHAR) body ->
  field_len p + N.of_nat (length body) <= field_limit ->
  exists p', parse_line p (body ++ rest) = parse_line p' rest /\ settled p' = true.
Proof.
  induction body as [| c body IH]; intros p rest Hp Hnl Hq Hlen.
  - exists p. split; [reflexivity | exact Hp].
  - apply Forall_cons in Hnl as [Hc Hnl]. apply Forall_cons in Hq as [Hcq Hq].
    cbn [length] in Hlen. rewrite Nat2N.inj_succ in Hlen.
    destruct (body_char p c Hp Hc (proj2 (N.eqb_neq _ _) Hcq) ltac:(lia))
      as (p1 & Hstep & Hp1 & Hlen1).
    destruct (IH p1 rest Hp1 Hnl Hq ltac:(lia)) as (p' & Hrun & Hp').
    exists p'. split; [| exact Hp'].
    cbn [app parse_line]. rewrite Hstep. cbn [rbind]. exact Hrun.
Qed.

(** The end of a line brings the parser back to the start of a record. *)
Lemma ending_run p ending :
  settled p = true -> line_ending ending = true ->
  exists p', parse_line p ending = Ok p' /\ state p' = START_RECORD.
Proof.
  intros Hp He. unfold settled in Hp.
  destruct ending as [| c [| d [| x ending]]]; cbn [line_ending] in He; try discriminate.
  - cbn [parse_line]. unfold parse_process_char.
    destruct (state p) eqn:Hstate; try discriminate; eexists; split;
      try reflexivity; exact Hstate.
  - cbn [parse_line]. unfold parse_process_char.
    destruct (state p) eqn:Hstate; try discriminate; cbn [is_eol]; rewrite He;
      cbn [rbind set_state parse_save_field state after_eol]; eexists; split;
      reflexivity.
  - apply andb_true_iff in He as [Hc Hd]. apply N.eqb_eq in Hc, Hd. subst c d.
    cbn [parse_line]. unfold parse_process_char.
    destruct (state p) eqn:Hstate; try discriminate; eexists; split; reflexivity.
Qed.

Lemma line_run p line :
  settled p = true -> line_shape line ->
  Forall (fun c => c <> QUOTECHAR) line ->
  field_len p + N.of_nat (length line) <= field_limit ->
  exists p', parse_line p line = Ok p' /\ state p' = START_RECORD.
Proof.
  intros Hp (body & ending & -> & Hbody & Hending) Hq Hlen.
  apply Forall_app in Hq as [Hq _]. rewrite length_app in Hlen.
  destruct (body_run body p ending Hp Hbody Hq ltac:(lia)) as (p1 & Hrun & Hp1).
  destruct (ending_run p1 ending Hp1 Hending) as (p' & Hend & Hstate).
  exists p'. split; [rewrite Hrun; exact Hend | exact Hstate].
Qed.

Lemma iter_lines_unquoted lines : forall n,
  Forall line_shape lines ->
  Forall (Forall (fun c => c <> QUOTECHAR)) lines ->
  Forall (fun l => N.of_nat (length l) <= field_limit) lines ->
  reader_ok (iter_lines lines n parse_reset) = true.
Proof.
  induction lines as [| line lines IH]; intros n Hshape Hq Hlen; [reflexivity |].
  apply Forall_cons in Hshape as [Hs Hshape]. apply Forall_cons in Hq as [Hlq Hq].
  apply Forall_cons in Hlen as [Hl Hlen].
  destruct (line_run parse_reset line eq_refl Hs Hlq ltac:(cbn [field_len parse_reset]; lia))
    as (p' & Hrun & Hstate).
  cbn [iter_lines]. rewrite Hrun, Hstate. cbn [reader_ok forallb].
  apply IH; assumption.
Qed.

(** X21 (a text without quotes is read without error).  [csv.reader]
    raises no error on a text that holds no quote character and whose lines
    have at most 131072 characters each, whatever its line endings and the
    number of fields of its lines. *)
Theorem unquoted_text_is_read text :
  Forall (fun c => c <> QUOTECHAR) text ->
  Forall (fun l => N.of_nat (length l) <= field_limit) (readlines text) ->
  reader_ok (reader text) = true.
Proof.
  intros Hq Hlen. unfold reader. apply iter_lines_unquoted.
  - apply (lines_from_shape (length text)); [lia | constructor].
  - apply (CsvTextFacts.lines_from_chars _ (length text)); [lia | exact Hq | constructor].
  - exact Hlen.
Qed.

End UnquotedFacts.

Lemma unquoted_text_is_read_witness : reader_ok (Csv.reader scenario_text) = true.
Proof.
  apply (UnquotedFacts.unquoted_text_is_read scenario_text).
  - apply Forall_forall. intros c Hc Hq. subst c. revert Hc.
    apply (bool_decide_eq_true_1 (Csv.QUOTECHAR ∉ scenario_text)). vm_compute. reflexivity.
  - apply (bool_decide_eq_true_1
             (Forall (fun l => N.of_nat (length l) <= Csv.field_limit)
                (Csv.readlines scenario_text))).
    vm_compute. reflexivity.
Defined.

(** ** C7: a row whose value count does not match the header *)

Lemma yields_elem h items fields ln :
  reader_ok items = true -> Csv.Row fields ln ∈ items -> fields <> [] ->
  (ln, DictReader.make_row h fields) ∈ yields h items.
Proof.
  intros Hok Hin Hne. induction items as [| [fs l | l] items IH];
    [apply elem_of_nil in Hin; contradiction | | discriminate].
  cbn [reader_ok forallb] in Hok.
  apply elem_of_cons in Hin as [[= <- <-] | Hin].
  - destruct fields as [| v fields]; [contradiction |]. cbn [yields]. left.
  - specialize (IH Hok Hin). destruct fs as [| v fs]; cbn [yields]; [exact IH |].
    right. exact IH.
Qed.

Lemma entries_elem env fns ys y kb :
  y ∈ ys -> entry env fns (snd y) = Ok kb -> kb ∈ entries env fns ys.
Proof.
  intros Hin He. induction ys as [| y' ys IH];
    [apply elem_of_nil in Hin; contradiction |].
  rewrite StoreFacts.entries_cons. apply elem_of_cons in Hin as [<- | Hin].
  - rewrite He. left.
  - specialize (IH Hin). destruct (entry env fns (snd y')); [right |]; exact IH.
Qed.

(** An entry that was pushed is found in the list of its key. *)
Lemma pushed_entry_found k blob l :
  (k, blob) ∈ l ->
  exists blobs,
    fold_left push l (∅ : gmap pystr (list bytes)) !! k = Some blobs /\ blob ∈ blobs.
Proof.
  intros Hin. apply StoreFacts.group_elem in Hin.
  rewrite StoreFacts.lookup_fold_push, lookup_empty.
  destruct (group k l) as [| b bs] eqn:Hg.
  - apply elem_of_nil in Hin. contradiction.
  - exists (b :: bs). split; [reflexivity | exact Hin].
Qed.

(** The claim itself fails on the code.  The source has 1021 lines and
    exactly one record whose number of values is not that of the header: its
    second line, with the one value [z].  The run ends normally; no other row
    has the key [z]; and yet the namespace holds a list under [z]: the row
    was stored, with [null] for its missing field. *)
Lemma single_mismatched_row_example :
  header one_short_text = [py "id"; py "name"]
  /\ mismatched_records one_short_text = [Csv.Row [py "z"] 2]
  /\ rows_with_key (header one_short_text) (py "z") (rows one_short_text)
     = [[(KStr (py "id"), PStr (py "z")); (KStr (py "name"), PNone)]]
  /\ fst (store_csv one_short_env (py "one_short.csv") empty_world) = Ok tt
  /\ db (snd (store_csv one_short_env (py "one_short.csv") empty_world)) !! py "z"
     = Some [stored_compress
               (Json.dumps [(KStr (py "id"), PStr (py "z")); (KStr (py "name"), PNone)])].
Proof. vm_compute. repeat split; reflexivity. Qed.

(** C7, as the code has it (a mismatched row is stored too).  Take a file
    of valid text with at least 1020 line endings that [csv.reader] reads
    without error, whose header is not empty and has distinct names, and a
    connection on which every command gets through.  Then [store_csv] returns
    normally and has stored every row, and a record that is not blank and
    whose number of values is not that of the header is no exception: its
    row is stored in the list named by its first value, whether or not
    another row has that key.  [DictReader] has given the row [None] for each
    name without a value when the record is shorter than the header, and the
    surplus values as a list under the key [None] when it is longer. *)
Theorem mismatched_row_is_stored env csv_file f w fields ln :
  fs env csv_file = Some f ->
  valid_text f = true ->
  reader_ok (Csv.reader f) = true ->
  header f <> [] ->
  NoDup (header f) ->
  1020 <= record_count f ->
  (forall i, faulty env i = false) ->
  Csv.Row fields ln ∈ tl (Csv.reader f) ->
  fields <> [] ->
  length fields <> length (header f) ->
  exists w' blobs,
    store_csv env csv_file w = (Ok tt, w')
    /\ db w' !! hd [] fields = Some blobs
    /\ lzma_compress env (Json.dumps (DictReader.make_row (header f) fields)) ∈ blobs
    /\ (((length fields < length (header f))%nat
         /\ forall name, name ∈ drop (length fields) (header f) ->
              dict_get (KStr name) (DictReader.make_row (header f) fields) = Some PNone)
        \/ ((length (header f) < length fields)%nat
            /\ dict_get KNone (DictReader.make_row (header f) fields)
               = Some (PList (drop (length (header f)) fields))))
    /\ (forall ln' row, (ln', row) ∈ rows f ->
          exists k blob blobs',
            entry env (header f) row = Ok (k, blob)
            /\ db w' !! k = Some blobs' /\ blob ∈ blobs').
Proof.
  intros Hfs Hf Hread Hh Hnd Hn Hsend Hin Hne Hlen.
  destruct (AnyFacts.large_source_run env csv_file f w Hfs Hf Hread Hh Hnd Hn Hsend)
    as (_ & _ & Hok & Hrun).
  destruct (AnyFacts.header_row f Hh) as (ln0 & rest & Hreader).
  assert (Hrows : rows f = yields (header f) rest)
    by (unfold rows; rewrite Hreader; reflexivity).
  pose proof (CsvTextFacts.reader_valid f Hf) as Hvalid.
  rewrite Hreader in Hin, Hread, Hvalid. cbn [tl reader_ok forallb] in Hin, Hread, Hvalid.
  apply andb_true_iff in Hvalid as [_ Hvalid].
  assert (Hkey : valid_text (hd [] fields) = true).
  { rewrite forallb_forall in Hvalid. apply list_elem_of_In, Hvalid in Hin.
    cbn [item_valid] in Hin. destruct fields as [| v fields]; [contradiction |].
    cbn [forallb hd] in *. apply andb_true_iff in Hin as [Hv _]. exact Hv. }
  pose proof (yields_elem (header f) rest fields ln Hread Hin Hne) as Hrow.
  rewrite <- Hrows in Hrow.
  pose proof (RowFacts.entry_make_row env (header f) fields Hnd Hh Hne Hkey) as He.
  pose proof (entries_elem env (header f) (rows f) _ _ Hrow He) as Hkb.
  destruct (pushed_entry_found _ _ _ Hkb) as (blobs & Hget & Hblob).
  eexists. exists blobs. split; [exact Hrun |]. cbn [db].
  split; [exact Hget |]. split; [exact Hblob |]. split.
  - destruct (Nat.lt_gt_cases (length fields) (length (header f))) as [Hcases _].
    destruct (Hcases Hlen) as [Hshort | Hlong].
    + left. split; [exact Hshort |]. intros name Hname.
      apply make_row_short; assumption.
    + right. split; [exact Hlong |]. apply make_row_long. exact Hlong.
  - intros ln' row Hin'.
    pose proof (OutcomeFacts.all_ok_entries env _ _ _ _ Hok) as Hall.
    rewrite Forall_forall in Hall. destruct (Hall _ Hin') as [[k blob] He'].
    cbn [snd] in He'. exists k, blob.
    destruct (pushed_entry_found k blob _
                (entries_elem env (header f) (rows f) (ln', row) (k, blob) Hin' He'))
      as (blobs' & Hget' & Hblob').
    exists blobs'. auto.
Qed.

Lemma mismatched_row_is_stored_witness :
  exists w' blobs,
    store_csv one_short_env (py "one_short.csv") empty_world = (Ok tt, w')
    /\ db w' !! hd [] [py "z"] = Some blobs
    /\ lzma_compress one_short_env
         (Json.dumps (DictReader.make_row (header one_short_text) [py "z"])) ∈ blobs
    /\ (((length [py "z"] < length (header one_short_text))%nat
         /\ forall name, name ∈ drop (length [py "z"]) (header one_short_text) ->
              dict_get (KStr name) (DictReader.make_row (header one_short_text) [py "z"])
              = Some PNone)
        \/ ((length (header one_short_text) < length [py "z"])%nat
            /\ dict_get KNone (DictReader.make_row (header one_short_text) [py "z"])
               = Some (PList (drop (length (header one_short_text)) [py "z"]))))
    /\ (forall ln' row, (ln', row) ∈ rows one_short_text ->
          exists k blob blobs',
            entry one_short_env (header one_short_text) row = Ok (k, blob)
            /\ db w' !! k = Some blobs' /\ blob ∈ blobs').
Proof.
  apply (mismatched_row_is_stored one_short_env (py "one_short.csv") one_short_text
           empty_world [py "z"] 2).
  - reflexivity.
  - vm_compute. reflexivity.
  - vm_compute. reflexivity.
  - vm_compute. discriminate.
  - apply (bool_decide_eq_true_1 (NoDup (header one_short_text))). vm_compute. reflexivity.
  - vm_compute. discriminate.
  - intros i. vm_compute. reflexivity.
  - replace (tl (Csv.reader one_short_text))
      with (Csv.Row [py "z"] 2 :: drop 2 (Csv.reader one_short_text))
      by (vm_compute; reflexivity).
    left.
  - discriminate.
  - vm_compute. discriminate.
Defined.
